(** * ffmedia.c: the audio decode pipeline of the media playback helper

    A shallow embedding of [src/module/ffmedia.c].  C pointers are
    addresses in [Z] with [NULL = 0]; the frames that libav allocates live
    in a heap (a finite map from addresses to [AVFrame] records), because
    the frame queue threads its links through the frames themselves
    ([frame->opaque]).  C [int]s are [Z] with the wrap-around written out
    where it matters; [double]s are IEEE binary64 ([PrimFloat.float]). *)

From Stdlib Require FloatOps SpecFloat.
From Stdlib Require Import ZArith List Lia Bool.
From Stdlib Require Import PrimFloat.
From stdpp Require Import gmap list.

Local Open Scope Z_scope.

(** ** Memory model *)

Abbreviation addr := Z (only parsing).

Definition NULL : addr := 0.

(** The fields of an [AVFrame] that ffmedia.c reads or writes once the frame
    has left the resampler: the sample count, the interleaved s16 stereo
    plane [data[0]], and the [opaque] pointer, which the frame queue uses as
    its next-link. *)
Record AVFrame := mkAVFrame {
  nb_samples : Z;
  data0 : list Z;
  opaque : addr
}.

Abbreviation heap := (gmap Z AVFrame).

Definition set_opaque (f : AVFrame) (p : addr) : AVFrame :=
  {| nb_samples := nb_samples f; data0 := data0 f; opaque := p |}.

(** [p->opaque = q]; undefined ([None]) when [p] is not a live frame. *)
Definition store_opaque (h : heap) (p q : addr) : option heap :=
  match h !! p with
  | Some f => Some (<[p := set_opaque f q]> h)
  | None => None
  end.

(** [av_frame_free(&p)]: releases the frame; a null pointer is a no-op. *)
Definition av_frame_free (h : heap) (p : addr) : heap := delete p h.

(** ** Frame queue (lines 87-90, 238-262) *)

Record FrameQueue := mkFrameQueue {
  fq_first : addr;
  fq_last : addr
}.

Definition empty_frame_queue : FrameQueue :=
  {| fq_first := NULL; fq_last := NULL |}.

(** [static void enqueue_frame(FrameQueue *fq, AVFrame *frame)] *)
Definition enqueue_frame (h : heap) (fq : FrameQueue) (frame : addr)
  : option (heap * FrameQueue) :=
  h1 ← store_opaque h frame NULL;
  if negb (fq_first fq =? NULL) then
    h2 ← store_opaque h1 (fq_last fq) frame;
    Some (h2, {| fq_first := fq_first fq; fq_last := frame |})
  else
    Some (h1, {| fq_first := frame; fq_last := frame |}).

(** [static AVFrame *dequeue_frame(FrameQueue *fq)]: the heap is only read. *)
Definition dequeue_frame (h : heap) (fq : FrameQueue)
  : option (addr * FrameQueue) :=
  if fq_first fq =? NULL then Some (NULL, fq)
  else
    let rv := fq_first fq in
    f ← h !! rv;
    let first' := opaque f in
    if first' =? NULL
    then Some (rv, {| fq_first := first'; fq_last := NULL |})
    else Some (rv, {| fq_first := first'; fq_last := fq_last fq |}).

(** Enqueue a list of frames, left to right. *)
Fixpoint enqueue_frames (h : heap) (fq : FrameQueue) (fs : list addr)
  : option (heap * FrameQueue) :=
  match fs with
  | [] => Some (h, fq)
  | a :: fs' =>
      match enqueue_frame h fq a with
      | Some (h', fq') => enqueue_frames h' fq' fs'
      | None => None
      end
  end.

(** Call [dequeue_frame] [n] times and collect what it returned. *)
Fixpoint dequeue_frames (h : heap) (fq : FrameQueue) (n : nat)
  : option (list addr * FrameQueue) :=
  match n with
  | O => Some ([], fq)
  | S n' =>
      match dequeue_frame h fq with
      | Some (a, fq') =>
          match dequeue_frames h fq' n' with
          | Some (l, fq'') => Some (a :: l, fq'')
          | None => None
          end
      | None => None
      end
  end.

(** *** Representation predicate

    [chain h p l]: following [opaque] links from [p] visits exactly the
    frames [l] and then reaches [NULL]. *)
Fixpoint chain (h : heap) (p : addr) (l : list addr) : Prop :=
  match l with
  | [] => p = NULL
  | a :: l' =>
      p = a /\ a <> NULL /\
      match h !! a with
      | Some f => chain h (opaque f) l'
      | None => False
      end
  end.

(** [fq_rep h fq l]: in heap [h] the queue [fq] holds the frames [l], oldest
    first. *)
Definition fq_rep (h : heap) (fq : FrameQueue) (l : list addr) : Prop :=
  chain h (fq_first fq) l /\ NoDup l /\ fq_last fq = List.last l NULL.

(** ** C integers and doubles *)

Definition INT_MIN : Z := -2147483648.
Definition INT_MAX : Z := 2147483647.

(** Results of [int], [unsigned int] and [long long] arithmetic, reduced to
    the type's range (two's complement for the signed types). *)
Definition int_wrap (z : Z) : Z := (z + 2 ^ 31) mod 2 ^ 32 - 2 ^ 31.
Definition uint_wrap (z : Z) : Z := z mod 2 ^ 32.
Definition llong_wrap (z : Z) : Z := (z + 2 ^ 63) mod 2 ^ 64 - 2 ^ 63.

Abbreviation double := PrimFloat.float.

(** Integer to [double] conversion (round to nearest, ties to even). *)
Definition double_of_Z (z : Z) : double :=
  FloatOps.SF2Prim
    (SpecFloat.binary_normalize FloatOps.prec FloatOps.emax z 0 false).

(** The cast [(int) x]: truncation toward zero; undefined ([None]) for a NaN,
    an infinity, or a value that does not fit an [int]. *)
Definition int_of_double (x : double) : option Z :=
  match FloatOps.Prim2SF x with
  | SpecFloat.S754_zero _ => Some 0
  | SpecFloat.S754_finite s m e =>
      let mag :=
        if 0 <=? e then Z.shiftl (Z.pos m) e else Z.shiftr (Z.pos m) (- e) in
      let v := if s then - mag else mag in
      if (INT_MIN <=? v) && (v <=? INT_MAX) then Some v else None
  | _ => None
  end.

(** Lines 12-14 and libavutil's [AV_TIME_BASE]. *)
Definition CHANNELS : Z := 2.
Definition BPC : Z := 2.
Definition BPS : Z := 4.
Definition AV_TIME_BASE : Z := 1000000.

(** ** Packets, packet queues and the container *)

Record AVPacket := mkAVPacket {
  pkt_data : addr;
  pkt_size : Z;
  stream_index : Z
}.

(** A [PacketQueue] (lines 82-85) is a singly linked list of [AVPacketList]
    nodes that [enqueue_packet] allocates and [dequeue_packet] frees; no
    other code sees the nodes, so the queue is the list of packets it holds,
    oldest first. *)
Abbreviation PacketQueue := (list AVPacket).

(** [static void enqueue_packet(PacketQueue *pq, AVPacket *pkt)] *)
Definition enqueue_packet (pq : PacketQueue) (pkt : AVPacket) : PacketQueue :=
  pq ++ [pkt].

(** [static int dequeue_packet(PacketQueue *pq, AVPacket *pkt)]: the return
    value, the queue and [*pkt] afterwards. *)
Definition dequeue_packet (pq : PacketQueue) (pkt : AVPacket)
  : Z * PacketQueue * AVPacket :=
  match pq with
  | [] => (0, pq, pkt)
  | p :: pq' => (1, pq', p)
  end.

Inductive AVMediaType :=
  | AVMEDIA_TYPE_VIDEO
  | AVMEDIA_TYPE_AUDIO
  | AVMEDIA_TYPE_OTHER.

Inductive AVDurationEstimationMethod :=
  | AVFMT_DURATION_FROM_PTS
  | AVFMT_DURATION_FROM_STREAM
  | AVFMT_DURATION_FROM_BITRATE.

(** What one call of [av_read_frame] hands back: a packet (return value 0)
    or a failure (any non-zero return value). *)
Inductive read_result :=
  | ReadPacket (p : AVPacket)
  | ReadFailure.

(** The demuxer context, as far as ffmedia.c looks into it: the codec type
    of each stream, the container duration in [AV_TIME_BASE] units and how it
    was estimated, and the results the coming [av_read_frame] calls will
    produce (once they are used up, every further call reports end of
    file). *)
Record AVFormatContext := mkAVFormatContext {
  streams : list AVMediaType;
  duration : Z;
  duration_estimation_method : AVDurationEstimationMethod;
  input : list read_result
}.

Definition set_input (i : list read_result) (c : AVFormatContext)
  : AVFormatContext :=
  {| streams := streams c; duration := duration c;
     duration_estimation_method := duration_estimation_method c;
     input := i |}.

(** [av_read_frame(ctx, &scratch)] *)
Definition av_read_frame (c : AVFormatContext)
  : option AVPacket * AVFormatContext :=
  match input c with
  | [] => (None, c)
  | ReadFailure :: rest => (None, set_input rest c)
  | ReadPacket p :: rest => (Some p, set_input rest c)
  end.

(** ** MediaState (lines 102-191)

    The four lifecycle flags and the two [_finished] flags are C [int]s that
    only ever hold 0 or 1 and are only ever tested for truth: they are
    [bool]s here.  Handles of objects ffmedia.c never looks into (SDL
    primitives, codec contexts, the resampler) are bare addresses. *)

Record MediaState := mkMediaState {
  cond : addr;
  lock : addr;
  rwops : addr;
  filename : addr;
  started : bool;
  ready : bool;
  needs_decode : bool;
  quit : bool;
  skip : double;
  audio_finished : bool;
  video_finished : bool;
  video_stream : Z;
  audio_stream : Z;
  ctx : AVFormatContext;
  video_context : addr;
  audio_context : addr;
  video_packet_queue : PacketQueue;
  audio_packet_queue : PacketQueue;
  audio_queue : FrameQueue;
  audio_queue_samples : Z;
  audio_queue_target_seconds : Z;
  audio_decode_frame : addr;
  audio_out_frame : addr;
  audio_out_index : Z;
  swr : addr;
  audio_duration : Z;
  audio_read_samples : Z;
  video_decode_frame : addr;
  video_pkt : AVPacket;
  video_pkt_tmp : AVPacket
}.

(** Field updates ([ms->field = v]). *)

Definition set_started (v : bool) (ms : MediaState) : MediaState :=
  {| cond := cond ms; lock := lock ms; rwops := rwops ms;
     filename := filename ms; started := v; ready := ready ms;
     needs_decode := needs_decode ms; quit := quit ms; skip := skip ms;
     audio_finished := audio_finished ms;
     video_finished := video_finished ms; video_stream := video_stream ms;
     audio_stream := audio_stream ms; ctx := ctx ms;
     video_context := video_context ms; audio_context := audio_context ms;
     video_packet_queue := video_packet_queue ms;
     audio_packet_queue := audio_packet_queue ms;
     audio_queue := audio_queue ms;
     audio_queue_samples := audio_queue_samples ms;
     audio_queue_target_seconds := audio_queue_target_seconds ms;
     audio_decode_frame := audio_decode_frame ms;
     audio_out_frame := audio_out_frame ms;
     audio_out_index := audio_out_index ms; swr := swr ms;
     audio_duration := audio_duration ms;
     audio_read_samples := audio_read_samples ms;
     video_decode_frame := video_decode_frame ms; video_pkt := video_pkt ms;
     video_pkt_tmp := video_pkt_tmp ms |}.

Definition set_ready (v : bool) (ms : MediaState) : MediaState :=
  {| cond := cond ms; lock := lock ms; rwops := rwops ms;
     filename := filename ms; started := started ms; ready := v;
     needs_decode := needs_decode ms; quit := quit ms; skip := skip ms;
     audio_finished := audio_finished ms;
     video_finished := video_finished ms; video_stream := video_stream ms;
     audio_stream := audio_stream ms; ctx := ctx ms;
     video_context := video_context ms; audio_context := audio_context ms;
     video_packet_queue := video_packet_queue ms;
     audio_packet_queue := audio_packet_queue ms;
     audio_queue := audio_queue ms;
     audio_queue_samples := audio_queue_samples ms;
     audio_queue_target_seconds := audio_queue_target_seconds ms;
     audio_decode_frame := audio_decode_frame ms;
     audio_out_frame := audio_out_frame ms;
     audio_out_index := audio_out_index ms; swr := swr ms;
     audio_duration := audio_duration ms;
     audio_read_samples := audio_read_samples ms;
     video_decode_frame := video_decode_frame ms; video_pkt := video_pkt ms;
     video_pkt_tmp := video_pkt_tmp ms |}.

Definition set_needs_decode (v : bool) (ms : MediaState) : MediaState :=
  {| cond := cond ms; lock := lock ms; rwops := rwops ms;
     filename := filename ms; started := started ms; ready := ready ms;
     needs_decode := v; quit := quit ms; skip := skip ms;
     audio_finished := audio_finished ms;
     video_finished := video_finished ms; video_stream := video_stream ms;
     audio_stream := audio_stream ms; ctx := ctx ms;
     video_context := video_context ms; audio_context := audio_context ms;
     video_packet_queue := video_packet_queue ms;
     audio_packet_queue := audio_packet_queue ms;
     audio_queue := audio_queue ms;
     audio_queue_samples := audio_queue_samples ms;
     audio_queue_target_seconds := audio_queue_target_seconds ms;
     audio_decode_frame := audio_decode_frame ms;
     audio_out_frame := audio_out_frame ms;
     audio_out_index := audio_out_index ms; swr := swr ms;
     audio_duration := audio_duration ms;
     audio_read_samples := audio_read_samples ms;
     video_decode_frame := video_decode_frame ms; video_pkt := video_pkt ms;
     video_pkt_tmp := video_pkt_tmp ms |}.

Definition set_quit (v : bool) (ms : MediaState) : MediaState :=
  {| cond := cond ms; lock := lock ms; rwops := rwops ms;
     filename := filename ms; started := started ms; ready := ready ms;
     needs_decode := needs_decode ms; quit := v; skip := skip ms;
     audio_finished := audio_finished ms;
     video_finished := video_finished ms; video_stream := video_stream ms;
     audio_stream := audio_stream ms; ctx := ctx ms;
     video_context := video_context ms; audio_context := audio_context ms;
     video_packet_queue := video_packet_queue ms;
     audio_packet_queue := audio_packet_queue ms;
     audio_queue := audio_queue ms;
     audio_queue_samples := audio_queue_samples ms;
     audio_queue_target_seconds := audio_queue_target_seconds ms;
     audio_decode_frame := audio_decode_frame ms;
     audio_out_frame := audio_out_frame ms;
     audio_out_index := audio_out_index ms; swr := swr ms;
     audio_duration := audio_duration ms;
     audio_read_samples := audio_read_samples ms;
     video_decode_frame := video_decode_frame ms; video_pkt := video_pkt ms;
     video_pkt_tmp := video_pkt_tmp ms |}.

Definition set_skip (v : double) (ms : MediaState) : MediaState :=
  {| cond := cond ms; lock := lock ms; rwops := rwops ms;
     filename := filename ms; started := started ms; ready := ready ms;
     needs_decode := needs_decode ms; quit := quit ms; skip := v;
     audio_finished := audio_finished ms;
     video_finished := video_finished ms; video_stream := video_stream ms;
     audio_stream := audio_stream ms; ctx := ctx ms;
     video_context := video_context ms; audio_context := audio_context ms;
     video_packet_queue := video_packet_queue ms;
     audio_packet_queue := audio_packet_queue ms;
     audio_queue := audio_queue ms;
     audio_queue_samples := audio_queue_samples ms;
     audio_queue_target_seconds := audio_queue_target_seconds ms;
     audio_decode_frame := audio_decode_frame ms;
     audio_out_frame := audio_out_frame ms;
     audio_out_index := audio_out_index ms; swr := swr ms;
     audio_duration := audio_duration ms;
     audio_read_samples := audio_read_samples ms;
     video_decode_frame := video_decode_frame ms; video_pkt := video_pkt ms;
     video_pkt_tmp := video_pkt_tmp ms |}.

Definition set_audio_finished (v : bool) (ms : MediaState) : MediaState :=
  {| cond := cond ms; lock := lock ms; rwops := rwops ms;
     filename := filename ms; started := started ms; ready := ready ms;
     needs_decode := needs_decode ms; quit := quit ms; skip := skip ms;
     audio_finished := v; video_finished := video_finished ms;
     video_stream := video_stream ms; audio_stream := audio_stream ms;
     ctx := ctx ms; video_context := video_context ms;
     audio_context := audio_context ms;
     video_packet_queue := video_packet_queue ms;
     audio_packet_queue := audio_packet_queue ms;
     audio_queue := audio_queue ms;
     audio_queue_samples := audio_queue_samples ms;
     audio_queue_target_seconds := audio_queue_target_seconds ms;
     audio_decode_frame := audio_decode_frame ms;
     audio_out_frame := audio_out_frame ms;
     audio_out_index := audio_out_index ms; swr := swr ms;
     audio_duration := audio_duration ms;
     audio_read_samples := audio_read_samples ms;
     video_decode_frame := video_decode_frame ms; video_pkt := video_pkt ms;
     video_pkt_tmp := video_pkt_tmp ms |}.

Definition set_video_finished (v : bool) (ms : MediaState) : MediaState :=
  {| cond := cond ms; lock := lock ms; rwops := rwops ms;
     filename := filename ms; started := started ms; ready := ready ms;
     needs_decode := needs_decode ms; quit := quit ms; skip := skip ms;
     audio_finished := audio_finished ms; video_finished := v;
     video_stream := video_stream ms; audio_stream := audio_stream ms;
     ctx := ctx ms; video_context := video_context ms;
     audio_context := audio_context ms;
     video_packet_queue := video_packet_queue ms;
     audio_packet_queue := audio_packet_queue ms;
     audio_queue := audio_queue ms;
     audio_queue_samples := audio_queue_samples ms;
     audio_queue_target_seconds := audio_queue_target_seconds ms;
     audio_decode_frame := audio_decode_frame ms;
     audio_out_frame := audio_out_frame ms;
     audio_out_index := audio_out_index ms; swr := swr ms;
     audio_duration := audio_duration ms;
     audio_read_samples := audio_read_samples ms;
     video_decode_frame := video_decode_frame ms; video_pkt := video_pkt ms;
     video_pkt_tmp := video_pkt_tmp ms |}.

Definition set_video_stream (v : Z) (ms : MediaState) : MediaState :=
  {| cond := cond ms; lock := lock ms; rwops := rwops ms;
     filename := filename ms; started := started ms; ready := ready ms;
     needs_decode := needs_decode ms; quit := quit ms; skip := skip ms;
     audio_finished := audio_finished ms;
     video_finished := video_finished ms; video_stream := v;
     audio_stream := audio_stream ms; ctx := ctx ms;
     video_context := video_context ms; audio_context := audio_context ms;
     video_packet_queue := video_packet_queue ms;
     audio_packet_queue := audio_packet_queue ms;
     audio_queue := audio_queue ms;
     audio_queue_samples := audio_queue_samples ms;
     audio_queue_target_seconds := audio_queue_target_seconds ms;
     audio_decode_frame := audio_decode_frame ms;
     audio_out_frame := audio_out_frame ms;
     audio_out_index := audio_out_index ms; swr := swr ms;
     audio_duration := audio_duration ms;
     audio_read_samples := audio_read_samples ms;
     video_decode_frame := video_decode_frame ms; video_pkt := video_pkt ms;
     video_pkt_tmp := video_pkt_tmp ms |}.

Definition set_audio_stream (v : Z) (ms : MediaState) : MediaState :=
  {| cond := cond ms; lock := lock ms; rwops := rwops ms;
     filename := filename ms; started := started ms; ready := ready ms;
     needs_decode := needs_decode ms; quit := quit ms; skip := skip ms;
     audio_finished := audio_finished ms;
     video_finished := video_finished ms; video_stream := video_stream ms;
     audio_stream := v; ctx := ctx ms; video_context := video_context ms;
     audio_context := audio_context ms;
     video_packet_queue := video_packet_queue ms;
     audio_packet_queue := audio_packet_queue ms;
     audio_queue := audio_queue ms;
     audio_queue_samples := audio_queue_samples ms;
     audio_queue_target_seconds := audio_queue_target_seconds ms;
     audio_decode_frame := audio_decode_frame ms;
     audio_out_frame := audio_out_frame ms;
     audio_out_index := audio_out_index ms; swr := swr ms;
     audio_duration := audio_duration ms;
     audio_read_samples := audio_read_samples ms;
     video_decode_frame := video_decode_frame ms; video_pkt := video_pkt ms;
     video_pkt_tmp := video_pkt_tmp ms |}.

Definition set_ctx (v : AVFormatContext) (ms : MediaState) : MediaState :=
  {| cond := cond ms; lock := lock ms; rwops := rwops ms;
     filename := filename ms; started := started ms; ready := ready ms;
     needs_decode := needs_decode ms; quit := quit ms; skip := skip ms;
     audio_finished := audio_finished ms;
     video_finished := video_finished ms; video_stream := video_stream ms;
     audio_stream := audio_stream ms; ctx := v;
     video_context := video_context ms; audio_context := audio_context ms;
     video_packet_queue := video_packet_queue ms;
     audio_packet_queue := audio_packet_queue ms;
     audio_queue := audio_queue ms;
     audio_queue_samples := audio_queue_samples ms;
     audio_queue_target_seconds := audio_queue_target_seconds ms;
     audio_decode_frame := audio_decode_frame ms;
     audio_out_frame := audio_out_frame ms;
     audio_out_index := audio_out_index ms; swr := swr ms;
     audio_duration := audio_duration ms;
     audio_read_samples := audio_read_samples ms;
     video_decode_frame := video_decode_frame ms; video_pkt := video_pkt ms;
     video_pkt_tmp := video_pkt_tmp ms |}.

Definition set_video_context (v : addr) (ms : MediaState) : MediaState :=
  {| cond := cond ms; lock := lock ms; rwops := rwops ms;
     filename := filename ms; started := started ms; ready := ready ms;
     needs_decode := needs_decode ms; quit := quit ms; skip := skip ms;
     audio_finished := audio_finished ms;
     video_finished := video_finished ms; video_stream := video_stream ms;
     audio_stream := audio_stream ms; ctx := ctx ms; video_context := v;
     audio_context := audio_context ms;
     video_packet_queue := video_packet_queue ms;
     audio_packet_queue := audio_packet_queue ms;
     audio_queue := audio_queue ms;
     audio_queue_samples := audio_queue_samples ms;
     audio_queue_target_seconds := audio_queue_target_seconds ms;
     audio_decode_frame := audio_decode_frame ms;
     audio_out_frame := audio_out_frame ms;
     audio_out_index := audio_out_index ms; swr := swr ms;
     audio_duration := audio_duration ms;
     audio_read_samples := audio_read_samples ms;
     video_decode_frame := video_decode_frame ms; video_pkt := video_pkt ms;
     video_pkt_tmp := video_pkt_tmp ms |}.

Definition set_audio_context (v : addr) (ms : MediaState) : MediaState :=
  {| cond := cond ms; lock := lock ms; rwops := rwops ms;
     filename := filename ms; started := started ms; ready := ready ms;
     needs_decode := needs_decode ms; quit := quit ms; skip := skip ms;
     audio_finished := audio_finished ms;
     video_finished := video_finished ms; video_stream := video_stream ms;
     audio_stream := audio_stream ms; ctx := ctx ms;
     video_context := video_context ms; audio_context := v;
     video_packet_queue := video_packet_queue ms;
     audio_packet_queue := audio_packet_queue ms;
     audio_queue := audio_queue ms;
     audio_queue_samples := audio_queue_samples ms;
     audio_queue_target_seconds := audio_queue_target_seconds ms;
     audio_decode_frame := audio_decode_frame ms;
     audio_out_frame := audio_out_frame ms;
     audio_out_index := audio_out_index ms; swr := swr ms;
     audio_duration := audio_duration ms;
     audio_read_samples := audio_read_samples ms;
     video_decode_frame := video_decode_frame ms; video_pkt := video_pkt ms;
     video_pkt_tmp := video_pkt_tmp ms |}.

Definition set_video_packet_queue (v : PacketQueue) (ms : MediaState) : MediaState :=
  {| cond := cond ms; lock := lock ms; rwops := rwops ms;
     filename := filename ms; started := started ms; ready := ready ms;
     needs_decode := needs_decode ms; quit := quit ms; skip := skip ms;
     audio_finished := audio_finished ms;
     video_finished := video_finished ms; video_stream := video_stream ms;
     audio_stream := audio_stream ms; ctx := ctx ms;
     video_context := video_context ms; audio_context := audio_context ms;
     video_packet_queue := v; audio_packet_queue := audio_packet_queue ms;
     audio_queue := audio_queue ms;
     audio_queue_samples := audio_queue_samples ms;
     audio_queue_target_seconds := audio_queue_target_seconds ms;
     audio_decode_frame := audio_decode_frame ms;
     audio_out_frame := audio_out_frame ms;
     audio_out_index := audio_out_index ms; swr := swr ms;
     audio_duration := audio_duration ms;
     audio_read_samples := audio_read_samples ms;
     video_decode_frame := video_decode_frame ms; video_pkt := video_pkt ms;
     video_pkt_tmp := video_pkt_tmp ms |}.

Definition set_audio_packet_queue (v : PacketQueue) (ms : MediaState) : MediaState :=
  {| cond := cond ms; lock := lock ms; rwops := rwops ms;
     filename := filename ms; started := started ms; ready := ready ms;
     needs_decode := needs_decode ms; quit := quit ms; skip := skip ms;
     audio_finished := audio_finished ms;
     video_finished := video_finished ms; video_stream := video_stream ms;
     audio_stream := audio_stream ms; ctx := ctx ms;
     video_context := video_context ms; audio_context := audio_context ms;
     video_packet_queue := video_packet_queue ms; audio_packet_queue := v;
     audio_queue := audio_queue ms;
     audio_queue_samples := audio_queue_samples ms;
     audio_queue_target_seconds := audio_queue_target_seconds ms;
     audio_decode_frame := audio_decode_frame ms;
     audio_out_frame := audio_out_frame ms;
     audio_out_index := audio_out_index ms; swr := swr ms;
     audio_duration := audio_duration ms;
     audio_read_samples := audio_read_samples ms;
     video_decode_frame := video_decode_frame ms; video_pkt := video_pkt ms;
     video_pkt_tmp := video_pkt_tmp ms |}.

Definition set_audio_queue (v : FrameQueue) (ms : MediaState) : MediaState :=
  {| cond := cond ms; lock := lock ms; rwops := rwops ms;
     filename := filename ms; started := started ms; ready := ready ms;
     needs_decode := needs_decode ms; quit := quit ms; skip := skip ms;
     audio_finished := audio_finished ms;
     video_finished := video_finished ms; video_stream := video_stream ms;
     audio_stream := audio_stream ms; ctx := ctx ms;
     video_context := video_context ms; audio_context := audio_context ms;
     video_packet_queue := video_packet_queue ms;
     audio_packet_queue := audio_packet_queue ms; audio_queue := v;
     audio_queue_samples := audio_queue_samples ms;
     audio_queue_target_seconds := audio_queue_target_seconds ms;
     audio_decode_frame := audio_decode_frame ms;
     audio_out_frame := audio_out_frame ms;
     audio_out_index := audio_out_index ms; swr := swr ms;
     audio_duration := audio_duration ms;
     audio_read_samples := audio_read_samples ms;
     video_decode_frame := video_decode_frame ms; video_pkt := video_pkt ms;
     video_pkt_tmp := video_pkt_tmp ms |}.

Definition set_audio_queue_samples (v : Z) (ms : MediaState) : MediaState :=
  {| cond := cond ms; lock := lock ms; rwops := rwops ms;
     filename := filename ms; started := started ms; ready := ready ms;
     needs_decode := needs_decode ms; quit := quit ms; skip := skip ms;
     audio_finished := audio_finished ms;
     video_finished := video_finished ms; video_stream := video_stream ms;
     audio_stream := audio_stream ms; ctx := ctx ms;
     video_context := video_context ms; audio_context := audio_context ms;
     video_packet_queue := video_packet_queue ms;
     audio_packet_queue := audio_packet_queue ms;
     audio_queue := audio_queue ms; audio_queue_samples := v;
     audio_queue_target_seconds := audio_queue_target_seconds ms;
     audio_decode_frame := audio_decode_frame ms;
     audio_out_frame := audio_out_frame ms;
     audio_out_index := audio_out_index ms; swr := swr ms;
     audio_duration := audio_duration ms;
     audio_read_samples := audio_read_samples ms;
     video_decode_frame := video_decode_frame ms; video_pkt := video_pkt ms;
     video_pkt_tmp := video_pkt_tmp ms |}.

Definition set_audio_out_frame (v : addr) (ms : MediaState) : MediaState :=
  {| cond := cond ms; lock := lock ms; rwops := rwops ms;
     filename := filename ms; started := started ms; ready := ready ms;
     needs_decode := needs_decode ms; quit := quit ms; skip := skip ms;
     audio_finished := audio_finished ms;
     video_finished := video_finished ms; video_stream := video_stream ms;
     audio_stream := audio_stream ms; ctx := ctx ms;
     video_context := video_context ms; audio_context := audio_context ms;
     video_packet_queue := video_packet_queue ms;
     audio_packet_queue := audio_packet_queue ms;
     audio_queue := audio_queue ms;
     audio_queue_samples := audio_queue_samples ms;
     audio_queue_target_seconds := audio_queue_target_seconds ms;
     audio_decode_frame := audio_decode_frame ms; audio_out_frame := v;
     audio_out_index := audio_out_index ms; swr := swr ms;
     audio_duration := audio_duration ms;
     audio_read_samples := audio_read_samples ms;
     video_decode_frame := video_decode_frame ms; video_pkt := video_pkt ms;
     video_pkt_tmp := video_pkt_tmp ms |}.

Definition set_audio_out_index (v : Z) (ms : MediaState) : MediaState :=
  {| cond := cond ms; lock := lock ms; rwops := rwops ms;
     filename := filename ms; started := started ms; ready := ready ms;
     needs_decode := needs_decode ms; quit := quit ms; skip := skip ms;
     audio_finished := audio_finished ms;
     video_finished := video_finished ms; video_stream := video_stream ms;
     audio_stream := audio_stream ms; ctx := ctx ms;
     video_context := video_context ms; audio_context := audio_context ms;
     video_packet_queue := video_packet_queue ms;
     audio_packet_queue := audio_packet_queue ms;
     audio_queue := audio_queue ms;
     audio_queue_samples := audio_queue_samples ms;
     audio_queue_target_seconds := audio_queue_target_seconds ms;
     audio_decode_frame := audio_decode_frame ms;
     audio_out_frame := audio_out_frame ms; audio_out_index := v;
     swr := swr ms; audio_duration := audio_duration ms;
     audio_read_samples := audio_read_samples ms;
     video_decode_frame := video_decode_frame ms; video_pkt := video_pkt ms;
     video_pkt_tmp := video_pkt_tmp ms |}.

Definition set_swr (v : addr) (ms : MediaState) : MediaState :=
  {| cond := cond ms; lock := lock ms; rwops := rwops ms;
     filename := filename ms; started := started ms; ready := ready ms;
     needs_decode := needs_decode ms; quit := quit ms; skip := skip ms;
     audio_finished := audio_finished ms;
     video_finished := video_finished ms; video_stream := video_stream ms;
     audio_stream := audio_stream ms; ctx := ctx ms;
     video_context := video_context ms; audio_context := audio_context ms;
     video_packet_queue := video_packet_queue ms;
     audio_packet_queue := audio_packet_queue ms;
     audio_queue := audio_queue ms;
     audio_queue_samples := audio_queue_samples ms;
     audio_queue_target_seconds := audio_queue_target_seconds ms;
     audio_decode_frame := audio_decode_frame ms;
     audio_out_frame := audio_out_frame ms;
     audio_out_index := audio_out_index ms; swr := v;
     audio_duration := audio_duration ms;
     audio_read_samples := audio_read_samples ms;
     video_decode_frame := video_decode_frame ms; video_pkt := video_pkt ms;
     video_pkt_tmp := video_pkt_tmp ms |}.

Definition set_audio_duration (v : Z) (ms : MediaState) : MediaState :=
  {| cond := cond ms; lock := lock ms; rwops := rwops ms;
     filename := filename ms; started := started ms; ready := ready ms;
     needs_decode := needs_decode ms; quit := quit ms; skip := skip ms;
     audio_finished := audio_finished ms;
     video_finished := video_finished ms; video_stream := video_stream ms;
     audio_stream := audio_stream ms; ctx := ctx ms;
     video_context := video_context ms; audio_context := audio_context ms;
     video_packet_queue := video_packet_queue ms;
     audio_packet_queue := audio_packet_queue ms;
     audio_queue := audio_queue ms;
     audio_queue_samples := audio_queue_samples ms;
     audio_queue_target_seconds := audio_queue_target_seconds ms;
     audio_decode_frame := audio_decode_frame ms;
     audio_out_frame := audio_out_frame ms;
     audio_out_index := audio_out_index ms; swr := swr ms;
     audio_duration := v; audio_read_samples := audio_read_samples ms;
     video_decode_frame := video_decode_frame ms; video_pkt := video_pkt ms;
     video_pkt_tmp := video_pkt_tmp ms |}.

Definition set_audio_read_samples (v : Z) (ms : MediaState) : MediaState :=
  {| cond := cond ms; lock := lock ms; rwops := rwops ms;
     filename := filename ms; started := started ms; ready := ready ms;
     needs_decode := needs_decode ms; quit := quit ms; skip := skip ms;
     audio_finished := audio_finished ms;
     video_finished := video_finished ms; video_stream := video_stream ms;
     audio_stream := audio_stream ms; ctx := ctx ms;
     video_context := video_context ms; audio_context := audio_context ms;
     video_packet_queue := video_packet_queue ms;
     audio_packet_queue := audio_packet_queue ms;
     audio_queue := audio_queue ms;
     audio_queue_samples := audio_queue_samples ms;
     audio_queue_target_seconds := audio_queue_target_seconds ms;
     audio_decode_frame := audio_decode_frame ms;
     audio_out_frame := audio_out_frame ms;
     audio_out_index := audio_out_index ms; swr := swr ms;
     audio_duration := audio_duration ms; audio_read_samples := v;
     video_decode_frame := video_decode_frame ms; video_pkt := video_pkt ms;
     video_pkt_tmp := video_pkt_tmp ms |}.

(** ** Outcomes and observable calls *)

(** How a modelled function ends: it returns; it runs into undefined
    behaviour of the C program (a bad pointer, a copy outside a buffer, an
    unrepresentable cast); it waits on the condition variable for a flag the
    sequential model cannot change; or the model's iteration bound was too
    small (shown impossible below). *)
Inductive outcome (A : Type) : Type :=
  | Returns (a : A)
  | Undefined
  | Blocked
  | OutOfFuel.

Arguments Returns {A} a.
Arguments Undefined {A}.
Arguments Blocked {A}.
Arguments OutOfFuel {A}.

(** The SDL calls and the writes that the properties below observe, in
    program order. *)
Inductive event :=
  | EvLock            (* SDL_LockMutex(ms->lock) *)
  | EvUnlock          (* SDL_UnlockMutex(ms->lock) *)
  | EvBroadcast       (* SDL_CondBroadcast(ms->cond) *)
  | EvWait            (* SDL_CondWait(ms->cond, ms->lock) *)
  | EvAssignReady     (* ms->ready = 1 *)
  | EvCreateThread    (* SDL_CreateThread returned a thread *)
  | EvDetachThread    (* SDL_DetachThread(t) *)
  | EvDeallocate.     (* deallocate(ms) *)

(** ** Demuxer/router: [read_packet] (lines 312-338) *)

(** The [pq] argument of [read_packet]: both call sites pass the address of
    one of the two packet queues of [ms]. *)
Inductive packet_queue_ref :=
  | AUDIO_PACKET_QUEUE      (* &ms->audio_packet_queue *)
  | VIDEO_PACKET_QUEUE.     (* &ms->video_packet_queue *)

Definition packet_queue_at (pq : packet_queue_ref) (ms : MediaState)
  : PacketQueue :=
  match pq with
  | AUDIO_PACKET_QUEUE => audio_packet_queue ms
  | VIDEO_PACKET_QUEUE => video_packet_queue ms
  end.

Definition set_packet_queue_at (pq : packet_queue_ref) (q : PacketQueue)
    (ms : MediaState) : MediaState :=
  match pq with
  | AUDIO_PACKET_QUEUE => set_audio_packet_queue q ms
  | VIDEO_PACKET_QUEUE => set_video_packet_queue q ms
  end.

(** Lines 326-334: where a packet read from the container goes
    ([av_dup_packet] only makes the packet own its data). *)
Definition route_packet (scratch : AVPacket) (ms : MediaState) : MediaState :=
  if stream_index scratch =? video_stream ms then
    set_video_packet_queue (enqueue_packet (video_packet_queue ms) scratch) ms
  else if stream_index scratch =? audio_stream ms then
    set_audio_packet_queue (enqueue_packet (audio_packet_queue ms) scratch) ms
  else ms.

(** Lines 321-323: the empty packet handed back on failure. *)
Definition empty_packet (pkt : AVPacket) : AVPacket :=
  {| pkt_data := NULL; pkt_size := 0; stream_index := stream_index pkt |}.

(** The [while (1)] loop.  [pending] is [input (ctx ms)], the results the
    container has yet to deliver; each turn that reads a packet consumes
    one, which is what the recursion descends on. *)
Fixpoint read_packet_loop (pending : list read_result) (ms : MediaState)
    (pq : packet_queue_ref) (pkt : AVPacket) : Z * MediaState * AVPacket :=
  let '(got, q', pkt') := dequeue_packet (packet_queue_at pq ms) pkt in
  if negb (got =? 0) then (1, set_packet_queue_at pq q' ms, pkt')
  else
    match pending with
    | [] => (0, ms, empty_packet pkt)
    | ReadFailure :: rest =>
        (0, set_ctx (set_input rest (ctx ms)) ms, empty_packet pkt)
    | ReadPacket scratch :: rest =>
        read_packet_loop rest
          (route_packet scratch (set_ctx (set_input rest (ctx ms)) ms)) pq pkt
    end.

(** [static int read_packet(MediaState *ms, PacketQueue *pq, AVPacket *pkt)]:
    the return value, the state and [*pkt] afterwards. *)
Definition read_packet (ms : MediaState) (pq : packet_queue_ref)
    (pkt : AVPacket) : Z * MediaState * AVPacket :=
  read_packet_loop (input (ctx ms)) ms pq pkt.

(** ** Audio decoder: the skip-policy block of [decode_audio] (lines 437-460)

    [audio_sample_rate] is the file-level variable of line 10, [pts] the
    value of [av_frame_get_best_effort_timestamp], [timebase] the stream's
    time base as a [double] (line 392), and [converted_frame] the frame that
    [swr_convert_frame] filled. *)
Definition decode_audio_skip_policy (audio_sample_rate : Z) (h : heap)
    (ms : MediaState) (pts : Z) (timebase : double) (converted_frame : addr)
  : option (heap * MediaState) :=
  f ← h !! converted_frame;
  let start := (double_of_Z pts * timebase)%float in
  let end_ :=
    (start
     + 1.0 * double_of_Z (nb_samples f) / double_of_Z audio_sample_rate)%float in
  if (skip ms <=? start)%float then
    (* start >= ms->skip *)
    let ms1 :=
      set_audio_queue_samples
        (int_wrap (audio_queue_samples ms + nb_samples f)) ms in
    '(h', q') ← enqueue_frame h (audio_queue ms1) converted_frame;
    Some (h', set_audio_queue q' ms1)
  else if (end_ <? skip ms)%float then
    Some (av_frame_free h converted_frame, ms)
  else
    n ← int_of_double ((skip ms - start) * double_of_Z audio_sample_rate)%float;
    Some (h, set_audio_out_index (int_wrap (BPS * n))
               (set_audio_out_frame converted_frame ms)).

(** ** Pull API: [media_read_audio] (lines 649-720) *)

(** [memcpy(stream, &data[idx], count)]: the bytes copied; undefined when the
    range leaves the plane ([count] is converted to [size_t], so a negative
    count is an enormous one). *)
Definition memcpy_from (data : list Z) (idx count : Z) : option (list Z) :=
  if (0 <=? idx) && (0 <=? count) && (idx + count <=? Z.of_nat (length data))
  then Some (take (Z.to_nat count) (drop (Z.to_nat idx) data))
  else None.

(** Lines 674-677. *)
Definition fetch_out_frame (h : heap) (ms : MediaState) : option MediaState :=
  if audio_out_frame ms =? NULL then
    '(f, q) ← dequeue_frame h (audio_queue ms);
    Some (set_audio_out_index 0 (set_audio_out_frame f (set_audio_queue q ms)))
  else Some ms.

(** Lines 683-708, one pass over the frame [f] being drained (the frame at
    [audio_out_frame]): the heap and state afterwards, the bytes copied to
    the caller's buffer and their number [count]. *)
Definition drain_out_frame (h : heap) (ms : MediaState) (f : AVFrame)
    (len : Z) : option (heap * MediaState * list Z * Z) :=
  let avail := int_wrap (int_wrap (nb_samples f * BPS) - audio_out_index ms) in
  let count := if len >? avail then avail else len in
  bytes ← memcpy_from (data0 f) (audio_out_index ms) count;
  let ms1 := set_audio_out_index (int_wrap (audio_out_index ms + count)) ms in
  let ms2 :=
    set_audio_read_samples
      (uint_wrap (audio_read_samples ms1 + Z.quot count BPS)) ms1 in
  let ms3 :=
    set_audio_queue_samples
      (int_wrap (audio_queue_samples ms2 - Z.quot count BPS)) ms2 in
  if audio_out_index ms3 >=? int_wrap (nb_samples f * BPS) then
    Some (av_frame_free h (audio_out_frame ms3),
          set_audio_out_index 0 (set_audio_out_frame NULL ms3), bytes, count)
  else Some (h, ms3, bytes, count).

(** The fill loop, lines 672-709: [stream] collects the bytes written to the
    caller's buffer so far, in order. *)
Fixpoint read_audio_loop (fuel : nat) (h : heap) (ms : MediaState)
    (stream : list Z) (len rv : Z)
  : outcome (heap * MediaState * list Z * Z) :=
  if len =? 0 then Returns (h, ms, stream, rv)
  else
    match fuel with
    | O => OutOfFuel
    | S fuel' =>
        match fetch_out_frame h ms with
        | None => Undefined
        | Some ms1 =>
            if audio_out_frame ms1 =? NULL then Returns (h, ms1, stream, rv)
            else
              match h !! audio_out_frame ms1 with
              | None => Undefined
              | Some f =>
                  match drain_out_frame h ms1 f len with
                  | None => Undefined
                  | Some (h', ms2, bytes, count) =>
                      read_audio_loop fuel' h' ms2 (stream ++ bytes)
                        (int_wrap (len - count)) (int_wrap (rv + count))
                  end
              end
        end
    end.

(** Lines 658-670: the duration clamp, preceded by the assignment of
    line 658. *)
Definition clamp_to_duration (ms : MediaState) (len : Z) : MediaState * Z :=
  let ms := set_audio_duration 0 ms in
  if negb (audio_duration ms =? 0) then
    let remaining :=
      uint_wrap ((audio_duration ms - audio_read_samples ms) * BPS) in
    let len := if uint_wrap len >? remaining then int_wrap remaining else len in
    let ms := if remaining =? 0 then set_audio_finished true ms else ms in
    (ms, len)
  else (ms, len).

(** [int media_read_audio(struct MediaState *ms, Uint8 *stream, int len)]:
    the heap and state afterwards, the bytes written to [stream], the return
    value, and the SDL calls made.  Every turn of the fill loop that does not
    end it frees a frame, so one more turn than there are frames is
    enough. *)
Definition media_read_audio (h : heap) (ms : MediaState) (len : Z)
  : outcome (heap * MediaState * list Z * Z * list event) :=
  if negb (ready ms) then Blocked
  else
    let '(ms1, len1) := clamp_to_duration ms len in
    match read_audio_loop (S (size h)) h ms1 [] len1 0 with
    | Returns (h', ms2, stream, rv) =>
        if negb (rv =? 0) then
          Returns (h', set_needs_decode true ms2, stream, rv,
                   [EvLock; EvBroadcast; EvUnlock])
        else Returns (h', ms2, stream, rv, [EvLock; EvUnlock])
    | Undefined => Undefined
    | Blocked => Blocked
    | OutOfFuel => OutOfFuel
    end.

(** ** Lifecycle: [deallocate], [media_open], [media_start_end],
    [media_start], [media_close] *)

(** Lines 209-217: free every frame still queued. *)
Fixpoint free_audio_queue (fuel : nat) (h : heap) (fq : FrameQueue)
  : outcome heap :=
  match dequeue_frame h fq with
  | None => Undefined
  | Some (f, fq') =>
      if f =? NULL then Returns h
      else
        match fuel with
        | O => OutOfFuel
        | S fuel' => free_audio_queue fuel' (av_frame_free h f) fq'
        end
  end.

(** [static void deallocate(MediaState *ms)], as far as the frame heap is
    concerned; the state itself is gone afterwards. *)
Definition deallocate (h : heap) (ms : MediaState) : outcome heap :=
  let h1 := av_frame_free h (video_decode_frame ms) in
  let h2 := av_frame_free h1 (audio_decode_frame ms) in
  let h3 := av_frame_free h2 (audio_out_frame ms) in
  free_audio_queue (size h3) h3 (audio_queue ms).

Definition zero_packet : AVPacket :=
  {| pkt_data := NULL; pkt_size := 0; stream_index := 0 |}.

(** [MediaState *media_open(SDL_RWops *rwops, const char *filename)]:
    [av_calloc] zeroes the state; [name], [c] and [l] are what [av_strdup],
    [SDL_CreateCond] and [SDL_CreateMutex] return, and [container] is what
    libavformat will make of the byte source. *)
Definition media_open (rwops_ name c l : addr) (container : AVFormatContext)
  : MediaState :=
  {| cond := c; lock := l; rwops := rwops_; filename := name;
     started := false; ready := false; needs_decode := false; quit := false;
     skip := 0%float;
     audio_finished := false; video_finished := false;
     video_stream := 0; audio_stream := 0;
     ctx := container;
     video_context := NULL; audio_context := NULL;
     video_packet_queue := []; audio_packet_queue := [];
     audio_queue := empty_frame_queue;
     audio_queue_samples := 0; audio_queue_target_seconds := 2;
     audio_decode_frame := NULL;
     audio_out_frame := NULL; audio_out_index := 0;
     swr := NULL;
     audio_duration := 0; audio_read_samples := 0;
     video_decode_frame := NULL;
     video_pkt := zero_packet; video_pkt_tmp := zero_packet |}.

(** [void media_start_end(MediaState *ms, double start, double end)] *)
Definition media_start_end (audio_sample_rate : Z) (ms : MediaState)
    (start end_ : double) : option MediaState :=
  let ms := set_skip start ms in
  if negb (end_ =? 0)%float then
    n ← int_of_double ((end_ - start) * double_of_Z audio_sample_rate)%float;
    Some (set_audio_duration (uint_wrap n) ms)
  else Some ms.

(** [void media_start(MediaState *ms)]; [t] is what [SDL_CreateThread]
    returned ([NULL] when no thread could be created). *)
Definition media_start (t : addr) (ms : MediaState)
  : MediaState * list event :=
  if negb (t =? NULL) then
    (set_started true ms, [EvCreateThread; EvDetachThread])
  else (ms, []).

(** [void media_close(MediaState *ms)]: the heap, the state ([None] once it
    has been freed) and the calls made. *)
Definition media_close (h : heap) (ms : MediaState)
  : outcome (heap * option MediaState * list event) :=
  if negb (started ms) then
    match deallocate h ms with
    | Returns h' => Returns (h', None, [EvDeallocate])
    | Undefined => Undefined
    | Blocked => Blocked
    | OutOfFuel => OutOfFuel
    end
  else
    Returns (h, Some (set_quit true ms), [EvLock; EvBroadcast; EvUnlock]).

(** ** Decode thread: [decode_thread] (lines 535-646) *)

(** Lines 557-572: the first video and the first audio stream. *)
Fixpoint select_streams (l : list AVMediaType) (i : Z) (ms : MediaState)
  : MediaState :=
  match l with
  | [] => ms
  | t :: l' =>
      let ms1 :=
        match t with
        | AVMEDIA_TYPE_VIDEO =>
            if video_stream ms =? -1 then set_video_stream i ms else ms
        | _ => ms
        end in
      let ms2 :=
        match t with
        | AVMEDIA_TYPE_AUDIO =>
            if audio_stream ms1 =? -1 then set_audio_stream i ms1 else ms1
        | _ => ms1
        end in
      select_streams l' (i + 1) ms2
  end.

(** [find_context] (lines 340-371): no context for stream -1; otherwise
    [codec_ctx] is what libavcodec came up with ([NULL] on failure). *)
Definition find_context (codec_ctx : addr) (index : Z) : addr :=
  if index =? -1 then NULL else codec_ctx.

(** Lines 579-591: the number of samples to play back. *)
Definition infer_audio_duration (audio_sample_rate : Z) (ms : MediaState)
  : MediaState :=
  match duration_estimation_method (ctx ms) with
  | AVFMT_DURATION_FROM_BITRATE => ms
  | _ =>
      let duration_ := llong_wrap (duration (ctx ms) * audio_sample_rate) in
      let ms1 :=
        set_audio_duration (uint_wrap (Z.quot duration_ AV_TIME_BASE)) ms in
      if (audio_duration ms1 <? 0)
         || (audio_duration ms1 >? uint_wrap (int_wrap (3600 * audio_sample_rate)))
      then set_audio_duration 0 ms1
      else ms1
  end.

(** What the libraries answer during setup: the results of
    [avformat_open_input] and [avformat_find_stream_info], the codec contexts
    and the resampler, and the container's input after [av_seek_frame]. *)
Record setup_oracle := mkSetupOracle {
  open_err : Z;
  info_err : Z;
  video_codec_ctx : addr;
  audio_codec_ctx : addr;
  swr_ctx : addr;
  seek_input : list read_result
}.

(** Lines 540-595: [true] when control reaches the steady-state loop,
    [false] when it jumps to [finish]. *)
Definition decode_thread_setup (audio_sample_rate : Z) (o : setup_oracle)
    (ms : MediaState) : bool * MediaState :=
  if negb (open_err o =? 0) then (false, ms)
  else if negb (info_err o =? 0) then (false, ms)
  else
    let ms1 := set_audio_stream (-1) (set_video_stream (-1) ms) in
    let ms2 := select_streams (streams (ctx ms1)) 0 ms1 in
    let ms3 :=
      set_video_context (find_context (video_codec_ctx o) (video_stream ms2))
        ms2 in
    let ms4 :=
      set_audio_context (find_context (audio_codec_ctx o) (audio_stream ms3))
        ms3 in
    let ms5 := set_swr (swr_ctx o) ms4 in
    let ms6 := infer_audio_duration audio_sample_rate ms5 in
    let ms7 :=
      if negb (skip ms6 =? 0)%float
      then set_ctx (set_input (seek_input o) (ctx ms6)) ms6
      else ms6 in
    (true, ms7).

(** Lines 609-612 and 632-635. *)
Definition announce_ready (ms : MediaState) : MediaState * list event :=
  if negb (ready ms) then (set_ready true ms, [EvAssignReady; EvBroadcast])
  else (ms, []).

(** Two states with the same lifecycle flags.  [decode_audio] and
    [decode_video] (lines 378-532) assign none of the four; what else they
    change is left open in the steps below. *)
Definition same_flags (ms ms' : MediaState) : Prop :=
  started ms' = started ms /\ ready ms' = ready ms /\
  needs_decode ms' = needs_decode ms /\ quit ms' = quit ms.

(** Where the decode thread stands. *)
Inductive location :=
  | AtSetup        (* line 540 *)
  | AtLoopTest     (* line 597 *)
  | AtDecode       (* lines 599-605 *)
  | AtLoopWait     (* line 615, inside SDL_CondWait *)
  | AtFinish       (* line 624 *)
  | AtFinishWait   (* lines 637-639 *)
  | Exited.        (* line 645 *)

Record config := mkConfig {
  at_ : location;
  mem : heap;
  st : MediaState;
  trace : list event
}.

(** One step of the system made of the decode thread and its caller.  The
    mutex makes each locked region one step; the caller's steps are the
    modelled API functions themselves, taken while the decode thread does
    not hold the lock. *)
Inductive step (audio_sample_rate : Z) : config -> config -> Prop :=
  | step_setup c o ok ms' :
      at_ c = AtSetup ->
      decode_thread_setup audio_sample_rate o (st c) = (ok, ms') ->
      step audio_sample_rate c
        {| at_ := if ok then AtLoopTest else AtFinish;
           mem := mem c; st := ms'; trace := trace c |}
  | step_loop_test c :
      at_ c = AtLoopTest ->
      step audio_sample_rate c
        {| at_ := if quit (st c) then AtFinish else AtDecode;
           mem := mem c; st := st c; trace := trace c |}
  | step_decode_progress c h' ms' :
      at_ c = AtDecode ->
      same_flags (st c) ms' ->
      step audio_sample_rate c
        {| at_ := AtDecode; mem := h'; st := ms'; trace := trace c |}
  | step_loop_locked c ms' evs :
      at_ c = AtDecode ->
      announce_ready (st c) = (ms', evs) ->
      step audio_sample_rate c
        (if needs_decode ms' || quit ms' then
           {| at_ := AtLoopTest; mem := mem c;
              st := set_needs_decode false ms';
              trace := trace c ++ [EvLock] ++ evs ++ [EvUnlock] |}
         else
           {| at_ := AtLoopWait; mem := mem c; st := ms';
              trace := trace c ++ [EvLock] ++ evs ++ [EvWait] |})
  | step_loop_wake c :
      at_ c = AtLoopWait ->
      step audio_sample_rate c
        {| at_ := AtLoopTest; mem := mem c;
           st := set_needs_decode false (st c);
           trace := trace c ++ [EvUnlock] |}
  | step_finish c ms' evs :
      at_ c = AtFinish ->
      announce_ready (st c) = (ms', evs) ->
      step audio_sample_rate c
        {| at_ := AtFinishWait; mem := mem c; st := ms';
           trace := trace c ++ [EvLock] ++ evs |}
  | step_finish_wait c :
      at_ c = AtFinishWait ->
      quit (st c) = false ->
      step audio_sample_rate c
        {| at_ := AtFinishWait; mem := mem c; st := st c;
           trace := trace c ++ [EvWait] |}
  | step_exit c h' :
      at_ c = AtFinishWait ->
      quit (st c) = true ->
      deallocate (mem c) (st c) = Returns h' ->
      step audio_sample_rate c
        {| at_ := Exited; mem := h'; st := st c;
           trace := trace c ++ [EvUnlock; EvDeallocate] |}
  | step_caller_close c h' ms' evs :
      at_ c <> Exited ->
      media_close (mem c) (st c) = Returns (h', Some ms', evs) ->
      step audio_sample_rate c
        {| at_ := at_ c; mem := h'; st := ms'; trace := trace c ++ evs |}
  | step_caller_read c len h' ms' stream rv evs :
      at_ c <> Exited ->
      media_read_audio (mem c) (st c) len = Returns (h', ms', stream, rv, evs) ->
      step audio_sample_rate c
        {| at_ := at_ c; mem := h'; st := ms'; trace := trace c ++ evs |}.

(** The decode thread has just been spawned on a handle that was never
    ready. *)
Definition initial (c : config) : Prop :=
  at_ c = AtSetup /\ ready (st c) = false /\ trace c = [].

Definition reachable (audio_sample_rate : Z) (c : config) : Prop :=
  exists c0, initial c0 /\ rtc (step audio_sample_rate) c0 c.

(** ** Predicates the properties are stated with *)

(** Total sample count of the frames [l]. *)
Definition queued_samples (h : heap) (l : list addr) : Z :=
  foldr (fun a acc =>
           match h !! a with
           | Some f => nb_samples f + acc
           | None => acc
           end) 0 l.

(** The part of [audio_out_frame] not yet consumed, in samples. *)
Definition out_frame_remainder (h : heap) (ms : MediaState) : Z :=
  if audio_out_frame ms =? NULL then 0
  else
    match h !! audio_out_frame ms with
    | Some f => nb_samples f - Z.quot (audio_out_index ms) BPS
    | None => 0
    end.

(** Queue accounting: [audio_queue_samples] counts the queued frames and
    the remainder of the frame being drained. *)
Definition queue_accounting (h : heap) (ms : MediaState) : Prop :=
  exists l,
    fq_rep h (audio_queue ms) l /\
    audio_queue_samples ms = queued_samples h l + out_frame_remainder h ms.

(** A frame as the resampler leaves it: [nb_samples] samples of [BPS] bytes
    in plane 0, and a byte count that fits an [int]. *)
Definition frame_ok (f : AVFrame) : Prop :=
  0 <= nb_samples f /\ nb_samples f * BPS <= INT_MAX /\
  Z.of_nat (length (data0 f)) = nb_samples f * BPS.

(** The PCM path is well formed: the queue is a proper list of live frames,
    the frame being drained (if any) is live, is not also queued, and its
    index lies inside it. *)
Definition pcm_ok (h : heap) (ms : MediaState) (l : list addr) : Prop :=
  fq_rep h (audio_queue ms) l /\
  map_Forall (fun _ f => frame_ok f) h /\
  (audio_out_frame ms <> NULL ->
   (audio_out_frame ms ∉ l) /\
   (exists f, h !! audio_out_frame ms = Some f /\
              0 <= audio_out_index ms <= nb_samples f * BPS)).

(** *** What [read_packet] is to deliver

    The stream a packet queue belongs to. *)
Definition target_stream (pq : packet_queue_ref) (ms : MediaState) : Z :=
  match pq with
  | AUDIO_PACKET_QUEUE => audio_stream ms
  | VIDEO_PACKET_QUEUE => video_stream ms
  end.

(** The packets the container delivers before its first packet of stream
    [s] or its first failure, and what is left from there on. *)
Fixpoint leading_packets (s : Z) (rs : list read_result)
  : list AVPacket * list read_result :=
  match rs with
  | ReadPacket p :: rs' =>
      if stream_index p =? s then ([], rs)
      else let '(pre, rest) := leading_packets s rs' in (p :: pre, rest)
  | _ => ([], rs)
  end.

(** The state once the packets [pre] have been read and routed (those of the
    audio stream to the back of the audio queue, those of the video stream
    to the back of the video queue, the others dropped) and the container is
    left with [rest]. *)
Definition routed (pre : list AVPacket) (rest : list read_result)
    (ms : MediaState) : MediaState :=
  set_ctx (set_input rest (ctx ms))
    (set_audio_packet_queue
       (audio_packet_queue ms
        ++ filter (fun p => stream_index p = audio_stream ms) pre)
       (set_video_packet_queue
          (video_packet_queue ms
           ++ filter (fun p => stream_index p = video_stream ms) pre)
          ms)).

(** *** The skip policy as the specification words it

    The three things that can happen to a resampled frame. *)
Definition frame_enqueued (h : heap) (ms : MediaState) (frame : addr)
    (r : option (heap * MediaState)) : Prop :=
  exists f h' q',
    h !! frame = Some f /\
    enqueue_frame h (audio_queue ms) frame = Some (h', q') /\
    r = Some (h', set_audio_queue q'
                    (set_audio_queue_samples
                       (int_wrap (audio_queue_samples ms + nb_samples f)) ms)).

Definition frame_discarded (h : heap) (ms : MediaState) (frame : addr)
    (r : option (heap * MediaState)) : Prop :=
  r = Some (av_frame_free h frame, ms).

Definition frame_installed (h : heap) (ms : MediaState) (frame : addr)
    (index : Z) (r : option (heap * MediaState)) : Prop :=
  r = Some (h, set_audio_out_index index (set_audio_out_frame frame ms)).

(** [start] and [end] of lines 437-438. *)
Definition frame_start (pts : Z) (timebase : double) : double :=
  (double_of_Z pts * timebase)%float.

Definition frame_end (audio_sample_rate : Z) (pts : Z) (timebase : double)
    (f : AVFrame) : double :=
  (frame_start pts timebase
   + 1.0 * double_of_Z (nb_samples f) / double_of_Z audio_sample_rate)%float.

(** The specification's wording for one frame: enqueue when [start >= skip],
    else discard when [end <= skip], else install the frame at the byte
    offset of [skip]. *)
Definition skip_policy_as_specified (audio_sample_rate : Z) (h : heap)
    (ms : MediaState) (pts : Z) (timebase : double) (frame : addr) : Prop :=
  forall f, h !! frame = Some f ->
    let start := frame_start pts timebase in
    let end_ := frame_end audio_sample_rate pts timebase f in
    let r :=
      decode_audio_skip_policy audio_sample_rate h ms pts timebase frame in
    ((skip ms <=? start)%float = true -> frame_enqueued h ms frame r) /\
    ((skip ms <=? start)%float = false -> (end_ <=? skip ms)%float = true ->
     frame_discarded h ms frame r) /\
    ((skip ms <=? start)%float = false -> (end_ <=? skip ms)%float = false ->
     forall n,
       int_of_double
         ((skip ms - start) * double_of_Z audio_sample_rate)%float = Some n ->
       frame_installed h ms frame (int_wrap (BPS * n)) r).

(** *** Traces of the ready protocol *)

(** [ms->ready = 1] happens exactly once in the trace, with the broadcast
    right behind it. *)
Definition ready_announced_once (t : list event) : Prop :=
  exists t1 t2,
    t = t1 ++ EvAssignReady :: EvBroadcast :: t2 /\
    (EvAssignReady ∉ t1) /\ (EvAssignReady ∉ t2).

(** Read from its start, the trace has no [SDL_CondWait] of the decode
    thread before the assignment of [ready]. *)
Fixpoint no_wait_before_ready (t : list event) : Prop :=
  match t with
  | [] => True
  | EvAssignReady :: _ => True
  | EvWait :: _ => False
  | _ :: t' => no_wait_before_ready t'
  end.

(** What holds of every configuration the system can reach: the trace
    shows the assignment of [ready] exactly once, followed at once by the
    broadcast, as soon as [ready] is true, and not at all before; the decode
    thread never waits before that; [ready] is still false during setup and
    is true wherever the decode thread waits for [quit] or has exited. *)
Definition ready_invariant (c : config) : Prop :=
  (if ready (st c) then ready_announced_once (trace c)
   else EvAssignReady ∉ trace c) /\
  no_wait_before_ready (trace c) /\
  (at_ c = AtSetup -> ready (st c) = false) /\
  (at_ c = AtLoopWait \/ at_ c = AtFinishWait \/ at_ c = Exited ->
   ready (st c) = true).

(** *** Frame conditions of the lifecycle functions

    Every field but [quit], respectively [started], is what it was. *)
Definition unchanged_but_quit (ms ms' : MediaState) : Prop :=
  cond ms' = cond ms /\ lock ms' = lock ms /\ rwops ms' = rwops ms /\
  filename ms' = filename ms /\ started ms' = started ms /\
  ready ms' = ready ms /\ needs_decode ms' = needs_decode ms /\
  skip ms' = skip ms /\ audio_finished ms' = audio_finished ms /\
  video_finished ms' = video_finished ms /\
  video_stream ms' = video_stream ms /\ audio_stream ms' = audio_stream ms /\
  ctx ms' = ctx ms /\ video_context ms' = video_context ms /\
  audio_context ms' = audio_context ms /\
  video_packet_queue ms' = video_packet_queue ms /\
  audio_packet_queue ms' = audio_packet_queue ms /\
  audio_queue ms' = audio_queue ms /\
  audio_queue_samples ms' = audio_queue_samples ms /\
  audio_queue_target_seconds ms' = audio_queue_target_seconds ms /\
  audio_decode_frame ms' = audio_decode_frame ms /\
  audio_out_frame ms' = audio_out_frame ms /\
  audio_out_index ms' = audio_out_index ms /\ swr ms' = swr ms /\
  audio_duration ms' = audio_duration ms /\
  audio_read_samples ms' = audio_read_samples ms /\
  video_decode_frame ms' = video_decode_frame ms /\
  video_pkt ms' = video_pkt ms /\ video_pkt_tmp ms' = video_pkt_tmp ms.

Definition unchanged_but_started (ms ms' : MediaState) : Prop :=
  cond ms' = cond ms /\ lock ms' = lock ms /\ rwops ms' = rwops ms /\
  filename ms' = filename ms /\ ready ms' = ready ms /\
  needs_decode ms' = needs_decode ms /\ quit ms' = quit ms /\
  skip ms' = skip ms /\ audio_finished ms' = audio_finished ms /\
  video_finished ms' = video_finished ms /\
  video_stream ms' = video_stream ms /\ audio_stream ms' = audio_stream ms /\
  ctx ms' = ctx ms /\ video_context ms' = video_context ms /\
  audio_context ms' = audio_context ms /\
  video_packet_queue ms' = video_packet_queue ms /\
  audio_packet_queue ms' = audio_packet_queue ms /\
  audio_queue ms' = audio_queue ms /\
  audio_queue_samples ms' = audio_queue_samples ms /\
  audio_queue_target_seconds ms' = audio_queue_target_seconds ms /\
  audio_decode_frame ms' = audio_decode_frame ms /\
  audio_out_frame ms' = audio_out_frame ms /\
  audio_out_index ms' = audio_out_index ms /\ swr ms' = swr ms /\
  audio_duration ms' = audio_duration ms /\
  audio_read_samples ms' = audio_read_samples ms /\
  video_decode_frame ms' = video_decode_frame ms /\
  video_pkt ms' = video_pkt ms /\ video_pkt_tmp ms' = video_pkt_tmp ms.

(** The frames [deallocate] frees: the two decode frames, the frame being
    drained and the queued frames [l]. *)
Definition frames_of (ms : MediaState) (l : list addr) : list addr :=
  video_decode_frame ms :: audio_decode_frame ms :: audio_out_frame ms :: l.

(** The frames of a handle are kept apart: none of the single frames is also
    in the queue. *)
Definition frames_apart (h : heap) (ms : MediaState) (l : list addr) : Prop :=
  fq_rep h (audio_queue ms) l /\
  (video_decode_frame ms ∉ l) /\ (audio_decode_frame ms ∉ l) /\
  (audio_out_frame ms ∉ l).

(** *** Stream selection

    The selected indices are -1 or point at a stream of the right type in
    the stream list [L]. *)
Definition selection_ok (L : list AVMediaType) (ms : MediaState) : Prop :=
  (video_stream ms = -1 \/
   0 <= video_stream ms /\
   L !! Z.to_nat (video_stream ms) = Some AVMEDIA_TYPE_VIDEO) /\
  (audio_stream ms = -1 \/
   0 <= audio_stream ms /\
   L !! Z.to_nat (audio_stream ms) = Some AVMEDIA_TYPE_AUDIO).

(** * The rest of the decode pipeline

    ** More field updates *)

Definition set_audio_decode_frame (v : addr) (ms : MediaState) : MediaState :=
  {| cond := cond ms; lock := lock ms; rwops := rwops ms;
     filename := filename ms; started := started ms; ready := ready ms;
     needs_decode := needs_decode ms; quit := quit ms; skip := skip ms;
     audio_finished := audio_finished ms;
     video_finished := video_finished ms; video_stream := video_stream ms;
     audio_stream := audio_stream ms; ctx := ctx ms;
     video_context := video_context ms; audio_context := audio_context ms;
     video_packet_queue := video_packet_queue ms;
     audio_packet_queue := audio_packet_queue ms;
     audio_queue := audio_queue ms;
     audio_queue_samples := audio_queue_samples ms;
     audio_queue_target_seconds := audio_queue_target_seconds ms;
     audio_decode_frame := v; audio_out_frame := audio_out_frame ms;
     audio_out_index := audio_out_index ms; swr := swr ms;
     audio_duration := audio_duration ms;
     audio_read_samples := audio_read_samples ms;
     video_decode_frame := video_decode_frame ms; video_pkt := video_pkt ms;
     video_pkt_tmp := video_pkt_tmp ms |}.

Definition set_video_decode_frame (v : addr) (ms : MediaState) : MediaState :=
  {| cond := cond ms; lock := lock ms; rwops := rwops ms;
     filename := filename ms; started := started ms; ready := ready ms;
     needs_decode := needs_decode ms; quit := quit ms; skip := skip ms;
     audio_finished := audio_finished ms;
     video_finished := video_finished ms; video_stream := video_stream ms;
     audio_stream := audio_stream ms; ctx := ctx ms;
     video_context := video_context ms; audio_context := audio_context ms;
     video_packet_queue := video_packet_queue ms;
     audio_packet_queue := audio_packet_queue ms;
     audio_queue := audio_queue ms;
     audio_queue_samples := audio_queue_samples ms;
     audio_queue_target_seconds := audio_queue_target_seconds ms;
     audio_decode_frame := audio_decode_frame ms;
     audio_out_frame := audio_out_frame ms;
     audio_out_index := audio_out_index ms; swr := swr ms;
     audio_duration := audio_duration ms;
     audio_read_samples := audio_read_samples ms; video_decode_frame := v;
     video_pkt := video_pkt ms; video_pkt_tmp := video_pkt_tmp ms |}.

Definition set_video_pkt (v : AVPacket) (ms : MediaState) : MediaState :=
  {| cond := cond ms; lock := lock ms; rwops := rwops ms;
     filename := filename ms; started := started ms; ready := ready ms;
     needs_decode := needs_decode ms; quit := quit ms; skip := skip ms;
     audio_finished := audio_finished ms;
     video_finished := video_finished ms; video_stream := video_stream ms;
     audio_stream := audio_stream ms; ctx := ctx ms;
     video_context := video_context ms; audio_context := audio_context ms;
     video_packet_queue := video_packet_queue ms;
     audio_packet_queue := audio_packet_queue ms;
     audio_queue := audio_queue ms;
     audio_queue_samples := audio_queue_samples ms;
     audio_queue_target_seconds := audio_queue_target_seconds ms;
     audio_decode_frame := audio_decode_frame ms;
     audio_out_frame := audio_out_frame ms;
     audio_out_index := audio_out_index ms; swr := swr ms;
     audio_duration := audio_duration ms;
     audio_read_samples := audio_read_samples ms;
     video_decode_frame := video_decode_frame ms; video_pkt := v;
     video_pkt_tmp := video_pkt_tmp ms |}.

Definition set_video_pkt_tmp (v : AVPacket) (ms : MediaState) : MediaState :=
  {| cond := cond ms; lock := lock ms; rwops := rwops ms;
     filename := filename ms; started := started ms; ready := ready ms;
     needs_decode := needs_decode ms; quit := quit ms; skip := skip ms;
     audio_finished := audio_finished ms;
     video_finished := video_finished ms; video_stream := video_stream ms;
     audio_stream := audio_stream ms; ctx := ctx ms;
     video_context := video_context ms; audio_context := audio_context ms;
     video_packet_queue := video_packet_queue ms;
     audio_packet_queue := audio_packet_queue ms;
     audio_queue := audio_queue ms;
     audio_queue_samples := audio_queue_samples ms;
     audio_queue_target_seconds := audio_queue_target_seconds ms;
     audio_decode_frame := audio_decode_frame ms;
     audio_out_frame := audio_out_frame ms;
     audio_out_index := audio_out_index ms; swr := swr ms;
     audio_duration := audio_duration ms;
     audio_read_samples := audio_read_samples ms;
     video_decode_frame := video_decode_frame ms; video_pkt := video_pkt ms;
     video_pkt_tmp := v |}.

(** [av_free_packet(&pkt)]: the packet's data is released and the packet
    reset. *)
Definition av_free_packet (pkt : AVPacket) : AVPacket := zero_packet.

(** ** Audio decoder: [decode_audio] (lines 378-469)

    What libavcodec and libswresample answer in one turn of the [do] loop:
    the return value and [got_frame] of [avcodec_decode_audio4], the
    timestamp of the decoded frame, the address [av_frame_alloc] hands out
    for [converted_frame], and the frame [swr_convert_frame] fills there
    ([None] when it fails). *)
Record audio_decode_result := mkAudioDecodeResult {
  adr_read_size : Z;
  adr_got_frame : bool;
  adr_pts : Z;
  adr_converted : addr;
  adr_resampled : option AVFrame
}.

(** Lines 409-410. *)
Definition advance_packet (pkt_temp : AVPacket) (read_size : Z) : AVPacket :=
  {| pkt_data := pkt_data pkt_temp + read_size;
     pkt_size := int_wrap (pkt_size pkt_temp - read_size);
     stream_index := stream_index pkt_temp |}.

(** The test of the [while] loop of line 394. *)
Definition audio_queue_below_target (audio_sample_rate : Z) (ms : MediaState)
  : bool :=
  audio_queue_samples ms
  <? int_wrap (audio_queue_target_seconds ms * audio_sample_rate).

(** Lines 394-465, from inside the [do] loop: [pkt] is the packet being
    decoded and [pkt_temp] what is left of it.  Every turn of the [do] loop
    takes one answer from the codec; the model stops with [OutOfFuel] when
    the answers it was given run out. *)
Fixpoint decode_audio_loop (audio_sample_rate : Z) (timebase : double)
    (rs : list audio_decode_result) (h : heap) (ms : MediaState)
    (pkt pkt_temp : AVPacket) : outcome (heap * MediaState) :=
  match rs with
  | [] => OutOfFuel
  | r :: rs' =>
      (* lines 464 and 394-398: free the packet, test, read the next one *)
      let next_packet (h : heap) (ms : MediaState) :=
        if audio_queue_below_target audio_sample_rate ms then
          let '(_, ms1, pkt1) :=
            read_packet ms AUDIO_PACKET_QUEUE (av_free_packet pkt) in
          decode_audio_loop audio_sample_rate timebase rs' h ms1 pkt1 pkt1
        else Returns (h, ms) in
      (* line 462: [while (pkt_temp.size)] *)
      let again (h : heap) (ms : MediaState) (pkt_temp' : AVPacket) :=
        if negb (pkt_size pkt_temp' =? 0) then
          decode_audio_loop audio_sample_rate timebase rs' h ms pkt pkt_temp'
        else next_packet h ms in
      if adr_read_size r <? 0 then Returns (h, set_audio_finished true ms)
      else
        let pkt_temp' := advance_packet pkt_temp (adr_read_size r) in
        if negb (adr_got_frame r) then
          if pkt_data pkt =? NULL then Returns (h, set_audio_finished true ms)
          else next_packet h ms
        else
          match adr_resampled r with
          | None => again h ms pkt_temp'
          | Some f =>
              if (adr_converted r =? NULL)
                 || bool_decide (is_Some (h !! adr_converted r))
              then Undefined
              else
                match decode_audio_skip_policy audio_sample_rate
                        (<[adr_converted r := f]> h) ms (adr_pts r) timebase
                        (adr_converted r) with
                | None => Undefined
                | Some (h', ms') => again h' ms' pkt_temp'
                end
          end
  end.

(** [static void decode_audio(MediaState *ms)].  [decode_frame] is the
    address [av_frame_alloc] hands out should [audio_decode_frame] still be
    null, [pkt] the uninitialised local of line 379. *)
Definition decode_audio (audio_sample_rate : Z) (timebase : double)
    (decode_frame : addr) (rs : list audio_decode_result) (pkt : AVPacket)
    (h : heap) (ms : MediaState) : outcome (heap * MediaState) :=
  if audio_context ms =? NULL then Returns (h, set_audio_finished true ms)
  else
    let alloc :=
      if audio_decode_frame ms =? NULL then
        if (decode_frame =? NULL) || bool_decide (is_Some (h !! decode_frame))
        then None
        else Some (<[decode_frame := mkAVFrame 0 [] NULL]> h,
                   set_audio_decode_frame decode_frame ms)
      else Some (h, ms) in
    match alloc with
    | None => Undefined
    | Some (h1, ms1) =>
        if audio_queue_below_target audio_sample_rate ms1 then
          let '(_, ms2, pkt1) := read_packet ms1 AUDIO_PACKET_QUEUE pkt in
          decode_audio_loop audio_sample_rate timebase rs h1 ms2 pkt1 pkt1
        else Returns (h1, ms1)
    end.

(** ** Video decoder: [decode_video_frame] and [decode_video]
    (lines 471-532)

    One answer of [avcodec_decode_video2]: its return value and
    [got_frame]. *)
Record video_decode_result := mkVideoDecodeResult {
  vdr_read_size : Z;
  vdr_got_frame : bool
}.

(** Lines 475-479. *)
Definition refill_video_packet (ms : MediaState) : MediaState :=
  if pkt_size (video_pkt_tmp ms) =? 0 then
    let '(_, ms1, pkt1) :=
      read_packet ms VIDEO_PACKET_QUEUE (av_free_packet (video_pkt ms)) in
    set_video_pkt_tmp pkt1 (set_video_pkt pkt1 ms1)
  else ms.

(** [static SurfaceQueueEntry *decode_video_frame(MediaState *ms)]: the state
    afterwards and the codec answers not yet used (the function returns
    [NULL] on every path). *)
Fixpoint decode_video_frame (rs : list video_decode_result) (ms : MediaState)
  : outcome (MediaState * list video_decode_result) :=
  match rs with
  | [] => OutOfFuel
  | r :: rs' =>
      let ms1 := refill_video_packet ms in
      if vdr_read_size r <? 0 then Returns (set_video_finished true ms1, rs')
      else
        let ms2 :=
          set_video_pkt_tmp
            (advance_packet (video_pkt_tmp ms1) (vdr_read_size r)) ms1 in
        if vdr_got_frame r then Returns (ms2, rs')
        else if pkt_size (video_pkt ms2) =? 0 then
          Returns (set_video_finished true ms2, rs')
        else decode_video_frame rs' ms2
  end.

(** Lines 528-530: [while (!ms->video_finished) decode_video_frame(ms)].
    Each call uses up at least one codec answer, so [fuel] need not exceed
    their number. *)
Fixpoint decode_video_loop (fuel : nat) (rs : list video_decode_result)
    (ms : MediaState) : outcome MediaState :=
  if video_finished ms then Returns ms
  else
    match fuel with
    | O => OutOfFuel
    | S fuel' =>
        match decode_video_frame rs ms with
        | Returns (ms', rs') => decode_video_loop fuel' rs' ms'
        | Undefined => Undefined
        | Blocked => Blocked
        | OutOfFuel => OutOfFuel
        end
    end.

(** [static void decode_video(MediaState *ms)] *)
Definition decode_video (decode_frame : addr) (rs : list video_decode_result)
    (h : heap) (ms : MediaState) : outcome (heap * MediaState) :=
  if video_context ms =? NULL then Returns (h, set_video_finished true ms)
  else
    let alloc :=
      if video_decode_frame ms =? NULL then
        if (decode_frame =? NULL) || bool_decide (is_Some (h !! decode_frame))
        then None
        else Some (<[decode_frame := mkAVFrame 0 [] NULL]> h,
                   set_video_decode_frame decode_frame ms)
      else Some (h, ms) in
    match alloc with
    | None => Undefined
    | Some (h1, ms1) =>
        match decode_video_loop (length rs) rs ms1 with
        | Returns ms2 => Returns (h1, ms2)
        | Undefined => Undefined
        | Blocked => Blocked
        | OutOfFuel => OutOfFuel
        end
    end.

(** ** What the demuxer and the decoders leave alone

    The fields other than those a function may assign, as one tuple: two
    states agree on it exactly when each of these fields is the same in
    both. *)

(** [read_packet] assigns only [ctx] (through [av_read_frame]) and the two
    packet queues. *)
Definition outside_demux (ms : MediaState) :=
  (cond ms, lock ms, rwops ms, filename ms, started ms, ready ms,
   needs_decode ms, quit ms, skip ms, audio_finished ms, video_finished ms,
   video_stream ms, audio_stream ms, video_context ms, audio_context ms,
   audio_queue ms, audio_queue_samples ms, audio_queue_target_seconds ms,
   audio_decode_frame ms, audio_out_frame ms, audio_out_index ms, swr ms,
   audio_duration ms, audio_read_samples ms, video_decode_frame ms,
   video_pkt ms, video_pkt_tmp ms).

(** [decode_audio] assigns, besides those, [audio_finished],
    [audio_decode_frame] and the PCM path. *)
Definition outside_decode_audio (ms : MediaState) :=
  (cond ms, lock ms, rwops ms, filename ms, started ms, ready ms,
   needs_decode ms, quit ms, skip ms, video_finished ms, video_stream ms,
   audio_stream ms, video_context ms, audio_context ms,
   audio_queue_target_seconds ms, swr ms, audio_duration ms,
   audio_read_samples ms, video_decode_frame ms, video_pkt ms,
   video_pkt_tmp ms).

(** [decode_video] assigns, besides those of [read_packet],
    [video_finished], [video_decode_frame] and the two video packets. *)
Definition outside_decode_video (ms : MediaState) :=
  (cond ms, lock ms, rwops ms, filename ms, started ms, ready ms,
   needs_decode ms, quit ms, skip ms, audio_finished ms, video_stream ms,
   audio_stream ms, video_context ms, audio_context ms, audio_queue ms,
   audio_queue_samples ms, audio_queue_target_seconds ms,
   audio_decode_frame ms, audio_out_frame ms, audio_out_index ms, swr ms,
   audio_duration ms, audio_read_samples ms).

(** The queue [read_packet] was not asked for. *)
Definition other_queue (pq : packet_queue_ref) : packet_queue_ref :=
  match pq with
  | AUDIO_PACKET_QUEUE => VIDEO_PACKET_QUEUE
  | VIDEO_PACKET_QUEUE => AUDIO_PACKET_QUEUE
  end.

(** ** More predicates *)

(** The bytes of a frame's plane. *)
Definition frame_bytes (h : heap) (a : addr) : list Z :=
  match h !! a with
  | Some f => data0 f
  | None => []
  end.

(** The PCM stream still to be delivered: what is left of the frame being
    drained, then the queued frames, oldest first. *)
Definition pending_bytes (h : heap) (ms : MediaState) (l : list addr)
  : list Z :=
  (if audio_out_frame ms =? NULL then []
   else drop (Z.to_nat (audio_out_index ms))
          (frame_bytes h (audio_out_frame ms)))
  ++ concat (map (frame_bytes h) l).

(** Each packet queue holds packets of its own stream only. *)
Definition queues_pure (ms : MediaState) : Prop :=
  Forall (fun p => stream_index p = audio_stream ms) (audio_packet_queue ms) /\
  Forall (fun p => stream_index p = video_stream ms) (video_packet_queue ms).

(** Every frame the heap [h] holds is still in [h'], with the same samples. *)
Definition frames_kept (h h' : heap) : Prop :=
  forall a f, h !! a = Some f ->
    exists f', h' !! a = Some f' /\
               nb_samples f' = nb_samples f /\ data0 f' = data0 f.

(** What the video decoder keeps in one step: the purity of the packet
    queues, the fields outside its reach, and the audio packets queued so
    far. *)
Definition video_step_keeps (ms ms' : MediaState) : Prop :=
  (queues_pure ms -> queues_pure ms') /\
  outside_decode_video ms' = outside_decode_video ms /\
  exists extra, audio_packet_queue ms' = audio_packet_queue ms ++ extra.

(** ** Example data *)

(** A resampled frame of [n] silent samples, not linked anywhere. *)
Definition pcm_frame (n : Z) : AVFrame :=
  {| nb_samples := n; data0 := replicate (Z.to_nat (n * BPS)) 0;
     opaque := NULL |}.

(** Two frames of 1024 samples at addresses 4096 and 8192. *)
Definition two_frames : heap :=
  <[8192 := pcm_frame 1024]> (<[4096 := pcm_frame 1024]> ∅).

(** A container with a video stream 0 and an audio stream 1 that still has
    packets of streams 0, 2, 0, 1 and 0 to deliver. *)
Definition example_container : AVFormatContext :=
  {| streams := [AVMEDIA_TYPE_VIDEO; AVMEDIA_TYPE_AUDIO; AVMEDIA_TYPE_OTHER];
     duration := 2000000;
     duration_estimation_method := AVFMT_DURATION_FROM_STREAM;
     input := [ReadPacket (mkAVPacket 16 100 0); ReadPacket (mkAVPacket 32 10 2);
               ReadPacket (mkAVPacket 48 120 0); ReadPacket (mkAVPacket 64 40 1);
               ReadPacket (mkAVPacket 80 90 0)] |}.

(** A freshly opened handle on that container. *)
Definition example_state : MediaState :=
  media_open 1 2 3 4 example_container.

(** The example handle after a successful setup: video stream 0, audio
    stream 1. *)
Definition example_oracle : setup_oracle :=
  {| open_err := 0; info_err := 0; video_codec_ctx := 5; audio_codec_ctx := 6;
     swr_ctx := 7; seek_input := [] |}.

Definition example_playing : MediaState :=
  snd (decode_thread_setup 44100 example_oracle example_state).

(** The two frames queued (4096 first), on a handle that is ready. *)
Definition queued_heap : heap :=
  <[8192 := pcm_frame 1024]> (<[4096 := set_opaque (pcm_frame 1024) 8192]> ∅).

Definition queued_state : MediaState :=
  set_audio_queue_samples 2048
    (set_audio_queue {| fq_first := 4096; fq_last := 8192 |}
       (set_ready true example_playing)).

(** A frame of 1500 samples, 1/32 s at 48000 Hz, fresh from the resampler,
    and a handle asked to skip exactly that 1/32 s. *)
Definition thirty_second : heap := <[4096 := pcm_frame 1500]> ∅.

Definition skip_thirty_second : MediaState :=
  set_skip 0.03125%float example_playing.

(** A frame of 1024 samples, and a handle asked to skip 1/128 s, which ends
    inside that frame. *)
Definition one_frame : heap := <[4096 := pcm_frame 1024]> ∅.

Definition skip_inside : MediaState :=
  set_skip 0.0078125%float example_playing.

(** A container whose duration is a little over 27 hours. *)
Definition long_container : AVFormatContext :=
  {| streams := [AVMEDIA_TYPE_AUDIO];
     duration := 97392000000;
     duration_estimation_method := AVFMT_DURATION_FROM_STREAM;
     input := [] |}.

(** The decode thread just spawned on the example handle, an oracle that
    makes [avformat_open_input] fail, and the configuration two steps later,
    where the thread waits for [quit]. *)
Definition spawned : config :=
  {| at_ := AtSetup; mem := ∅; st := set_started true example_state;
     trace := [] |}.

Definition failing_oracle : setup_oracle :=
  {| open_err := -2; info_err := 0; video_codec_ctx := NULL;
     audio_codec_ctx := NULL; swr_ctx := NULL; seek_input := [] |}.

Definition waiting_for_quit : config :=
  {| at_ := AtFinishWait; mem := ∅;
     st := set_ready true (set_started true example_state);
     trace := [EvLock; EvAssignReady; EvBroadcast] |}.

(** * Properties *)

(** ** The frame queue is a FIFO *)

Section FrameQueueFifo.

Implicit Types (h : heap) (fq : FrameQueue) (l : list addr) (a p : addr).

Lemma chain_in_live h p l a :
  chain h p l -> a ∈ l -> a <> NULL /\ is_Some (h !! a).
Proof.
  revert p. induction l as [|b l IH]; intros p Hc Hin.
  - inversion Hin.
  - simpl in Hc. destruct Hc as (-> & Hb & Hc).
    destruct (h !! b) as [f|] eqn:Hf; [|contradiction].
    apply elem_of_cons in Hin as [->|Hin].
    + split; [assumption|]. rewrite Hf. eauto.
    + eapply IH; eassumption.
Qed.

(** Writing or freeing a frame outside the queue leaves the chain alone. *)
Lemma chain_insert_other h p l a f :
  (a ∉ l) -> chain h p l -> chain (<[a := f]> h) p l.
Proof.
  revert p. induction l as [|b l IH]; intros p Hn Hc; [exact Hc|].
  simpl in *. destruct Hc as (-> & Hb & Hc).
  apply not_elem_of_cons in Hn as [Hab Hn].
  repeat split; [assumption|].
  rewrite lookup_insert_ne by congruence.
  destruct (h !! b); [|contradiction]. apply IH; assumption.
Qed.

Lemma chain_delete_other h p l a :
  (a ∉ l) -> chain h p l -> chain (delete a h) p l.
Proof.
  revert p. induction l as [|b l IH]; intros p Hn Hc; [exact Hc|].
  simpl in *. destruct Hc as (-> & Hb & Hc).
  apply not_elem_of_cons in Hn as [Hab Hn].
  repeat split; [assumption|].
  rewrite lookup_delete_ne by congruence.
  destruct (h !! b); [|contradiction]. apply IH; assumption.
Qed.

Lemma fq_rep_delete_other h fq l a :
  (a ∉ l) -> fq_rep h fq l -> fq_rep (delete a h) fq l.
Proof.
  intros Ha (Hc & Hnd & Hl). split; [|split]; try assumption.
  apply chain_delete_other; assumption.
Qed.

(** A chain that starts at [NULL] is empty, and conversely. *)
Lemma chain_null h l : chain h NULL l -> l = [].
Proof. destruct l as [|b l]; [reflexivity|]. simpl. intros (<- & Hb & _). congruence. Qed.

Lemma chain_first_null h p l : chain h p l -> (p = NULL <-> l = []).
Proof.
  intros Hc. split.
  - intros ->. eapply chain_null; eassumption.
  - intros ->. exact Hc.
Qed.

Lemma last_cons_cons (b c : addr) l d : List.last (b :: c :: l) d = List.last (c :: l) d.
Proof. reflexivity. Qed.

Lemma last_in l b d : List.last (b :: l) d ∈ b :: l.
Proof.
  revert b. induction l as [|c l IH]; intros b.
  - simpl. apply list_elem_of_here.
  - rewrite last_cons_cons. apply list_elem_of_further, IH.
Qed.

(** Linking a fresh, null-terminated frame behind the last one extends the
    chain by that frame. *)
Lemma chain_snoc h p l b frame fl ff :
  chain h p (b :: l) -> NoDup (b :: l) -> (frame ∉ b :: l) -> frame <> NULL ->
  h !! frame = Some ff -> opaque ff = NULL ->
  h !! List.last (b :: l) NULL = Some fl ->
  chain (<[List.last (b :: l) NULL := set_opaque fl frame]> h) p
        ((b :: l) ++ [frame]).
Proof.
  revert p b. induction l as [|c l IH]; intros p b Hc Hnd Hfresh Hnn Hff Hop Hl.
  - simpl in *. destruct Hc as (-> & Hb & Hc).
    apply not_elem_of_cons in Hfresh as [Hne _].
    repeat split; try assumption.
    rewrite lookup_insert_eq. simpl. repeat split; try assumption.
    rewrite lookup_insert_ne by congruence. rewrite Hff. exact Hop.
  - rewrite last_cons_cons in *.
    change (chain h p (b :: c :: l)) with
      (p = b /\ b <> NULL /\
       match h !! b with Some f => chain h (opaque f) (c :: l) | None => False end) in Hc.
    destruct Hc as (-> & Hb & Hc).
    apply NoDup_cons in Hnd as [Hbn Hnd].
    apply not_elem_of_cons in Hfresh as [Hne Hfresh].
    change (chain ?h' b ((b :: c :: l) ++ [frame])) with
      (b = b /\ b <> NULL /\
       match h' !! b with
       | Some f => chain h' (opaque f) ((c :: l) ++ [frame])
       | None => False
       end).
    repeat split; try assumption.
    assert (List.last (c :: l) NULL <> b) as Hlb.
    { intros E. apply Hbn. rewrite <- E. apply last_in. }
    rewrite lookup_insert_ne by assumption.
    destruct (h !! b) as [fb|]; [|contradiction].
    apply IH; assumption.
Qed.

(** The frames' payload is what it was: the queue only writes [opaque]. *)
Definition same_payload h h' : Prop :=
  forall a, match h !! a, h' !! a with
            | Some f, Some f' =>
                nb_samples f' = nb_samples f /\ data0 f' = data0 f
            | None, None => True
            | _, _ => False
            end.

Lemma same_payload_refl h : same_payload h h.
Proof. intros a. destruct (h !! a); auto. Qed.

Lemma same_payload_trans h1 h2 h3 :
  same_payload h1 h2 -> same_payload h2 h3 -> same_payload h1 h3.
Proof.
  intros H12 H23 a. specialize (H12 a). specialize (H23 a).
  destruct (h1 !! a), (h2 !! a), (h3 !! a); try tauto.
  destruct H12, H23. split; congruence.
Qed.

Lemma same_payload_store h a f q :
  h !! a = Some f -> same_payload h (<[a := set_opaque f q]> h).
Proof.
  intros Hf b. destruct (decide (a = b)) as [->|Hne].
  - rewrite Hf, lookup_insert_eq. auto.
  - rewrite lookup_insert_ne by assumption. destruct (h !! b); auto.
Qed.

(** [enqueue_frame] appends at the back. *)
Lemma enqueue_frame_rep h fq l frame :
  fq_rep h fq l -> (frame ∉ l) -> frame <> NULL -> is_Some (h !! frame) ->
  exists h' fq',
    enqueue_frame h fq frame = Some (h', fq') /\
    fq_rep h' fq' (l ++ [frame]) /\ same_payload h h'.
Proof.
  intros (Hc & Hnd & Hlast) Hfresh Hnn [ff Hff].
  unfold enqueue_frame, store_opaque. rewrite Hff. simpl.
  pose proof (same_payload_store h frame ff NULL Hff) as Hp1.
  destruct l as [|b l].
  - simpl in Hc. rewrite Hc. simpl.
    eexists _, _. split; [reflexivity|]. split; [|exact Hp1].
    repeat split; simpl; try assumption.
    + rewrite lookup_insert_eq. reflexivity.
    + apply NoDup_singleton.
  - assert (fq_first fq = b /\ b <> NULL) as [Hfb Hb].
    { simpl in Hc. tauto. }
    assert ((fq_first fq =? NULL) = false) as -> by (apply Z.eqb_neq; congruence).
    simpl.
    assert (fq_last fq ∈ b :: l) as Hin by (rewrite Hlast; apply last_in).
    assert (fq_last fq <> frame) as Hlf by (intros E; rewrite E in Hin; contradiction).
    destruct (chain_in_live _ _ _ _ Hc Hin) as [_ [fl Hfl]].
    rewrite lookup_insert_ne by congruence. rewrite Hfl. simpl.
    eexists _, _. split; [reflexivity|]. split.
    + unfold fq_rep. cbn [fq_first fq_last]. split; [|split].
      * rewrite Hlast, Hfb.
        eapply chain_snoc with (ff := set_opaque ff NULL); try eassumption.
        -- apply chain_insert_other; [assumption|]. rewrite Hfb in Hc. exact Hc.
        -- apply lookup_insert_eq.
        -- reflexivity.
        -- rewrite lookup_insert_ne by congruence. rewrite <- Hlast. exact Hfl.
      * apply (NoDup_app (b :: l) [frame]). repeat split; [assumption| |apply NoDup_singleton].
        intros x Hx Hx'. apply list_elem_of_singleton in Hx'. subst. contradiction.
      * symmetry. apply (last_last (b :: l) frame NULL).
    + eapply same_payload_trans; [exact Hp1|].
      apply same_payload_store. rewrite lookup_insert_ne by congruence. exact Hfl.
Qed.

(** [dequeue_frame] removes at the front and leaves the heap alone. *)
Lemma dequeue_frame_rep h fq a l :
  fq_rep h fq (a :: l) ->
  exists fq', dequeue_frame h fq = Some (a, fq') /\ fq_rep h fq' l.
Proof.
  intros (Hc & Hnd & Hlast). simpl in Hc. destruct Hc as (Hfa & Ha & Hc).
  unfold dequeue_frame. rewrite Hfa.
  assert ((a =? NULL) = false) as -> by (apply Z.eqb_neq; assumption).
  destruct (h !! a) as [f|]; [|contradiction]. simpl.
  apply NoDup_cons in Hnd as [_ Hnd].
  destruct (opaque f =? NULL) eqn:E.
  - apply Z.eqb_eq in E. rewrite E in Hc. apply chain_null in Hc. subst l.
    eexists. split; [rewrite E; reflexivity|].
    repeat split; simpl; auto.
  - eexists. split; [reflexivity|]. repeat split; simpl; try assumption.
    destruct l as [|b l].
    + simpl in Hc. apply Z.eqb_neq in E. contradiction.
    + rewrite Hlast. reflexivity.
Qed.

Lemma dequeue_frame_empty h fq :
  fq_first fq = NULL -> dequeue_frame h fq = Some (NULL, fq).
Proof. intros E. unfold dequeue_frame. rewrite E. reflexivity. Qed.

Lemma fq_rep_nil h fq : fq_rep h fq [] -> fq = empty_frame_queue.
Proof. intros (Hc & _ & Hl). destruct fq; simpl in *. subst. reflexivity. Qed.

Lemma fq_rep_empty h : fq_rep h empty_frame_queue [].
Proof. repeat split. apply NoDup_nil_2. Qed.

End FrameQueueFifo.

Section FrameQueueRuns.

Implicit Types (h : heap) (fq : FrameQueue) (l fs : list addr).

Lemma same_payload_live h h' a :
  same_payload h h' -> is_Some (h !! a) -> is_Some (h' !! a).
Proof.
  intros Hp [f Hf]. specialize (Hp a). rewrite Hf in Hp.
  destruct (h' !! a); [eauto|contradiction].
Qed.

Lemma enqueue_frames_rep h fq l fs :
  fq_rep h fq l -> NoDup fs ->
  Forall (fun a => (a ∉ l) /\ a <> NULL /\ is_Some (h !! a)) fs ->
  exists h' fq',
    enqueue_frames h fq fs = Some (h', fq') /\
    fq_rep h' fq' (l ++ fs) /\ same_payload h h'.
Proof.
  revert h fq l. induction fs as [|a fs IH]; intros h fq l Hrep Hnd Hall.
  - exists h, fq. rewrite app_nil_r. auto using same_payload_refl.
  - apply NoDup_cons in Hnd as [Ha Hnd].
    apply Forall_cons in Hall as [(Hal & Hnn & Hlive) Hall].
    destruct (enqueue_frame_rep h fq l a Hrep Hal Hnn Hlive)
      as (h1 & fq1 & He & Hrep1 & Hp1).
    destruct (IH h1 fq1 (l ++ [a]) Hrep1 Hnd) as (h2 & fq2 & He2 & Hrep2 & Hp2).
    { rewrite Forall_forall in Hall. apply Forall_forall. intros b Hb.
      destruct (Hall b Hb) as (Hbl & Hbn & Hbs).
      split; [|split; [assumption|eapply same_payload_live; eassumption]].
      intros Hin. apply elem_of_app in Hin as [Hin|Hin]; [contradiction|].
      apply list_elem_of_singleton in Hin. subst. contradiction. }
    exists h2, fq2. simpl. rewrite He. split; [exact He2|].
    rewrite <- app_assoc in Hrep2. split; [exact Hrep2|].
    eapply same_payload_trans; eassumption.
Qed.

Lemma dequeue_frames_empty h k :
  dequeue_frames h empty_frame_queue k
  = Some (replicate k NULL, empty_frame_queue).
Proof.
  induction k as [|k IH]; [reflexivity|].
  simpl. rewrite IH. reflexivity.
Qed.

Lemma dequeue_frames_rep h fq l k :
  fq_rep h fq l ->
  dequeue_frames h fq (length l + k)
  = Some (l ++ replicate k NULL, empty_frame_queue).
Proof.
  revert fq. induction l as [|a l IH]; intros fq Hrep.
  - apply fq_rep_nil in Hrep. subst. apply dequeue_frames_empty.
  - destruct (dequeue_frame_rep h fq a l Hrep) as (fq' & Hd & Hrep').
    change (dequeue_frames h fq (length (a :: l) + k))
      with (dequeue_frames h fq (S (length l + k))).
    cbn [dequeue_frames]. rewrite Hd, (IH fq' Hrep'). reflexivity.
Qed.

End FrameQueueRuns.

(** C9. The frame queue is a strict FIFO: enqueueing any list [fs] of
    distinct live frames on the empty queue succeeds, touches no frame's
    payload, and the following [dequeue_frame] calls return exactly [fs] in
    enqueue order and leave the queue empty; every further call on the then
    empty queue returns [NULL] and leaves the queue as it is. *)
Theorem frame_queue_fifo (h : heap) (fs : list addr) (k : nat) :
  NoDup fs ->
  Forall (fun a => a <> NULL /\ is_Some (h !! a)) fs ->
  exists h' fq',
    enqueue_frames h empty_frame_queue fs = Some (h', fq') /\
    same_payload h h' /\
    dequeue_frames h' fq' (length fs) = Some (fs, empty_frame_queue) /\
    dequeue_frames h' fq' (length fs + k)
    = Some (fs ++ replicate k NULL, empty_frame_queue) /\
    dequeue_frame h' empty_frame_queue = Some (NULL, empty_frame_queue).
Proof.
  intros Hnd Hall.
  destruct (enqueue_frames_rep h empty_frame_queue [] fs (fq_rep_empty h) Hnd)
    as (h' & fq' & He & Hrep & Hp).
  { eapply Forall_impl; [exact Hall|]. intros a [Hn Hl].
    split; [|split]; try assumption. apply not_elem_of_nil. }
  exists h', fq'. simpl in Hrep. repeat split; try assumption.
  - pose proof (dequeue_frames_rep h' fq' fs 0 Hrep) as Hd.
    rewrite Nat.add_0_r in Hd. simpl in Hd. rewrite app_nil_r in Hd. exact Hd.
  - apply dequeue_frames_rep. exact Hrep.
Qed.

Lemma frame_queue_fifo_witness :
  exists h' fq',
    enqueue_frames two_frames empty_frame_queue [4096; 8192] = Some (h', fq') /\
    same_payload two_frames h' /\
    dequeue_frames h' fq' 2 = Some ([4096; 8192], empty_frame_queue) /\
    dequeue_frames h' fq' 3 = Some ([4096; 8192; NULL], empty_frame_queue) /\
    dequeue_frame h' empty_frame_queue = Some (NULL, empty_frame_queue).
Proof.
  apply (frame_queue_fifo two_frames [4096; 8192] 1).
  - apply (bool_decide_unpack _). vm_compute. exact I.
  - apply (bool_decide_unpack _). vm_compute. exact I.
Defined.

(** ** The demuxer/router *)

Section ReadPacket.

Implicit Types (ms : MediaState) (pq : packet_queue_ref) (pkt p : AVPacket).

Lemma set_input_same (c : AVFormatContext) : set_input (input c) c = c.
Proof. destruct c; reflexivity. Qed.

Lemma routed_nil ms : routed [] (input (ctx ms)) ms = ms.
Proof.
  unfold routed. rewrite set_input_same.
  rewrite !filter_nil, !app_nil_r. destruct ms; reflexivity.
Qed.

Lemma routed_nil_rest rest ms :
  routed [] rest ms = set_ctx (set_input rest (ctx ms)) ms.
Proof.
  unfold routed. rewrite !filter_nil, !app_nil_r. destruct ms; reflexivity.
Qed.

(** Reading one more packet first and routing it is routing a list that
    starts with it. *)
Lemma routed_cons p pre rest rest0 ms :
  audio_stream ms <> video_stream ms ->
  routed pre rest (route_packet p (set_ctx (set_input rest0 (ctx ms)) ms))
  = routed (p :: pre) rest ms.
Proof.
  intros Hne. unfold routed, route_packet, enqueue_packet.
  cbn [video_stream audio_stream set_ctx].
  rewrite !filter_cons.
  destruct (Z.eqb_spec (stream_index p) (video_stream ms)) as [Ev|Ev].
  - destruct (decide (stream_index p = audio_stream ms)) as [Ea|Ea];
      [congruence|].
    destruct (decide (stream_index p = video_stream ms)); [|contradiction].
    cbn. rewrite <- app_assoc. reflexivity.
  - destruct (decide (stream_index p = video_stream ms)); [contradiction|].
    destruct (Z.eqb_spec (stream_index p) (audio_stream ms)) as [Ea|Ea].
    + destruct (decide (stream_index p = audio_stream ms)); [|contradiction].
      cbn. rewrite <- app_assoc. reflexivity.
    + destruct (decide (stream_index p = audio_stream ms)); [contradiction|].
      cbn. reflexivity.
Qed.

Lemma route_packet_streams p ms :
  audio_stream (route_packet p ms) = audio_stream ms /\
  video_stream (route_packet p ms) = video_stream ms /\
  ctx (route_packet p ms) = ctx ms.
Proof.
  unfold route_packet.
  destruct (stream_index p =? video_stream ms); [auto|].
  destruct (stream_index p =? audio_stream ms); auto.
Qed.

(** A packet of another stream leaves the target queue as it is. *)
Lemma route_packet_other pq p ms :
  stream_index p <> target_stream pq ms ->
  packet_queue_at pq (route_packet p ms) = packet_queue_at pq ms.
Proof.
  intros Hne. unfold route_packet.
  destruct (Z.eqb_spec (stream_index p) (video_stream ms)) as [Ev|Ev].
  - destruct pq; [reflexivity|]. simpl in Hne. contradiction.
  - destruct (Z.eqb_spec (stream_index p) (audio_stream ms)) as [Ea|Ea].
    + destruct pq; [|reflexivity]. simpl in Hne. contradiction.
    + reflexivity.
Qed.

(** A packet of the target stream lands at the back of the target queue. *)
Lemma route_packet_target pq p ms :
  audio_stream ms <> video_stream ms ->
  stream_index p = target_stream pq ms ->
  route_packet p ms
  = set_packet_queue_at pq (packet_queue_at pq ms ++ [p]) ms.
Proof.
  intros Hne Ht. unfold route_packet, enqueue_packet.
  destruct pq; simpl in *.
  - destruct (Z.eqb_spec (stream_index p) (video_stream ms)); [congruence|].
    destruct (Z.eqb_spec (stream_index p) (audio_stream ms)); [|contradiction].
    reflexivity.
  - destruct (Z.eqb_spec (stream_index p) (video_stream ms)); [|contradiction].
    reflexivity.
Qed.

Lemma packet_queue_at_set pq q ms :
  packet_queue_at pq (set_packet_queue_at pq q ms) = q.
Proof. destruct pq; reflexivity. Qed.

Lemma set_packet_queue_at_restore pq q q' ms :
  packet_queue_at pq ms = q ->
  set_packet_queue_at pq q (set_packet_queue_at pq q' ms) = ms.
Proof. intros <-. destruct pq, ms; reflexivity. Qed.

(** With the wanted packet at the back of an otherwise empty target queue,
    the next turn of the loop hands it out. *)
Lemma read_packet_loop_hit rs ms pq pkt p :
  packet_queue_at pq ms = [] ->
  read_packet_loop rs (set_packet_queue_at pq ([] ++ [p]) ms) pq pkt
  = (1, ms, p).
Proof.
  intros Hq.
  destruct rs as [|r rs]; cbn [read_packet_loop];
    rewrite packet_queue_at_set; cbn;
    rewrite (set_packet_queue_at_restore pq [] [p] ms Hq); reflexivity.
Qed.

Lemma read_packet_loop_empty rs : forall ms pq pkt,
  audio_stream ms <> video_stream ms ->
  packet_queue_at pq ms = [] ->
  input (ctx ms) = rs ->
  read_packet_loop rs ms pq pkt =
    let '(pre, rest) := leading_packets (target_stream pq ms) rs in
    match rest with
    | ReadPacket p :: rest' => (1, routed pre rest' ms, p)
    | ReadFailure :: rest' => (0, routed pre rest' ms, empty_packet pkt)
    | [] => (0, routed pre [] ms, empty_packet pkt)
    end.
Proof.
  induction rs as [|r rs IH]; intros ms pq pkt Hne Hq Hin.
  - simpl. rewrite Hq. simpl. rewrite <- Hin, routed_nil. reflexivity.
  - destruct r as [p|].
    + cbn [read_packet_loop leading_packets]. rewrite Hq. cbn [dequeue_packet].
      cbn [Z.eqb negb].
      set (ms0 := set_ctx (set_input rs (ctx ms)) ms).
      assert (packet_queue_at pq ms0 = []) as Hq0 by (destruct pq; exact Hq).
      destruct (Z.eqb_spec (stream_index p) (target_stream pq ms)) as [Et|Et].
      * (* the packet the caller is waiting for *)
        rewrite (route_packet_target pq p ms0) by (destruct pq; assumption).
        rewrite Hq0, (read_packet_loop_hit rs ms0 pq pkt p Hq0).
        rewrite routed_nil_rest. reflexivity.
      * (* a packet of another stream: route it and go on *)
        destruct (route_packet_streams p ms0) as (Ha & Hv & Hc).
        rewrite IH.
        -- assert (target_stream pq (route_packet p ms0) = target_stream pq ms)
             as -> by (destruct pq; simpl; rewrite ?Ha, ?Hv; reflexivity).
           destruct (leading_packets (target_stream pq ms) rs) as [pre rest].
           subst ms0.
           destruct rest as [|[q|] rest']; rewrite routed_cons by assumption;
             reflexivity.
        -- rewrite Ha, Hv. exact Hne.
        -- rewrite route_packet_other; [exact Hq0|].
           destruct pq; exact Et.
        -- rewrite Hc. reflexivity.
    + cbn [read_packet_loop leading_packets]. rewrite Hq. cbn.
      rewrite routed_nil_rest. reflexivity.
Qed.

End ReadPacket.

Lemma leading_packets_spec s rs :
  let '(pre, rest) := leading_packets s rs in
  rs = map ReadPacket pre ++ rest /\
  Forall (fun p => stream_index p <> s) pre /\
  match rest with
  | ReadPacket p :: _ => stream_index p = s
  | _ => True
  end.
Proof.
  induction rs as [|[p|] rs IH]; cbn [leading_packets].
  - repeat split. constructor.
  - destruct (Z.eqb_spec (stream_index p) s) as [E|E].
    + repeat split; [constructor|assumption].
    + destruct (leading_packets s rs) as [pre rest].
      destruct IH as (-> & Hall & Hrest).
      repeat split; [constructor; assumption|assumption].
  - repeat split. constructor.
Qed.

(** C4. [read_packet] on a non-empty target queue returns 1 with the packet
    at its front and reads nothing.  On an empty target queue it reads the
    container up to its first packet of the target stream or its first
    failure (end of file included): the packets read before that point are
    routed, in order, to the audio queue when they belong to the audio
    stream, to the video queue when they belong to the video stream, and are
    dropped otherwise; it then returns 1 with the target stream's packet, or
    0 with the empty packet ([data = NULL], [size = 0]) when the container
    failed. *)
Theorem read_packet_delivers (ms : MediaState) (pq : packet_queue_ref)
    (pkt : AVPacket) :
  audio_stream ms <> video_stream ms ->
  match packet_queue_at pq ms with
  | p :: q => read_packet ms pq pkt = (1, set_packet_queue_at pq q ms, p)
  | [] =>
      let '(pre, rest) :=
        leading_packets (target_stream pq ms) (input (ctx ms)) in
      input (ctx ms) = map ReadPacket pre ++ rest /\
      Forall (fun p => stream_index p <> target_stream pq ms) pre /\
      match rest with
      | ReadPacket p :: rest' =>
          stream_index p = target_stream pq ms /\
          read_packet ms pq pkt = (1, routed pre rest' ms, p)
      | ReadFailure :: rest' =>
          read_packet ms pq pkt
          = (0, routed pre rest' ms,
             {| pkt_data := NULL; pkt_size := 0;
                stream_index := stream_index pkt |})
      | [] =>
          read_packet ms pq pkt
          = (0, routed pre [] ms,
             {| pkt_data := NULL; pkt_size := 0;
                stream_index := stream_index pkt |})
      end
  end.
Proof.
  intros Hne. destruct (packet_queue_at pq ms) as [|p q] eqn:Hq.
  - pose proof (read_packet_loop_empty (input (ctx ms)) ms pq pkt Hne Hq eq_refl)
      as Hloop.
    pose proof (leading_packets_spec (target_stream pq ms) (input (ctx ms)))
      as Hspec.
    unfold read_packet.
    destruct (leading_packets (target_stream pq ms) (input (ctx ms)))
      as [pre rest].
    destruct Hspec as (Hin & Hall & Hrest).
    split; [exact Hin|]. split; [exact Hall|].
    destruct rest as [|[p|] rest']; auto.
  - unfold read_packet.
    destruct (input (ctx ms)); cbn [read_packet_loop]; rewrite Hq; reflexivity.
Qed.

Lemma read_packet_delivers_witness :
  audio_stream example_playing <> video_stream example_playing /\
  read_packet example_playing AUDIO_PACKET_QUEUE zero_packet
  = (1,
     routed [mkAVPacket 16 100 0; mkAVPacket 32 10 2; mkAVPacket 48 120 0]
       [ReadPacket (mkAVPacket 80 90 0)] example_playing,
     mkAVPacket 64 40 1).
Proof.
  assert (audio_stream example_playing <> video_stream example_playing) as H
    by (vm_compute; discriminate).
  split; [exact H|].
  exact (proj2 (proj2 (proj2
    (read_packet_delivers example_playing AUDIO_PACKET_QUEUE zero_packet H)))).
Defined.

(** On the example, the audio packet at address 64 is returned and the two
    video packets read on the way wait in the video queue. *)
Example read_packet_example :
  let '(rv, ms', pkt') :=
    read_packet example_playing AUDIO_PACKET_QUEUE zero_packet in
  rv = 1 /\ pkt' = mkAVPacket 64 40 1 /\
  video_packet_queue ms' = [mkAVPacket 16 100 0; mkAVPacket 48 120 0] /\
  audio_packet_queue ms' = [] /\
  input (ctx ms') = [ReadPacket (mkAVPacket 80 90 0)].
Proof. vm_compute. repeat split. Qed.

(** ** Sample counts of queued frames *)

Section QueuedSamples.

Implicit Types (h : heap) (ms : MediaState) (l : list addr).

Lemma queued_samples_app h l1 l2 :
  queued_samples h (l1 ++ l2) = queued_samples h l1 + queued_samples h l2.
Proof.
  induction l1 as [|a l1 IH]; [reflexivity|].
  cbn [app queued_samples foldr]. fold (queued_samples h (l1 ++ l2)).
  fold (queued_samples h l1). rewrite IH. destruct (h !! a); lia.
Qed.

Lemma queued_samples_same_payload h h' l :
  same_payload h h' -> queued_samples h' l = queued_samples h l.
Proof.
  intros Hp. induction l as [|a l IH]; [reflexivity|].
  cbn [queued_samples foldr]. fold (queued_samples h l).
  fold (queued_samples h' l). rewrite IH. specialize (Hp a).
  destruct (h !! a), (h' !! a); try contradiction; [|reflexivity].
  destruct Hp as [-> _]. reflexivity.
Qed.

Lemma queued_samples_delete h l a :
  (a ∉ l) -> queued_samples (delete a h) l = queued_samples h l.
Proof.
  induction l as [|b l IH]; intros Ha; [reflexivity|].
  apply not_elem_of_cons in Ha as [Hab Ha].
  cbn [queued_samples foldr]. fold (queued_samples h l).
  fold (queued_samples (delete a h) l).
  rewrite IH by exact Ha. rewrite lookup_delete_ne by congruence. reflexivity.
Qed.

Lemma queued_samples_nonneg h l :
  map_Forall (fun _ f => frame_ok f) h -> 0 <= queued_samples h l.
Proof.
  intros Hall. induction l as [|a l IH]; [cbn; lia|].
  cbn [queued_samples foldr]. fold (queued_samples h l).
  destruct (h !! a) as [f|] eqn:Hf; [|exact IH].
  destruct (Hall a f Hf) as (Hnb & _). lia.
Qed.

Lemma out_frame_remainder_same_payload h h' ms :
  same_payload h h' -> out_frame_remainder h' ms = out_frame_remainder h ms.
Proof.
  intros Hp. unfold out_frame_remainder.
  destruct (audio_out_frame ms =? NULL); [reflexivity|].
  specialize (Hp (audio_out_frame ms)).
  destruct (h !! audio_out_frame ms), (h' !! audio_out_frame ms);
    try contradiction; [|reflexivity].
  destruct Hp as [-> _]. reflexivity.
Qed.

End QueuedSamples.

(** ** The pull API *)

Section ReadAudio.

Implicit Types (h : heap) (ms : MediaState) (l : list addr).

Lemma int_wrap_small z : INT_MIN <= z <= INT_MAX -> int_wrap z = z.
Proof.
  unfold INT_MIN, INT_MAX, int_wrap. intros Hz.
  rewrite Z.mod_small; lia.
Qed.

Lemma same_flags_refl ms : same_flags ms ms.
Proof. repeat split. Qed.

Lemma same_flags_trans ms1 ms2 ms3 :
  same_flags ms1 ms2 -> same_flags ms2 ms3 -> same_flags ms1 ms3.
Proof.
  unfold same_flags. intros (?&?&?&?) (?&?&?&?). repeat split; congruence.
Qed.

Lemma read_audio_loop_zero fuel h ms stream rv :
  read_audio_loop fuel h ms stream 0 rv = Returns (h, ms, stream, rv).
Proof. destruct fuel; reflexivity. Qed.

Lemma memcpy_from_length data idx count bytes :
  memcpy_from data idx count = Some bytes ->
  Z.of_nat (length bytes) = count.
Proof.
  unfold memcpy_from. intros H.
  destruct (0 <=? idx) eqn:E1; [|discriminate].
  destruct (0 <=? count) eqn:E2; [|discriminate].
  destruct (idx + count <=? Z.of_nat (length data)) eqn:E3; [|discriminate].
  cbn in H. injection H as <-.
  rewrite length_take, length_drop. lia.
Qed.

Lemma memcpy_from_in_range data idx count :
  0 <= idx -> 0 <= count -> idx + count <= Z.of_nat (length data) ->
  exists bytes, memcpy_from data idx count = Some bytes.
Proof.
  intros H1 H2 H3. unfold memcpy_from.
  apply Z.leb_le in H1, H2, H3. rewrite H1, H2, H3. eauto.
Qed.

(** Fetching the next frame keeps the PCM path well formed, and moves the
    frame's samples from the queued part of the account to the part being
    drained. *)
Lemma fetch_out_frame_ok h ms l :
  pcm_ok h ms l ->
  exists ms1 l1,
    fetch_out_frame h ms = Some ms1 /\ pcm_ok h ms1 l1 /\ same_flags ms ms1 /\
    (audio_out_frame ms1 = NULL -> l1 = []) /\
    queued_samples h l1 + out_frame_remainder h ms1
    = queued_samples h l + out_frame_remainder h ms /\
    audio_queue_samples ms1 = audio_queue_samples ms /\
    (audio_out_index ms mod BPS = 0 -> audio_out_index ms1 mod BPS = 0).
Proof.
  intros (Hrep & Hall & Hout). unfold fetch_out_frame.
  destruct (Z.eqb_spec (audio_out_frame ms) NULL) as [E|E].
  - destruct l as [|a l].
    + pose proof (fq_rep_nil _ _ Hrep) as Hq.
      rewrite dequeue_frame_empty by (rewrite Hq; reflexivity). cbn.
      eexists _, []. split; [reflexivity|].
      split; [|split; [repeat split|split; [reflexivity|]]].
      * split; [exact Hrep|]. split; [exact Hall|].
        cbn. intros Hn. exfalso. apply Hn. reflexivity.
      * unfold out_frame_remainder. cbn. rewrite E. cbn. auto.
    + destruct (dequeue_frame_rep h _ a l Hrep) as (fq' & Hd & Hrep').
      rewrite Hd. cbn.
      eexists _, l. split; [reflexivity|].
      destruct Hrep as (Hc & Hnd & _).
      assert (a ∈ a :: l) as Hin by apply list_elem_of_here.
      destruct (chain_in_live _ _ _ _ Hc Hin) as (Hann & f & Hf).
      apply NoDup_cons in Hnd as [Hal _].
      split; [|split; [repeat split|split; [|split; [|split]]]].
      * split; [exact Hrep'|]. split; [exact Hall|]. cbn. intros _.
        split; [exact Hal|]. exists f. split; [exact Hf|].
        pose proof (Hall a f Hf) as (Hnb & _). cbv beta in Hnb.
        unfold BPS. lia.
      * cbn. intros Hn. contradiction.
      * unfold out_frame_remainder. cbn [audio_out_frame audio_out_index
          set_audio_out_index set_audio_out_frame set_audio_queue].
        rewrite E. cbn [Z.eqb NULL].
        assert ((a =? NULL) = false) as -> by (apply Z.eqb_neq; exact Hann).
        cbn [queued_samples foldr]. fold (queued_samples h l).
        rewrite Hf. change (Z.quot 0 BPS) with 0. lia.
      * reflexivity.
      * intros _. reflexivity.
  - exists ms, l. split; [reflexivity|].
    split; [|split; [apply same_flags_refl|split; [intros Hn; contradiction|]]].
    + split; [exact Hrep|]. split; [exact Hall|exact Hout].
    + auto.
Qed.

(** One pass over the current frame copies between 0 and [len] bytes and
    either uses up [len] or frees the frame; for a pull and an index that
    are whole samples it takes the copied samples off the account. *)
Lemma drain_out_frame_ok h ms l f len :
  pcm_ok h ms l -> audio_out_frame ms <> NULL ->
  h !! audio_out_frame ms = Some f -> 0 < len ->
  exists h' ms' bytes count,
    drain_out_frame h ms f len = Some (h', ms', bytes, count) /\
    pcm_ok h' ms' l /\ same_flags ms ms' /\
    0 <= count <= len /\ Z.of_nat (length bytes) = count /\
    (count = len \/ (size h' < size h)%nat) /\ (size h' <= size h)%nat /\
    audio_queue_samples ms'
    = int_wrap (audio_queue_samples ms - Z.quot count BPS) /\
    0 <= out_frame_remainder h' ms' /\
    (len mod BPS = 0 -> audio_out_index ms mod BPS = 0 ->
     count mod BPS = 0 /\ audio_out_index ms' mod BPS = 0 /\
     queued_samples h' l + out_frame_remainder h' ms'
     = queued_samples h l + out_frame_remainder h ms - Z.quot count BPS).
Proof.
  intros (Hrep & Hall & Hout) Hnn Hf Hlen.
  destruct (Hout Hnn) as (Hnin & f0 & Hf0 & Hidx).
  assert (f0 = f) as -> by congruence.
  destruct (Hall _ _ Hf) as (Hnb & Hmax & Hdata).
  unfold drain_out_frame.
  assert (INT_MIN <= 0) as Hmin by (unfold INT_MIN; lia).
  rewrite (int_wrap_small (nb_samples f * BPS)) by lia.
  rewrite (int_wrap_small (nb_samples f * BPS - audio_out_index ms)) by lia.
  set (avail := nb_samples f * BPS - audio_out_index ms).
  set (count := if len >? avail then avail else len).
  assert (0 <= count <= len /\ count <= avail /\ (count < avail -> count = len)
          /\ (len mod BPS = 0 -> audio_out_index ms mod BPS = 0 ->
              count mod BPS = 0))
    as (Hc1 & Hc2 & Hc3 & Hc4).
  { subst count. destruct (Z.gtb_spec len avail); subst avail;
      (repeat split; try lia); intros Hl Hi; try exact Hl;
      unfold BPS in *; Z.div_mod_to_equations; lia. }
  destruct (memcpy_from_in_range (data0 f) (audio_out_index ms) count)
    as [bytes Hcopy]; [lia|lia|subst avail; lia|].
  rewrite Hcopy. cbn [mbind option_bind].
  cbn [audio_out_index audio_out_frame set_audio_out_index
       set_audio_read_samples set_audio_queue_samples].
  rewrite (int_wrap_small (audio_out_index ms + count)) by (subst avail; lia).
  rewrite Z.geb_leb.
  pose proof (memcpy_from_length _ _ _ _ Hcopy) as Hbytes.
  assert (out_frame_remainder h ms
          = nb_samples f - Z.quot (audio_out_index ms) BPS) as Hrem.
  { unfold out_frame_remainder.
    assert ((audio_out_frame ms =? NULL) = false) as ->
      by (apply Z.eqb_neq; exact Hnn).
    rewrite Hf. reflexivity. }
  destruct (Z.leb_spec (nb_samples f * BPS) (audio_out_index ms + count))
    as [Hfull|Hpart].
  - (* the frame is used up: free it *)
    eexists _, _, bytes, count. split; [reflexivity|].
    split; [|split; [repeat split|]].
    + split; [|split].
      * apply fq_rep_delete_other; assumption.
      * apply map_Forall_delete. exact Hall.
      * cbn. intros Hn. exfalso. apply Hn. reflexivity.
    + split; [exact Hc1|]. split; [exact Hbytes|].
      unfold av_frame_free.
      rewrite map_size_delete_Some by (rewrite Hf; eauto).
      assert (size h <> 0)%nat.
      { intros Hz. apply map_size_empty_inv in Hz. subst h.
        rewrite lookup_empty in Hf. discriminate. }
      split; [right; lia|]. split; [lia|]. split; [reflexivity|].
      match goal with
      | |- 0 <= out_frame_remainder ?h' ?m' /\ _ =>
          assert (out_frame_remainder h' m' = 0) as -> by reflexivity
      end.
      split; [lia|]. intros Hl Hi. specialize (Hc4 Hl Hi).
      split; [exact Hc4|]. split; [reflexivity|].
      rewrite queued_samples_delete by exact Hnin. rewrite Hrem.
      rewrite !Z.quot_div_nonneg by (unfold BPS; lia).
      subst avail. unfold BPS in *. Z.div_mod_to_equations. lia.
  - (* part of the frame is left: [len] is used up *)
    eexists _, _, bytes, count. split; [reflexivity|].
    split; [|split; [repeat split|]].
    + split; [exact Hrep|]. split; [exact Hall|]. cbn. intros _.
      split; [exact Hnin|]. exists f. split; [exact Hf|]. lia.
    + split; [exact Hc1|]. split; [exact Hbytes|].
      split; [left; apply Hc3; subst avail; lia|]. split; [lia|].
      split; [reflexivity|].
      match goal with
      | |- 0 <= out_frame_remainder ?h' ?m' /\ _ =>
          assert (out_frame_remainder h' m'
                  = nb_samples f - Z.quot (audio_out_index ms + count) BPS)
            as ->
      end.
      { unfold out_frame_remainder. cbn [audio_out_frame audio_out_index
          set_audio_queue_samples set_audio_read_samples set_audio_out_index].
        assert ((audio_out_frame ms =? NULL) = false) as ->
          by (apply Z.eqb_neq; exact Hnn).
        rewrite Hf. reflexivity. }
      split.
      * rewrite Z.quot_div_nonneg by (unfold BPS; lia).
        unfold BPS in *. Z.div_mod_to_equations. lia.
      * intros Hl Hi. specialize (Hc4 Hl Hi). split; [exact Hc4|].
        split; [cbn; unfold BPS in *; Z.div_mod_to_equations; lia|].
        rewrite Hrem. rewrite !Z.quot_div_nonneg by (unfold BPS; lia).
        unfold BPS in *. Z.div_mod_to_equations. lia.
Qed.

(** The fill loop returns, with between 0 and [len] more bytes. *)
Lemma read_audio_loop_ok fuel : forall h ms l stream len rv,
  pcm_ok h ms l -> 0 <= len -> 0 <= rv -> rv + len <= INT_MAX ->
  (size h < fuel)%nat ->
  exists h' ms' l' stream' rv',
    read_audio_loop fuel h ms stream len rv = Returns (h', ms', stream', rv') /\
    pcm_ok h' ms' l' /\ same_flags ms ms' /\
    rv <= rv' <= rv + len /\
    Z.of_nat (length stream') = Z.of_nat (length stream) + (rv' - rv).
Proof.
  induction fuel as [|fuel IH]; intros h ms l stream len rv Hok Hlen Hrv Hmax Hfuel;
    [lia|].
  cbn [read_audio_loop].
  destruct (Z.eqb_spec len 0) as [->|Hne].
  { exists h, ms, l, stream, rv. split; [reflexivity|].
    split; [exact Hok|]. split; [apply same_flags_refl|]. lia. }
  destruct (fetch_out_frame_ok h ms l Hok)
    as (ms1 & l1 & Hfetch & Hok1 & Hfl1 & _).
  rewrite Hfetch.
  destruct (Z.eqb_spec (audio_out_frame ms1) NULL) as [E|E].
  { exists h, ms1, l1, stream, rv. split; [reflexivity|].
    split; [exact Hok1|]. split; [exact Hfl1|]. lia. }
  destruct Hok1 as (Hrep1 & Hall1 & Hout1).
  destruct (Hout1 E) as (_ & f & Hf & _). rewrite Hf.
  destruct (drain_out_frame_ok h ms1 l1 f len (conj Hrep1 (conj Hall1 Hout1))
              E Hf ltac:(lia))
    as (h' & ms2 & bytes & count & Hdrain & Hok2 & Hfl2 & Hcount & Hbytes
        & Hprog & Hsize & _).
  rewrite Hdrain.
  assert (INT_MIN <= 0) as Hmin by (unfold INT_MIN; lia).
  rewrite (int_wrap_small (len - count)), (int_wrap_small (rv + count)) by lia.
  destruct Hprog as [->|Hless].
  - rewrite Z.sub_diag, read_audio_loop_zero.
    eexists _, _, l1, _, _. split; [reflexivity|].
    split; [exact Hok2|].
    split; [eapply same_flags_trans; eassumption|].
    rewrite length_app. lia.
  - destruct (IH h' ms2 l1 (stream ++ bytes) (len - count) (rv + count) Hok2)
      as (h'' & ms3 & l3 & stream' & rv' & Hloop & Hok3 & Hfl3 & Hrv' & Hstream');
      try lia.
    exists h'', ms3, l3, stream', rv'. split; [exact Hloop|].
    split; [exact Hok3|].
    split; [eapply same_flags_trans; [exact Hfl1|];
            eapply same_flags_trans; eassumption|].
    rewrite length_app in Hstream'. lia.
Qed.

(** Line 658 makes the clamp of lines 660-670 dead code. *)
Lemma clamp_to_duration_dead ms len :
  clamp_to_duration ms len = (set_audio_duration 0 ms, len).
Proof. reflexivity. Qed.

End ReadAudio.

(** C7. On a ready handle with a well-formed PCM path, a pull of [len]
    bytes ([0 <= len]) returns; its return value [rv] lies between 0 and
    [len] and is the number of bytes written to the caller's buffer; it
    broadcasts on the condition variable exactly when [rv > 0], in which case
    [needs_decode] is true afterwards, and a pull that returns 0 leaves
    [needs_decode] as it was.  The other lifecycle flags are not touched. *)
Theorem media_read_audio_returns (h : heap) (ms : MediaState)
    (l : list addr) (len : Z) :
  ready ms = true -> 0 <= len <= INT_MAX -> pcm_ok h ms l ->
  exists h' ms' stream rv evs,
    media_read_audio h ms len = Returns (h', ms', stream, rv, evs) /\
    0 <= rv <= len /\
    Z.of_nat (length stream) = rv /\
    (0 < rv <-> EvBroadcast ∈ evs) /\
    (0 < rv -> needs_decode ms' = true) /\
    (rv = 0 -> needs_decode ms' = needs_decode ms) /\
    started ms' = started ms /\ ready ms' = ready ms /\ quit ms' = quit ms.
Proof.
  intros Hready Hlen Hok.
  unfold media_read_audio. rewrite Hready, clamp_to_duration_dead. cbn [negb].
  destruct (read_audio_loop_ok (S (size h)) h (set_audio_duration 0 ms) l [] len 0)
    as (h' & ms' & l' & stream & rv & Hloop & _ & Hfl & Hrv & Hstream);
    try lia.
  { exact Hok. }
  rewrite Hloop. destruct Hfl as (Hs & Hr & Hn & Hq). cbn in Hs, Hr, Hn, Hq.
  cbn [length] in Hstream.
  destruct (Z.eqb_spec rv 0) as [E|E]; cbn [negb].
  - exists h', ms', stream, rv, [EvLock; EvUnlock].
    split; [reflexivity|]. split; [lia|]. split; [lia|].
    split; [|split; [lia|split; [intros _; exact Hn|repeat split; congruence]]].
    split; [lia|]. intros Hin.
    apply elem_of_cons in Hin as [Hin|Hin]; [discriminate|].
    apply list_elem_of_singleton in Hin. discriminate.
  - exists h', (set_needs_decode true ms'), stream, rv,
      [EvLock; EvBroadcast; EvUnlock].
    split; [reflexivity|]. split; [lia|]. split; [lia|].
    split; [|split; [reflexivity|split; [lia|repeat split; cbn; congruence]]].
    split; [|lia]. intros _. apply list_elem_of_further, list_elem_of_here.
Qed.

Lemma queued_pcm_ok : pcm_ok queued_heap queued_state [4096; 8192].
Proof.
  split; [|split].
  - split; [|split].
    + vm_compute. repeat split; discriminate.
    + apply (bool_decide_unpack _). vm_compute. exact I.
    + reflexivity.
  - apply map_Forall_insert_2; [|apply map_Forall_insert_2;
                                  [|apply map_Forall_empty]];
      vm_compute; repeat split; discriminate.
  - intros Hn. exfalso. apply Hn. reflexivity.
Defined.

Lemma media_read_audio_returns_witness :
  exists h' ms' stream rv evs,
    media_read_audio queued_heap queued_state 6000
    = Returns (h', ms', stream, rv, evs) /\
    0 <= rv <= 6000 /\
    Z.of_nat (length stream) = rv /\
    (0 < rv <-> EvBroadcast ∈ evs) /\
    (0 < rv -> needs_decode ms' = true) /\
    (rv = 0 -> needs_decode ms' = needs_decode queued_state) /\
    started ms' = started queued_state /\ ready ms' = ready queued_state /\
    quit ms' = quit queued_state.
Proof.
  apply (media_read_audio_returns queued_heap queued_state [4096; 8192] 6000).
  - reflexivity.
  - unfold INT_MAX. lia.
  - exact queued_pcm_ok.
Defined.

(** On the example the pull takes the whole first frame and 1904 bytes of
    the second. *)
Example media_read_audio_example :
  match media_read_audio queued_heap queued_state 6000 with
  | Returns (h', ms', stream, rv, evs) =>
      rv = 6000 /\ Z.of_nat (length stream) = 6000 /\
      audio_out_frame ms' = 8192 /\ audio_out_index ms' = 1904 /\
      audio_read_samples ms' = 1500 /\ audio_queue_samples ms' = 548 /\
      needs_decode ms' = true /\ h' !! 4096 = None
  | _ => False
  end.
Proof. vm_compute. repeat split. Qed.

(** ** The duration bound of the pull API *)

(** C1 (the code departs from the claim).  A handle with
    [audio_duration = 1024] samples may deliver 4096 bytes in all; line 658
    zeroes [audio_duration] before lines 660-670 look at it, so a pull of
    6000 bytes returns all 6000, [audio_finished] is not latched, and the
    duration is gone afterwards. *)
Theorem media_read_audio_exceeds_duration :
  let ms := set_audio_duration 1024 queued_state in
  0 < audio_duration ms /\
  match media_read_audio queued_heap ms 6000 with
  | Returns (h', ms', stream, rv, evs) =>
      rv = 6000 /\ audio_duration ms * BPS < rv /\
      audio_duration ms' = 0 /\ audio_finished ms' = false
  | _ => False
  end.
Proof. vm_compute. repeat split. Qed.

(** ** Duration inference *)

(** What lines 583-590 do store is never above one hour of samples (taken
    as the code computes it, in [unsigned int]). *)
Lemma infer_audio_duration_bounded (audio_sample_rate : Z) (ms : MediaState) :
  duration_estimation_method (ctx ms) <> AVFMT_DURATION_FROM_BITRATE ->
  0 <= audio_duration (infer_audio_duration audio_sample_rate ms)
    <= uint_wrap (int_wrap (3600 * audio_sample_rate)).
Proof.
  intros Hm. unfold infer_audio_duration.
  assert (forall z, 0 <= uint_wrap z < 2 ^ 32) as Hu
    by (intros z; unfold uint_wrap; apply Z.mod_pos_bound; lia).
  set (d := uint_wrap
              (Z.quot (llong_wrap (duration (ctx ms) * audio_sample_rate))
                      AV_TIME_BASE)).
  pose proof (Hu (int_wrap (3600 * audio_sample_rate))) as Hb.
  assert (0 <= d < 2 ^ 32) as Hd by apply Hu.
  destruct (duration_estimation_method (ctx ms)); try contradiction;
    cbn [audio_duration set_audio_duration];
    (destruct (Z.ltb_spec d 0); cbn [orb];
     [cbn; lia|
      destruct (Z.gtb_spec d (uint_wrap (int_wrap (3600 * audio_sample_rate))));
      cbn; lia]).
Qed.

(** C5 (the code departs from the claim).  A container of 97392 seconds
    converts to 4294987200 samples, far outside (0, 3600 * 44100]; the
    conversion to [unsigned int] on line 584 reduces it to 19904 before the
    range check sees it, so it is kept. *)
Theorem infer_audio_duration_wraps :
  let ms := set_ctx long_container example_state in
  let converted := Z.quot (duration (ctx ms) * 44100) AV_TIME_BASE in
  converted = 4294987200 /\
  ~ (0 < converted <= 3600 * 44100) /\
  audio_duration (infer_audio_duration 44100 ms) = 19904.
Proof. vm_compute. repeat split. intros [_ H]. apply H. reflexivity. Qed.

(** ** The skip policy *)

(** C2, as stated, fails on a frame that ends exactly at [skip]: at 48000 Hz
    the frame of 1500 samples starts at 0 and ends at 0.03125 = [skip], so
    the specification has it discarded; the code installs it as
    [audio_out_frame], with the index at its very end. *)
Lemma skip_policy_boundary_counterexample :
  ~ skip_policy_as_specified 48000 thirty_second skip_thirty_second 0 1%float
      4096.
Proof.
  intros H.
  destruct (H (pcm_frame 1500) eq_refl) as (_ & Hdiscard & _).
  assert (decode_audio_skip_policy 48000 thirty_second skip_thirty_second 0
            1%float 4096
          = Some (thirty_second,
                  set_audio_out_index 6000
                    (set_audio_out_frame 4096 skip_thirty_second))) as Hcode
    by (vm_compute; reflexivity).
  unfold frame_discarded in Hdiscard.
  rewrite Hcode in Hdiscard.
  specialize (Hdiscard eq_refl eq_refl).
  apply (f_equal (fun r => match r with
                           | Some (_, ms) => audio_out_frame ms
                           | None => 0
                           end)) in Hdiscard.
  vm_compute in Hdiscard. discriminate Hdiscard.
Qed.

(** The branch of lines 442-446: the frame goes to the back of the queue. *)
Lemma skip_policy_enqueue_branch (audio_sample_rate : Z) (h : heap)
    (ms : MediaState) (l : list addr) (pts : Z) (timebase : double)
    (frame : addr) (f : AVFrame) :
  h !! frame = Some f -> fq_rep h (audio_queue ms) l ->
  (frame ∉ l) -> frame <> NULL ->
  (skip ms <=? frame_start pts timebase)%float = true ->
  let r := decode_audio_skip_policy audio_sample_rate h ms pts timebase frame in
  frame_enqueued h ms frame r /\
  exists h' ms',
    r = Some (h', ms') /\ fq_rep h' (audio_queue ms') (l ++ [frame]) /\
    same_payload h h' /\
    audio_queue_samples ms'
    = int_wrap (audio_queue_samples ms + nb_samples f) /\
    audio_out_frame ms' = audio_out_frame ms /\
    audio_out_index ms' = audio_out_index ms.
Proof.
  intros Hf Hrep Hfresh Hnn Hge r.
  subst r. unfold decode_audio_skip_policy. rewrite Hf. cbn [mbind option_bind].
  fold (frame_start pts timebase). rewrite Hge.
  destruct (enqueue_frame_rep h (audio_queue ms) l frame Hrep Hfresh Hnn)
    as (h' & q' & Henq & Hrep' & Hpay); [rewrite Hf; eauto|].
  cbn [audio_queue set_audio_queue_samples]. rewrite Henq. cbn.
  split.
  - exists f, h', q'. repeat split; assumption.
  - eexists _, _. split; [reflexivity|]. cbn.
    repeat split; try assumption; apply Hrep'.
Qed.

(** The branches of lines 448-457, taken when [start >= skip] fails. *)
Lemma skip_policy_later_branches (audio_sample_rate : Z) (h : heap)
    (ms : MediaState) (pts : Z) (timebase : double) (frame : addr)
    (f : AVFrame) :
  h !! frame = Some f ->
  (skip ms <=? frame_start pts timebase)%float = false ->
  decode_audio_skip_policy audio_sample_rate h ms pts timebase frame
  = if (frame_end audio_sample_rate pts timebase f <? skip ms)%float
    then Some (av_frame_free h frame, ms)
    else
      match int_of_double
              ((skip ms - frame_start pts timebase)
               * double_of_Z audio_sample_rate)%float with
      | Some n =>
          Some (h, set_audio_out_index (int_wrap (BPS * n))
                     (set_audio_out_frame frame ms))
      | None => None
      end.
Proof.
  intros Hf Hlt. unfold decode_audio_skip_policy. rewrite Hf.
  cbn [mbind option_bind]. fold (frame_start pts timebase). rewrite Hlt.
  reflexivity.
Qed.

(** C2, amended.  For a live frame [frame] that is not already queued:
    when [start >= skip] the frame is appended to the PCM queue and its
    sample count added to [audio_queue_samples]; otherwise, when
    [end < skip], it is freed and nothing else changes; otherwise
    ([start < skip <= end], or a NaN is involved) it becomes
    [audio_out_frame], with [audio_out_index] the [(int)] truncation of
    [(skip - start) * rate] times [BPS], and is not queued. *)
Theorem decode_audio_skip_policy_cases (audio_sample_rate : Z) (h : heap)
    (ms : MediaState) (l : list addr) (pts : Z) (timebase : double)
    (frame : addr) (f : AVFrame) :
  h !! frame = Some f -> fq_rep h (audio_queue ms) l ->
  (frame ∉ l) -> frame <> NULL ->
  let start := frame_start pts timebase in
  let end_ := frame_end audio_sample_rate pts timebase f in
  let r := decode_audio_skip_policy audio_sample_rate h ms pts timebase frame in
  ((skip ms <=? start)%float = true ->
   frame_enqueued h ms frame r /\
   exists h' ms',
     r = Some (h', ms') /\ fq_rep h' (audio_queue ms') (l ++ [frame]) /\
     same_payload h h' /\
     audio_queue_samples ms'
     = int_wrap (audio_queue_samples ms + nb_samples f) /\
     audio_out_frame ms' = audio_out_frame ms /\
     audio_out_index ms' = audio_out_index ms) /\
  ((skip ms <=? start)%float = false -> (end_ <? skip ms)%float = true ->
   frame_discarded h ms frame r) /\
  ((skip ms <=? start)%float = false -> (end_ <? skip ms)%float = false ->
   forall n,
     int_of_double
       ((skip ms - start) * double_of_Z audio_sample_rate)%float = Some n ->
     frame_installed h ms frame (int_wrap (BPS * n)) r).
Proof.
  intros Hf Hrep Hfresh Hnn start end_ r. subst start end_ r.
  split; [|split].
  - intros Hge. eapply skip_policy_enqueue_branch; eassumption.
  - intros Hlt Hend. unfold frame_discarded.
    rewrite (skip_policy_later_branches _ _ _ _ _ _ f Hf Hlt), Hend.
    reflexivity.
  - intros Hlt Hend n Hn. unfold frame_installed.
    rewrite (skip_policy_later_branches _ _ _ _ _ _ f Hf Hlt), Hend, Hn.
    reflexivity.
Qed.

Lemma decode_audio_skip_policy_cases_witness :
  frame_installed one_frame skip_inside 4096 1376
    (decode_audio_skip_policy 44100 one_frame skip_inside 0 1%float 4096).
Proof.
  assert (one_frame !! 4096 = Some (pcm_frame 1024)) as Hf by reflexivity.
  assert (fq_rep one_frame (audio_queue skip_inside) []) as Hrep
    by apply fq_rep_empty.
  assert (4096 ∉ ([] : list Z)) as Hfresh by apply not_elem_of_nil.
  assert (4096 <> NULL) as Hnn by discriminate.
  exact (proj2 (proj2
    (decode_audio_skip_policy_cases 44100 one_frame skip_inside [] 0 1%float
       4096 (pcm_frame 1024) Hf Hrep Hfresh Hnn))
    eq_refl eq_refl 344 eq_refl).
Defined.

(** ** Queue accounting *)

Lemma queue_accounting_fresh :
  queue_accounting one_frame skip_inside.
Proof.
  exists []. split; [apply fq_rep_empty|]. reflexivity.
Qed.

(** C3 (the code departs from the claim).  Before the frame of 1024 samples
    arrives nothing is queued and [audio_queue_samples] is 0, as the
    accounting demands.  The frame straddles [skip]: the code installs it as
    [audio_out_frame] at byte 1376, so 680 of its samples are still to be
    consumed, but [audio_queue_samples] is left at 0; the branch that
    enqueues adds the sample count, this one adds nothing. *)
Theorem skip_policy_breaks_accounting :
  queue_accounting one_frame skip_inside /\
  exists h' ms',
    decode_audio_skip_policy 44100 one_frame skip_inside 0 1%float 4096
    = Some (h', ms') /\
    audio_out_frame ms' = 4096 /\ audio_out_index ms' = 1376 /\
    out_frame_remainder h' ms' = 680 /\ audio_queue_samples ms' = 0 /\
    ~ queue_accounting h' ms'.
Proof.
  split; [exact queue_accounting_fresh|].
  eexists _, _. split; [vm_compute; reflexivity|].
  split; [reflexivity|]. split; [reflexivity|].
  split; [vm_compute; reflexivity|]. split; [reflexivity|].
  intros (l & (Hc & _) & Hacc).
  apply chain_null in Hc. subst l.
  vm_compute in Hacc. discriminate Hacc.
Qed.

(** Draining the installed frame then takes its 680 samples off a counter
    they were never added to. *)
Example straddle_then_pull_example :
  match decode_audio_skip_policy 44100 one_frame (set_ready true skip_inside)
          0 1%float 4096 with
  | Some (h', ms') =>
      match media_read_audio h' ms' 2720 with
      | Returns (h'', ms'', stream, rv, evs) =>
          rv = 2720 /\ audio_out_frame ms'' = NULL /\
          audio_queue_samples ms'' = -680
      | _ => False
      end
  | None => False
  end.
Proof. vm_compute. repeat split. Qed.

(** ** The ready protocol of the decode thread *)

Section ReadyProtocol.

Implicit Types (t pre post evs : list event) (ms : MediaState) (c : config).

Lemma no_wait_app_announced t evs :
  EvAssignReady ∈ t -> no_wait_before_ready t ->
  no_wait_before_ready (t ++ evs).
Proof.
  induction t as [|e t IH]; intros Hin Hnw.
  - inversion Hin.
  - destruct e; cbn in *; try exact I; try contradiction;
      (apply IH; [|exact Hnw];
       apply elem_of_cons in Hin as [Hin|Hin]; [discriminate|exact Hin]).
Qed.

Lemma no_wait_app_fresh t evs :
  no_wait_before_ready t -> no_wait_before_ready evs ->
  no_wait_before_ready (t ++ evs).
Proof.
  induction t as [|e t IH]; intros Hnw Hevs; [exact Hevs|].
  destruct e; cbn in *; try exact I; try contradiction; apply IH; assumption.
Qed.

Lemma no_wait_without_wait t post :
  (EvWait ∉ t) -> no_wait_before_ready (t ++ EvAssignReady :: post).
Proof.
  induction t as [|e t IH]; intros Hn; [exact I|].
  apply not_elem_of_cons in Hn as [He Hn].
  destruct e; cbn; try exact I; try (apply IH; exact Hn). congruence.
Qed.

Lemma ready_announced_once_app t evs :
  ready_announced_once t -> (EvAssignReady ∉ evs) ->
  ready_announced_once (t ++ evs).
Proof.
  intros (t1 & t2 & -> & H1 & H2) Hevs.
  exists t1, (t2 ++ evs). split; [|split; [exact H1|]].
  - rewrite <- app_assoc. reflexivity.
  - intros Hin. apply elem_of_app in Hin as [Hin|Hin]; contradiction.
Qed.

Lemma ready_announced_once_in t :
  ready_announced_once t -> EvAssignReady ∈ t.
Proof.
  intros (t1 & t2 & -> & _). apply elem_of_app. right. apply list_elem_of_here.
Qed.

(** What lines 609-612 (and 632-635) do to the trace, with other calls [pre]
    before and [post] after them in the same locked region. *)
Lemma announce_ready_trace t ms ms' evs pre post :
  announce_ready ms = (ms', evs) ->
  (if ready ms then ready_announced_once t else EvAssignReady ∉ t) ->
  no_wait_before_ready t ->
  (EvAssignReady ∉ pre) -> (EvWait ∉ pre) -> (EvAssignReady ∉ post) ->
  ready ms' = true /\ same_flags (set_ready true ms) ms' /\
  ready_announced_once (t ++ pre ++ evs ++ post) /\
  no_wait_before_ready (t ++ pre ++ evs ++ post).
Proof.
  unfold announce_ready. intros Ha Ht Hnw Hpre Hwait Hpost.
  destruct (ready ms) eqn:Hr; cbn in Ha; injection Ha as <- <-.
  - split; [exact Hr|]. split; [repeat split; cbn; congruence|]. split.
    + apply ready_announced_once_app; [exact Ht|].
      intros Hin. apply elem_of_app in Hin as [Hin|Hin]; contradiction.
    + apply no_wait_app_announced; [|exact Hnw].
      apply ready_announced_once_in. exact Ht.
  - split; [reflexivity|]. split; [repeat split|]. split.
    + exists (t ++ pre), post. split; [|split; [|exact Hpost]].
      * rewrite <- !app_assoc. reflexivity.
      * intros Hin. apply elem_of_app in Hin as [Hin|Hin]; contradiction.
    + rewrite app_assoc. cbn [app].
      apply no_wait_without_wait.
      intros Hin. apply elem_of_app in Hin as [Hin|Hin]; [|contradiction].
      (* no wait in [t]: it would come before the assignment *)
      clear -Hin Hnw Ht. induction t as [|e t IH]; [inversion Hin|].
      apply not_elem_of_cons in Ht as [He Ht].
      destruct e; cbn in Hnw; try contradiction; try congruence;
        (apply elem_of_cons in Hin as [Hin|Hin]; [discriminate|];
         apply IH; assumption).
Qed.

(** Calls that do not assign [ready] keep the trace in shape; before
    [ready] is true they must not be waits of the decode thread. *)
Lemma quiet_trace t (b : bool) evs :
  (if b then ready_announced_once t else EvAssignReady ∉ t) ->
  no_wait_before_ready t ->
  (EvAssignReady ∉ evs) -> (b = false -> EvWait ∉ evs) ->
  (if b then ready_announced_once (t ++ evs) else EvAssignReady ∉ t ++ evs) /\
  no_wait_before_ready (t ++ evs).
Proof.
  intros Ht Hnw Hevs Hwait. destruct b.
  - split; [apply ready_announced_once_app; assumption|].
    apply no_wait_app_announced; [|exact Hnw].
    apply ready_announced_once_in. exact Ht.
  - split.
    + intros Hin. apply elem_of_app in Hin as [Hin|Hin]; contradiction.
    + apply no_wait_app_fresh; [exact Hnw|].
      specialize (Hwait eq_refl). clear -Hwait Hevs.
      induction evs as [|e evs IH]; [exact I|].
      apply not_elem_of_cons in Hwait as [He Hwait].
      apply not_elem_of_cons in Hevs as [He' Hevs].
      destruct e; cbn; try exact I; try congruence; apply IH; assumption.
Qed.

End ReadyProtocol.

Section FlagsPreserved.

Implicit Types (h : heap) (ms : MediaState).

Lemma fetch_out_frame_flags h ms ms1 :
  fetch_out_frame h ms = Some ms1 -> same_flags ms ms1.
Proof.
  unfold fetch_out_frame. intros H.
  destruct (audio_out_frame ms =? NULL).
  - destruct (dequeue_frame h (audio_queue ms)) as [[f q]|]; [|discriminate].
    cbn in H. injection H as <-. repeat split.
  - injection H as <-. apply same_flags_refl.
Qed.

Lemma drain_out_frame_flags h ms f len h' ms' bytes count :
  drain_out_frame h ms f len = Some (h', ms', bytes, count) ->
  same_flags ms ms'.
Proof.
  unfold drain_out_frame. intros H.
  destruct (memcpy_from _ _ _) as [b|]; [|discriminate]. cbn in H.
  match type of H with
  | (if ?c then _ else _) = _ => destruct c
  end; injection H as <- <- <- <-; repeat split.
Qed.

Lemma read_audio_loop_flags fuel : forall h ms stream len rv h' ms' stream' rv',
  read_audio_loop fuel h ms stream len rv = Returns (h', ms', stream', rv') ->
  same_flags ms ms'.
Proof.
  induction fuel as [|fuel IH]; intros h ms stream len rv h' ms' stream' rv' H;
    cbn [read_audio_loop] in H; destruct (len =? 0);
    try (injection H as <- <- <- <-; apply same_flags_refl);
    try discriminate.
  destruct (fetch_out_frame h ms) as [ms1|] eqn:Hfetch; [|discriminate].
  pose proof (fetch_out_frame_flags _ _ _ Hfetch) as Hfl1.
  destruct (audio_out_frame ms1 =? NULL).
  { injection H as <- <- <- <-. exact Hfl1. }
  destruct (h !! audio_out_frame ms1) as [f|]; [|discriminate].
  destruct (drain_out_frame h ms1 f len) as [[[[h2 ms2] bytes] count]|] eqn:Hd;
    [|discriminate].
  pose proof (drain_out_frame_flags _ _ _ _ _ _ _ _ Hd) as Hfl2.
  apply IH in H.
  eapply same_flags_trans; [exact Hfl1|].
  eapply same_flags_trans; eassumption.
Qed.

(** A pull that returns found [ready] true and left it so; it touches
    neither [started] nor [quit], never assigns [ready] and never waits. *)
Lemma media_read_audio_flags h ms len h' ms' stream rv evs :
  media_read_audio h ms len = Returns (h', ms', stream, rv, evs) ->
  ready ms = true /\ ready ms' = true /\
  started ms' = started ms /\ quit ms' = quit ms /\
  (EvAssignReady ∉ evs) /\ (EvWait ∉ evs).
Proof.
  unfold media_read_audio. intros H.
  destruct (ready ms) eqn:Hr; [|discriminate]. cbn [negb] in H.
  rewrite clamp_to_duration_dead in H.
  destruct (read_audio_loop _ _ _ _ _ _) as [[[[h2 ms2] s2] rv2]| | |] eqn:Hloop;
    try discriminate.
  apply read_audio_loop_flags in Hloop.
  destruct Hloop as (Hs & Hrd & _ & Hq). cbn in Hs, Hrd, Hq.
  destruct (negb (rv2 =? 0)); injection H as <- <- <- <- <-;
    (split; [reflexivity|]); cbn;
    (split; [congruence|]); (split; [congruence|]); (split; [congruence|]);
    split; intros Hin;
    repeat (apply elem_of_cons in Hin as [Hin|Hin]; [discriminate|]);
    inversion Hin.
Qed.

Lemma select_streams_flags l : forall i ms,
  same_flags ms (select_streams l i ms).
Proof.
  induction l as [|t l IH]; intros i ms; [apply same_flags_refl|].
  cbn [select_streams].
  eapply same_flags_trans; [|apply IH].
  destruct t.
  - destruct (video_stream ms =? -1); repeat split.
  - destruct (audio_stream ms =? -1); repeat split.
  - apply same_flags_refl.
Qed.

Lemma infer_audio_duration_flags rate ms :
  same_flags ms (infer_audio_duration rate ms).
Proof.
  unfold infer_audio_duration.
  destruct (duration_estimation_method (ctx ms));
    try apply same_flags_refl;
    match goal with
    | |- same_flags _ (if ?c then _ else _) => destruct c
    end; repeat split.
Qed.

Lemma same_flags_set_ctx c ms : same_flags ms (set_ctx c ms).
Proof. repeat split. Qed.

(** Setup (lines 540-595) leaves the lifecycle flags alone. *)
Lemma decode_thread_setup_flags rate o ms ok ms' :
  decode_thread_setup rate o ms = (ok, ms') -> same_flags ms ms'.
Proof.
  unfold decode_thread_setup. intros H.
  destruct (negb (open_err o =? 0)); [injection H as <- <-; apply same_flags_refl|].
  destruct (negb (info_err o =? 0)); [injection H as <- <-; apply same_flags_refl|].
  injection H as <- <-.
  match goal with
  | |- same_flags _ (if _ then set_ctx _ ?m else ?m) =>
      assert (same_flags ms m) as Hm
  end.
  { eapply same_flags_trans; [|apply infer_audio_duration_flags].
    eapply same_flags_trans; [|repeat split].
    eapply same_flags_trans; [|repeat split].
    eapply same_flags_trans; [|repeat split].
    eapply same_flags_trans; [|apply select_streams_flags].
    repeat split. }
  match goal with
  | |- same_flags _ (if ?c then _ else _) => destruct c
  end; [|exact Hm].
  eapply same_flags_trans; [exact Hm|]. apply same_flags_set_ctx.
Qed.

(** [media_close] on a started handle: only [quit] changes, nothing is
    freed, and the caller does not wait. *)
Lemma media_close_started h ms :
  started ms = true ->
  media_close h ms
  = Returns (h, Some (set_quit true ms), [EvLock; EvBroadcast; EvUnlock]).
Proof. intros Hs. unfold media_close. rewrite Hs. reflexivity. Qed.

Lemma media_close_keeps_state h ms h' ms' evs :
  media_close h ms = Returns (h', Some ms', evs) ->
  started ms = true /\ h' = h /\ ms' = set_quit true ms /\
  evs = [EvLock; EvBroadcast; EvUnlock].
Proof.
  unfold media_close. intros H. destruct (started ms); cbn [negb] in H.
  - injection H as <- <- <-. auto.
  - destruct (deallocate h ms); discriminate.
Qed.

End FlagsPreserved.

Section ReadyInvariant.

Variable audio_sample_rate : Z.

Implicit Types (c : config).

Lemma initial_ready_invariant c : initial c -> ready_invariant c.
Proof.
  intros (Hat & Hr & Ht). unfold ready_invariant. rewrite Hr, Ht, Hat.
  split; [apply not_elem_of_nil|]. split; [exact I|]. split; [reflexivity|].
  intros [H|[H|H]]; discriminate.
Qed.

Ltac not_a_wait_location :=
  let H := fresh in intros [H|[H|H]]; discriminate.

Lemma step_preserves_ready_invariant c c' :
  ready_invariant c -> step audio_sample_rate c c' -> ready_invariant c'.
Proof.
  intros (Htr & Hnw & Hsetup & Hwaits) Hstep. unfold ready_invariant.
  destruct Hstep as
    [c o ok ms' Hat Hset | c Hat | c h' ms' Hat Hfl | c ms' evs Hat Hann
    | c Hat | c ms' evs Hat Hann | c Hat Hq | c h' Hat Hq Hd
    | c h' ms' evs Hat Hclose | c len h' ms' stream rv evs Hat Hread];
    cbn [at_ st trace mem].
  - (* setup *)
    apply decode_thread_setup_flags in Hset. destruct Hset as (_ & Hr & _).
    rewrite Hr. split; [exact Htr|]. split; [exact Hnw|].
    split; [destruct ok; discriminate|]. destruct ok; not_a_wait_location.
  - (* the loop test *)
    split; [exact Htr|]. split; [exact Hnw|].
    split; [destruct (quit (st c)); discriminate|].
    destruct (quit (st c)); not_a_wait_location.
  - (* decoding *)
    destruct Hfl as (_ & Hr & _). rewrite Hr.
    split; [exact Htr|]. split; [exact Hnw|].
    split; [discriminate|not_a_wait_location].
  - (* the locked region of the loop *)
    destruct (needs_decode ms' || quit ms'); cbn [at_ st trace mem].
    + destruct (announce_ready_trace (trace c) (st c) ms' evs [EvLock] [EvUnlock]
                  Hann Htr Hnw) as (Hr' & _ & Hon & Hnw');
        try (intros Hin; apply list_elem_of_singleton in Hin; discriminate).
      change (ready (set_needs_decode false ms')) with (ready ms').
      rewrite Hr'. split; [exact Hon|]. split; [exact Hnw'|].
      split; [discriminate|reflexivity].
    + destruct (announce_ready_trace (trace c) (st c) ms' evs [EvLock] [EvWait]
                  Hann Htr Hnw) as (Hr' & _ & Hon & Hnw');
        try (intros Hin; apply list_elem_of_singleton in Hin; discriminate).
      rewrite Hr'. split; [exact Hon|]. split; [exact Hnw'|].
      split; [discriminate|reflexivity].
  - (* waking up in the loop *)
    assert (ready (st c) = true) as Hr by (apply Hwaits; auto).
    change (ready (set_needs_decode false (st c))) with (ready (st c)).
    destruct (quiet_trace (trace c) (ready (st c)) [EvUnlock] Htr Hnw)
      as (Htr' & Hnw');
      try (intros Hin; apply list_elem_of_singleton in Hin; discriminate).
    { rewrite Hr. discriminate. }
    split; [exact Htr'|]. split; [exact Hnw'|].
    split; [discriminate|not_a_wait_location].
  - (* finish: the exit path announces ready *)
    destruct (announce_ready_trace (trace c) (st c) ms' evs [EvLock] []
                Hann Htr Hnw) as (Hr' & _ & Hon & Hnw');
      try (intros Hin; apply list_elem_of_singleton in Hin; discriminate);
      try apply not_elem_of_nil.
    rewrite app_nil_r in Hon, Hnw'.
    rewrite Hr'. split; [exact Hon|]. split; [exact Hnw'|].
    split; [discriminate|reflexivity].
  - (* waiting for quit *)
    assert (ready (st c) = true) as Hr by (apply Hwaits; auto).
    destruct (quiet_trace (trace c) (ready (st c)) [EvWait] Htr Hnw)
      as (Htr' & Hnw');
      try (intros Hin; apply list_elem_of_singleton in Hin; discriminate).
    { rewrite Hr. discriminate. }
    split; [exact Htr'|]. split; [exact Hnw'|].
    split; [discriminate|intros _; exact Hr].
  - (* exit *)
    assert (ready (st c) = true) as Hr by (apply Hwaits; auto).
    destruct (quiet_trace (trace c) (ready (st c)) [EvUnlock; EvDeallocate]
                Htr Hnw) as (Htr' & Hnw').
    { intros Hin. repeat (apply elem_of_cons in Hin as [Hin|Hin]; [discriminate|]).
      inversion Hin. }
    { rewrite Hr. discriminate. }
    split; [exact Htr'|]. split; [exact Hnw'|].
    split; [discriminate|intros _; exact Hr].
  - (* the caller closes *)
    apply media_close_keeps_state in Hclose as (_ & -> & -> & ->).
    change (ready (set_quit true (st c))) with (ready (st c)).
    destruct (quiet_trace (trace c) (ready (st c)) [EvLock; EvBroadcast; EvUnlock]
                Htr Hnw) as (Htr' & Hnw').
    { intros Hin. repeat (apply elem_of_cons in Hin as [Hin|Hin]; [discriminate|]).
      inversion Hin. }
    { intros _ Hin.
      repeat (apply elem_of_cons in Hin as [Hin|Hin]; [discriminate|]).
      inversion Hin. }
    split; [exact Htr'|]. split; [exact Hnw'|]. split; assumption.
  - (* the caller pulls *)
    apply media_read_audio_flags in Hread
      as (Hr & Hr' & _ & _ & Hna & Hnwait).
    rewrite Hr in Htr.
    destruct (quiet_trace (trace c) true evs Htr Hnw Hna) as (Htr' & Hnw');
      [discriminate|].
    rewrite Hr'. split; [exact Htr'|]. split; [exact Hnw'|].
    split; [|intros _; reflexivity].
    intros Hs. specialize (Hsetup Hs). congruence.
Qed.

Lemma reachable_ready_invariant c : reachable audio_sample_rate c -> ready_invariant c.
Proof.
  intros (c0 & Hinit & Hrun).
  apply initial_ready_invariant in Hinit.
  induction Hrun as [c|c1 c2 c3 Hstep _ IH]; [exact Hinit|].
  apply IH. eapply step_preserves_ready_invariant; eassumption.
Qed.

(** No step of the decode thread or of its caller clears [ready]. *)
Lemma step_keeps_ready c c' :
  step audio_sample_rate c c' -> ready (st c) = true -> ready (st c') = true.
Proof.
  intros Hstep Hr.
  destruct Hstep as
    [c o ok ms' Hat Hset | c Hat | c h' ms' Hat Hfl | c ms' evs Hat Hann
    | c Hat | c ms' evs Hat Hann | c Hat Hq | c h' Hat Hq Hd
    | c h' ms' evs Hat Hclose | c len h' ms' stream rv evs Hat Hread];
    cbn [at_ st trace mem]; try exact Hr.
  - apply decode_thread_setup_flags in Hset. destruct Hset as (_ & -> & _).
    exact Hr.
  - destruct Hfl as (_ & -> & _). exact Hr.
  - unfold announce_ready in Hann. rewrite Hr in Hann. injection Hann as <- <-.
    destruct (needs_decode (st c) || quit (st c)); exact Hr.
  - unfold announce_ready in Hann. rewrite Hr in Hann. injection Hann as <- <-.
    exact Hr.
  - apply media_close_keeps_state in Hclose as (_ & _ & -> & _). exact Hr.
  - apply media_read_audio_flags in Hread. tauto.
Qed.

End ReadyInvariant.

Lemma read_audio_loop_not_blocked fuel : forall h ms stream len rv,
  read_audio_loop fuel h ms stream len rv <> Blocked.
Proof.
  induction fuel as [|fuel IH]; intros h ms stream len rv;
    cbn [read_audio_loop]; destruct (len =? 0); try discriminate.
  destruct (fetch_out_frame h ms) as [ms1|]; [|discriminate].
  destruct (audio_out_frame ms1 =? NULL); [discriminate|].
  destruct (h !! audio_out_frame ms1) as [f|]; [|discriminate].
  destruct (drain_out_frame h ms1 f len) as [[[[h2 ms2] bytes] count]|];
    [apply IH|discriminate].
Qed.

(** A pull blocks only while [ready] is false. *)
Lemma media_read_audio_not_blocked h ms len :
  ready ms = true -> media_read_audio h ms len <> Blocked.
Proof.
  intros Hr. unfold media_read_audio. rewrite Hr, clamp_to_duration_dead.
  cbn [negb].
  pose proof (read_audio_loop_not_blocked (S (size h)) h
                (set_audio_duration 0 ms) [] len 0) as Hnb.
  destruct (read_audio_loop _ _ _ _ _ _) as [[[[h2 ms2] s2] rv2]| | |];
    try discriminate; [|contradiction].
  destruct (negb (rv2 =? 0)); discriminate.
Qed.

(** C6. In every configuration the decode thread and its caller can reach
    from the start of the thread on a handle that is not ready:
    [ms->ready = 1] has been executed exactly once if [ready] is true, each
    time with the broadcast right behind it, and not at all if it is false;
    [ready] is false as long as setup (stream discovery) is running; the
    decode thread has not waited on the condition variable before the
    assignment; where it waits for [quit] on its exit path, or has exited,
    [ready] is true, whether setup succeeded or failed; no step clears
    [ready]; and a pull made while the thread waits for [quit] does not
    block. *)
Theorem ready_protocol (audio_sample_rate : Z) (c : config) :
  reachable audio_sample_rate c ->
  (if ready (st c) then ready_announced_once (trace c)
   else EvAssignReady ∉ trace c) /\
  (at_ c = AtSetup -> ready (st c) = false) /\
  no_wait_before_ready (trace c) /\
  (at_ c = AtFinishWait \/ at_ c = Exited -> ready (st c) = true) /\
  (forall c', step audio_sample_rate c c' ->
              ready (st c) = true -> ready (st c') = true) /\
  (at_ c = AtFinishWait ->
   forall len, media_read_audio (mem c) (st c) len <> Blocked).
Proof.
  intros Hreach.
  destruct (reachable_ready_invariant audio_sample_rate c Hreach)
    as (Htr & Hnw & Hsetup & Hwaits).
  split; [exact Htr|]. split; [exact Hsetup|]. split; [exact Hnw|].
  split; [intros [H|H]; apply Hwaits; auto|].
  split; [intros c'; apply step_keeps_ready|].
  intros Hat len. apply media_read_audio_not_blocked. apply Hwaits. auto.
Qed.

Lemma waiting_for_quit_reachable : reachable 44100 waiting_for_quit.
Proof.
  exists spawned. split; [repeat split|].
  eapply rtc_l.
  { apply (step_setup 44100 spawned failing_oracle false (st spawned));
      reflexivity. }
  eapply rtc_l; [|apply rtc_refl].
  apply (step_finish 44100
           {| at_ := AtFinish; mem := ∅; st := st spawned; trace := [] |}
           (set_ready true (st spawned)) [EvAssignReady; EvBroadcast]);
    reflexivity.
Defined.

Lemma ready_protocol_witness :
  (if ready (st waiting_for_quit)
   then ready_announced_once (trace waiting_for_quit)
   else EvAssignReady ∉ trace waiting_for_quit) /\
  (at_ waiting_for_quit = AtSetup -> ready (st waiting_for_quit) = false) /\
  no_wait_before_ready (trace waiting_for_quit) /\
  (at_ waiting_for_quit = AtFinishWait \/ at_ waiting_for_quit = Exited ->
   ready (st waiting_for_quit) = true) /\
  (forall c', step 44100 waiting_for_quit c' ->
              ready (st waiting_for_quit) = true -> ready (st c') = true) /\
  (at_ waiting_for_quit = AtFinishWait ->
   forall len,
     media_read_audio (mem waiting_for_quit) (st waiting_for_quit) len
     <> Blocked).
Proof.
  apply (ready_protocol 44100 waiting_for_quit).
  exact waiting_for_quit_reachable.
Defined.

(** ** Close and start *)

Section Lifecycle.

Implicit Types (h : heap) (ms : MediaState) (l : list addr) (fq : FrameQueue).

(** Distinct live frames are at most as many as the heap holds. *)
Lemma live_list_size l : forall h,
  NoDup l -> (forall a, a ∈ l -> is_Some (h !! a)) ->
  (length l <= size h)%nat.
Proof.
  induction l as [|a l IH]; intros h Hnd Hlive; [cbn; lia|].
  apply NoDup_cons in Hnd as [Ha Hnd].
  assert (is_Some (h !! a)) as Hsome by (apply Hlive, list_elem_of_here).
  specialize (IH (delete a h) Hnd).
  rewrite map_size_delete_Some in IH by exact Hsome.
  assert (size h <> 0)%nat.
  { intros Hz. apply map_size_empty_inv in Hz. subst h.
    destruct Hsome as [f Hf]. rewrite lookup_empty in Hf. discriminate. }
  cbn [length]. enough (length l <= pred (size h))%nat by lia.
  apply IH. intros b Hb.
  rewrite lookup_delete_ne by (intros ->; contradiction).
  apply Hlive, list_elem_of_further, Hb.
Qed.

Lemma fq_rep_size h fq l : fq_rep h fq l -> (length l <= size h)%nat.
Proof.
  intros (Hc & Hnd & _). apply live_list_size; [exact Hnd|].
  intros a Ha. eapply chain_in_live; eassumption.
Qed.

(** The loop of lines 209-217 frees exactly the queued frames. *)
Lemma free_audio_queue_ok l : forall fuel h fq,
  fq_rep h fq l -> (length l <= fuel)%nat ->
  exists h',
    free_audio_queue fuel h fq = Returns h' /\
    forall a, h' !! a = if decide (a ∈ l) then None else h !! a.
Proof.
  induction l as [|b l IH]; intros fuel h fq Hrep Hfuel.
  - apply fq_rep_nil in Hrep. subst fq. exists h.
    split; [destruct fuel; reflexivity|].
    intros a. destruct (decide (a ∈ [])) as [Hin|_]; [inversion Hin|reflexivity].
  - destruct (dequeue_frame_rep h fq b l Hrep) as (fq' & Hd & Hrep').
    destruct Hrep as (Hc & Hnd & _).
    assert (b <> NULL) as Hb by (cbn in Hc; tauto).
    apply NoDup_cons in Hnd as [Hbl _].
    destruct fuel as [|fuel]; [cbn in Hfuel; lia|].
    cbn [free_audio_queue]. rewrite Hd.
    assert ((b =? NULL) = false) as -> by (apply Z.eqb_neq; exact Hb).
    destruct (IH fuel (av_frame_free h b) fq') as (h' & Hfree & Hlook).
    { apply fq_rep_delete_other; assumption. }
    { cbn in Hfuel. lia. }
    exists h'. split; [exact Hfree|].
    intros a. rewrite Hlook. unfold av_frame_free.
    destruct (decide (a ∈ l)) as [Hal|Hal].
    + rewrite decide_True by (apply list_elem_of_further; exact Hal). reflexivity.
    + destruct (decide (a = b)) as [->|Hab].
      * rewrite decide_True by apply list_elem_of_here. apply lookup_delete_eq.
      * rewrite decide_False
          by (intros Hin; apply elem_of_cons in Hin as [?|?]; contradiction).
        apply lookup_delete_ne. congruence.
Qed.

(** [deallocate] returns and frees exactly the frames of the handle. *)
Lemma deallocate_ok h ms l :
  frames_apart h ms l ->
  exists h',
    deallocate h ms = Returns h' /\
    forall a, h' !! a = if decide (a ∈ frames_of ms l) then None else h !! a.
Proof.
  intros (Hrep & Hv & Ha & Ho). unfold deallocate.
  set (h3 := av_frame_free _ (audio_out_frame ms)).
  assert (fq_rep h3 (audio_queue ms) l) as Hrep3
    by (subst h3; repeat apply fq_rep_delete_other; assumption).
  destruct (free_audio_queue_ok l (size h3) h3 (audio_queue ms) Hrep3)
    as (h' & Hfree & Hlook); [eapply fq_rep_size; exact Hrep3|].
  exists h'. split; [exact Hfree|].
  intros a. rewrite Hlook. subst h3. unfold av_frame_free, frames_of.
  destruct (decide (a ∈ l)) as [Hal|Hal].
  - rewrite decide_True by (do 3 apply list_elem_of_further; exact Hal).
    reflexivity.
  - destruct (decide (a = audio_out_frame ms)) as [->|H1].
    { rewrite decide_True
        by (do 2 apply list_elem_of_further; apply list_elem_of_here).
      apply lookup_delete_eq. }
    rewrite lookup_delete_ne by congruence.
    destruct (decide (a = audio_decode_frame ms)) as [->|H2].
    { rewrite decide_True
        by (apply list_elem_of_further, list_elem_of_here).
      apply lookup_delete_eq. }
    rewrite lookup_delete_ne by congruence.
    destruct (decide (a = video_decode_frame ms)) as [->|H3].
    { rewrite decide_True by apply list_elem_of_here. apply lookup_delete_eq. }
    rewrite lookup_delete_ne by congruence.
    rewrite decide_False; [reflexivity|].
    intros Hin. repeat (apply elem_of_cons in Hin as [?|Hin]; [contradiction|]).
    contradiction.
Qed.

(** [media_close] on a handle that was never started frees it directly:
    no lock is taken, nothing is signalled. *)
Lemma media_close_not_started h ms l :
  started ms = false -> frames_apart h ms l ->
  exists h',
    media_close h ms = Returns (h', None, [EvDeallocate]) /\
    forall a, h' !! a = if decide (a ∈ frames_of ms l) then None else h !! a.
Proof.
  intros Hs Hok. destruct (deallocate_ok h ms l Hok) as (h' & Hd & Hlook).
  exists h'. unfold media_close. rewrite Hs, Hd. auto.
Qed.

Lemma set_quit_unchanged ms v : unchanged_but_quit ms (set_quit v ms).
Proof. repeat split. Qed.

Lemma set_started_unchanged ms v : unchanged_but_started ms (set_started v ms).
Proof. repeat split. Qed.

End Lifecycle.

(** C8. [media_close] on a handle whose decode thread was never started
    deallocates directly: it returns with the state gone and every frame of
    the handle freed, having called nothing but [deallocate].  On a started
    handle it locks, broadcasts and unlocks, and returns without waiting; the
    state is still there, [quit] is true, every other field is what it was,
    and no frame has been freed. *)
Theorem media_close_effect (h : heap) (ms : MediaState) (l : list addr) :
  frames_apart h ms l ->
  (started ms = false ->
   exists h',
     media_close h ms = Returns (h', None, [EvDeallocate]) /\
     forall a, h' !! a = if decide (a ∈ frames_of ms l) then None else h !! a) /\
  (started ms = true ->
   exists ms',
     media_close h ms = Returns (h, Some ms', [EvLock; EvBroadcast; EvUnlock]) /\
     quit ms' = true /\ unchanged_but_quit ms ms').
Proof.
  intros Hok. split.
  - intros Hs. apply media_close_not_started; assumption.
  - intros Hs. exists (set_quit true ms).
    split; [apply media_close_started; exact Hs|].
    split; [reflexivity|apply set_quit_unchanged].
Qed.

Lemma queued_frames_apart : frames_apart queued_heap queued_state [4096; 8192].
Proof.
  split; [apply queued_pcm_ok|].
  repeat split; apply (bool_decide_unpack _); vm_compute; exact I.
Defined.

Lemma media_close_effect_witness :
  (started queued_state = false ->
   exists h',
     media_close queued_heap queued_state = Returns (h', None, [EvDeallocate]) /\
     forall a, h' !! a = if decide (a ∈ frames_of queued_state [4096; 8192])
                         then None else queued_heap !! a) /\
  (started queued_state = true ->
   exists ms',
     media_close queued_heap queued_state
     = Returns (queued_heap, Some ms', [EvLock; EvBroadcast; EvUnlock]) /\
     quit ms' = true /\ unchanged_but_quit queued_state ms').
Proof.
  apply (media_close_effect queued_heap queued_state [4096; 8192]).
  exact queued_frames_apart.
Defined.

(** C10. On a handle that is not started, [media_start] sets [started]
    exactly when [SDL_CreateThread] returned a thread, and then changes
    nothing else.  When no thread was created the handle is unchanged and
    nothing was called, so a [media_close] that follows frees the state and
    its frames directly, without locking or broadcasting. *)
Theorem media_start_started (t : addr) (h : heap) (ms : MediaState)
    (l : list addr) :
  started ms = false -> frames_apart h ms l ->
  (started (fst (media_start t ms)) = true <-> t <> NULL) /\
  (t <> NULL ->
   unchanged_but_started ms (fst (media_start t ms)) /\
   snd (media_start t ms) = [EvCreateThread; EvDetachThread]) /\
  (t = NULL ->
   media_start t ms = (ms, []) /\
   exists h',
     media_close h (fst (media_start t ms))
     = Returns (h', None, [EvDeallocate]) /\
     forall a, h' !! a = if decide (a ∈ frames_of ms l) then None else h !! a).
Proof.
  intros Hs Hok. unfold media_start.
  destruct (Z.eqb_spec t NULL) as [E|E]; cbn [negb fst snd].
  - split; [rewrite Hs; split; [discriminate|contradiction]|].
    split; [contradiction|]. intros _. split; [reflexivity|].
    apply media_close_not_started; assumption.
  - split; [split; [intros _; exact E|reflexivity]|].
    split; [|contradiction]. intros _.
    split; [apply set_started_unchanged|reflexivity].
Qed.

Lemma media_start_started_witness :
  (started (fst (media_start NULL queued_state)) = true <-> NULL <> NULL) /\
  (NULL <> NULL ->
   unchanged_but_started queued_state (fst (media_start NULL queued_state)) /\
   snd (media_start NULL queued_state) = [EvCreateThread; EvDetachThread]) /\
  (NULL = NULL ->
   media_start NULL queued_state = (queued_state, []) /\
   exists h',
     media_close queued_heap (fst (media_start NULL queued_state))
     = Returns (h', None, [EvDeallocate]) /\
     forall a, h' !! a = if decide (a ∈ frames_of queued_state [4096; 8192])
                         then None else queued_heap !! a).
Proof.
  apply (media_start_started NULL queued_heap queued_state [4096; 8192]).
  - reflexivity.
  - exact queued_frames_apart.
Defined.

(** ** The iteration bounds of the model are always enough *)

Section Fuel.

Implicit Types (h : heap) (ms : MediaState) (fq : FrameQueue).

Lemma int_wrap_add_sub a b : int_wrap (a + int_wrap (b - a)) = int_wrap b.
Proof.
  unfold int_wrap.
  replace (a + ((b - a + 2 ^ 31) mod 2 ^ 32 - 2 ^ 31) + 2 ^ 31)
    with (a + (b - a + 2 ^ 31) mod 2 ^ 32) by lia.
  rewrite Zplus_mod_idemp_r. f_equal. f_equal. lia.
Qed.

Lemma int_wrap_idem a : int_wrap (int_wrap a) = int_wrap a.
Proof.
  unfold int_wrap.
  replace ((a + 2 ^ 31) mod 2 ^ 32 - 2 ^ 31 + 2 ^ 31)
    with ((a + 2 ^ 31) mod 2 ^ 32) by lia.
  rewrite Zmod_mod. reflexivity.
Qed.

Lemma live_heap_nonempty h a f : h !! a = Some f -> (size h <> 0)%nat.
Proof.
  intros Hf Hz. apply map_size_empty_inv in Hz. subst h.
  rewrite lookup_empty in Hf. discriminate.
Qed.

(** Whatever the state, a pass over the current frame uses up [len] or
    frees the frame. *)
Lemma drain_out_frame_progress h ms f len h' ms' bytes count :
  h !! audio_out_frame ms = Some f ->
  drain_out_frame h ms f len = Some (h', ms', bytes, count) ->
  int_wrap (len - count) = 0 \/ (size h' < size h)%nat.
Proof.
  intros Hf. unfold drain_out_frame.
  set (N := int_wrap (nb_samples f * BPS)).
  set (avail := int_wrap (N - audio_out_index ms)).
  destruct (memcpy_from _ _ _) as [b|]; [|discriminate]. cbn [mbind option_bind].
  cbn [audio_out_index audio_out_frame set_audio_out_index
       set_audio_read_samples set_audio_queue_samples].
  destruct (len >? avail) eqn:Hgt.
  - subst avail. rewrite int_wrap_add_sub. subst N. rewrite int_wrap_idem.
    assert (forall z : Z, (z >=? z) = true) as -> by (intros z; lia).
    intros H. injection H as <- <- <- <-. right.
    unfold av_frame_free. rewrite map_size_delete_Some by (rewrite Hf; eauto).
    pose proof (live_heap_nonempty _ _ _ Hf). lia.
  - destruct (_ >=? _); intros H; injection H as <- <- <- <-.
    + right. unfold av_frame_free.
      rewrite map_size_delete_Some by (rewrite Hf; eauto).
      pose proof (live_heap_nonempty _ _ _ Hf). lia.
    + left. rewrite Z.sub_diag. reflexivity.
Qed.

Lemma read_audio_loop_fuel fuel : forall h ms stream len rv,
  (size h < fuel)%nat -> read_audio_loop fuel h ms stream len rv <> OutOfFuel.
Proof.
  induction fuel as [|fuel IH]; intros h ms stream len rv Hfuel; [lia|].
  cbn [read_audio_loop]. destruct (len =? 0); [discriminate|].
  destruct (fetch_out_frame h ms) as [ms1|]; [|discriminate].
  destruct (audio_out_frame ms1 =? NULL); [discriminate|].
  destruct (h !! audio_out_frame ms1) as [f|] eqn:Hf; [|discriminate].
  destruct (drain_out_frame h ms1 f len) as [[[[h2 ms2] bytes] count]|] eqn:Hd;
    [|discriminate].
  destruct (drain_out_frame_progress _ _ _ _ _ _ _ _ Hf Hd) as [->|Hless].
  - rewrite read_audio_loop_zero. discriminate.
  - apply IH. lia.
Qed.

(** [media_read_audio] never runs out of turns. *)
Lemma media_read_audio_fuel h ms len : media_read_audio h ms len <> OutOfFuel.
Proof.
  unfold media_read_audio. destruct (ready ms); [|discriminate]. cbn [negb].
  rewrite clamp_to_duration_dead.
  pose proof (read_audio_loop_fuel (S (size h)) h (set_audio_duration 0 ms)
                [] len 0 ltac:(lia)) as Hf.
  destruct (read_audio_loop _ _ _ _ _ _) as [[[[h2 ms2] s2] rv2]| | |];
    try discriminate; [|contradiction].
  destruct (negb (rv2 =? 0)); discriminate.
Qed.

Lemma dequeue_frame_live h fq f fq' :
  dequeue_frame h fq = Some (f, fq') -> f <> NULL -> is_Some (h !! f).
Proof.
  unfold dequeue_frame. destruct (fq_first fq =? NULL).
  - intros H. injection H as <- <-. contradiction.
  - destruct (h !! fq_first fq) as [g|] eqn:Hg; [|discriminate]. cbn.
    destruct (opaque g =? NULL); intros H; injection H as <- <-; eauto.
Qed.

Lemma free_audio_queue_fuel fuel : forall h fq,
  (size h <= fuel)%nat -> free_audio_queue fuel h fq <> OutOfFuel.
Proof.
  induction fuel as [|fuel IH]; intros h fq Hfuel;
    cbn [free_audio_queue];
    (destruct (dequeue_frame h fq) as [[f fq']|] eqn:Hd; [|discriminate]);
    (destruct (Z.eqb_spec f NULL) as [E|E]; [discriminate|]);
    destruct (dequeue_frame_live _ _ _ _ Hd E) as [g Hg];
    pose proof (live_heap_nonempty _ _ _ Hg).
  - lia.
  - apply IH. unfold av_frame_free.
    rewrite map_size_delete_Some by (rewrite Hg; eauto). lia.
Qed.

(** [media_close] never runs out of turns either. *)
Lemma media_close_fuel h ms : media_close h ms <> OutOfFuel.
Proof.
  unfold media_close. destruct (started ms); [discriminate|]. cbn [negb].
  pose proof (free_audio_queue_fuel
                (size (av_frame_free
                         (av_frame_free (av_frame_free h (video_decode_frame ms))
                            (audio_decode_frame ms)) (audio_out_frame ms)))
                _ (audio_queue ms) (Nat.le_refl _)) as Hf.
  unfold deallocate.
  destruct (free_audio_queue _ _ _); try discriminate. contradiction.
Qed.

End Fuel.

(** ** Stream selection keeps the two streams apart *)

Section StreamSelection.

Implicit Types (ms : MediaState) (L l pre : list AVMediaType).

Lemma select_streams_ok l : forall pre ms,
  selection_ok (pre ++ l) ms ->
  selection_ok (pre ++ l) (select_streams l (Z.of_nat (length pre)) ms).
Proof.
  induction l as [|t l IH]; intros pre ms Hok; [exact Hok|].
  cbn [select_streams].
  assert ((pre ++ t :: l) !! Z.to_nat (Z.of_nat (length pre)) = Some t) as Hat.
  { rewrite Nat2Z.id. apply list_lookup_middle. reflexivity. }
  replace (Z.of_nat (length pre) + 1) with (Z.of_nat (length (pre ++ [t])))
    by (rewrite length_app; cbn; lia).
  replace (pre ++ t :: l) with ((pre ++ [t]) ++ l) in *
    by (rewrite <- app_assoc; reflexivity).
  apply IH. destruct Hok as (Hv & Ha).
  destruct t.
  - destruct (Z.eqb_spec (video_stream ms) (-1)) as [E|E].
    + split; [right; cbn; split; [lia|exact Hat]|exact Ha].
    + split; assumption.
  - destruct (Z.eqb_spec (audio_stream ms) (-1)) as [E|E].
    + split; [exact Hv|right; cbn; split; [lia|exact Hat]].
    + split; assumption.
  - split; assumption.
Qed.

(** What a successful setup leaves in the stream and context fields. *)
Lemma decode_thread_setup_selection rate o ms ms' :
  decode_thread_setup rate o ms = (true, ms') ->
  let ms2 :=
    select_streams (streams (ctx ms)) 0
      (set_audio_stream (-1) (set_video_stream (-1) ms)) in
  audio_stream ms' = audio_stream ms2 /\
  video_stream ms' = video_stream ms2 /\
  audio_context ms' = find_context (audio_codec_ctx o) (audio_stream ms2) /\
  video_context ms' = find_context (video_codec_ctx o) (video_stream ms2).
Proof.
  unfold decode_thread_setup. intros H.
  destruct (negb (open_err o =? 0)); [discriminate|].
  destruct (negb (info_err o =? 0)); [discriminate|].
  injection H as <-. unfold infer_audio_duration.
  cbn [ctx set_swr set_audio_context set_video_context set_audio_stream
       set_video_stream].
  repeat match goal with
         | |- context [match ?x with _ => _ end] => destruct x
         end; repeat split.
Qed.

(** After a successful setup the audio and the video stream differ, unless
    neither was found, and then there is no codec context either. *)
Lemma decode_thread_setup_streams rate o ms ms' :
  decode_thread_setup rate o ms = (true, ms') ->
  audio_stream ms' <> video_stream ms' \/
  (audio_context ms' = NULL /\ video_context ms' = NULL).
Proof.
  intros H.
  destruct (decode_thread_setup_selection rate o ms ms' H)
    as (-> & -> & -> & ->).
  set (ms1 := set_audio_stream (-1) (set_video_stream (-1) ms)).
  set (ms2 := select_streams (streams (ctx ms)) 0 ms1).
  assert (selection_ok (streams (ctx ms)) ms2) as (Hv & Ha).
  { apply (select_streams_ok (streams (ctx ms)) [] ms1).
    split; left; reflexivity. }
  unfold find_context.
  destruct Hv as [Hv|(Hv0 & Hv)]; destruct Ha as [Ha|(Ha0 & Ha)].
  - right. rewrite Hv, Ha. auto.
  - left. rewrite Hv. lia.
  - left. rewrite Ha. lia.
  - left. intros E. rewrite E in Ha. congruence.
Qed.

End StreamSelection.

(** ** Where queue accounting does hold *)

Section Accounting.

Implicit Types (h : heap) (ms : MediaState) (l : list addr).

(** The branches of the skip policy that enqueue or discard keep the
    accounting, as long as the counter does not overflow. *)
Lemma skip_policy_keeps_accounting rate h ms l pts timebase frame f :
  h !! frame = Some f -> frame <> NULL -> (frame ∉ l) ->
  frame <> audio_out_frame ms ->
  fq_rep h (audio_queue ms) l ->
  audio_queue_samples ms = queued_samples h l + out_frame_remainder h ms ->
  INT_MIN <= audio_queue_samples ms + nb_samples f <= INT_MAX ->
  (skip ms <=? frame_start pts timebase)%float = true \/
  (frame_end rate pts timebase f <? skip ms)%float = true ->
  exists h' ms',
    decode_audio_skip_policy rate h ms pts timebase frame = Some (h', ms') /\
    queue_accounting h' ms'.
Proof.
  intros Hf Hnn Hfresh Hout Hrep Hacc Hrange Hcase.
  destruct (skip ms <=? frame_start pts timebase)%float eqn:Hge.
  - destruct (skip_policy_enqueue_branch rate h ms l pts timebase frame f
                Hf Hrep Hfresh Hnn Hge)
      as (_ & h' & ms' & Hr & Hrep' & Hpay & Hq & Ho & Hi).
    exists h', ms'. split; [exact Hr|].
    exists (l ++ [frame]). split; [exact Hrep'|].
    rewrite Hq, int_wrap_small by exact Hrange.
    rewrite queued_samples_app, (queued_samples_same_payload h h') by exact Hpay.
    assert (out_frame_remainder h' ms' = out_frame_remainder h ms) as ->.
    { rewrite <- (out_frame_remainder_same_payload h h' ms Hpay).
      unfold out_frame_remainder. rewrite Ho, Hi. reflexivity. }
    assert (queued_samples h' [frame] = nb_samples f) as ->.
    { cbn. specialize (Hpay frame). rewrite Hf in Hpay.
      destruct (h' !! frame); [|contradiction]. destruct Hpay as [-> _]. lia. }
    lia.
  - destruct Hcase as [Hc|Hc]; [discriminate|].
    rewrite (skip_policy_later_branches _ _ _ _ _ _ f Hf Hge), Hc.
    eexists _, _. split; [reflexivity|].
    exists l. split; [apply fq_rep_delete_other; assumption|].
    unfold av_frame_free. rewrite queued_samples_delete by exact Hfresh.
    rewrite Hacc. f_equal. unfold out_frame_remainder.
    destruct (audio_out_frame ms =? NULL); [reflexivity|].
    rewrite lookup_delete_ne by exact Hout. reflexivity.
Qed.

(** The fill loop keeps the accounting when the pull and the index are
    whole samples. *)
Lemma read_audio_loop_accounting fuel : forall h ms l stream len rv,
  pcm_ok h ms l -> 0 <= len <= INT_MAX -> len mod BPS = 0 ->
  audio_out_index ms mod BPS = 0 ->
  audio_queue_samples ms = queued_samples h l + out_frame_remainder h ms ->
  audio_queue_samples ms <= INT_MAX ->
  (size h < fuel)%nat ->
  exists h' ms' l' stream' rv',
    read_audio_loop fuel h ms stream len rv = Returns (h', ms', stream', rv') /\
    pcm_ok h' ms' l' /\
    audio_queue_samples ms'
    = queued_samples h' l' + out_frame_remainder h' ms' /\
    audio_out_index ms' mod BPS = 0.
Proof.
  induction fuel as [|fuel IH];
    intros h ms l stream len rv Hok Hlen Hal Hai Hacc Hmax Hfuel; [lia|].
  cbn [read_audio_loop].
  destruct (Z.eqb_spec len 0) as [->|Hne].
  { exists h, ms, l, stream, rv. auto. }
  destruct (fetch_out_frame_ok h ms l Hok)
    as (ms1 & l1 & Hfetch & Hok1 & _ & _ & Hq1 & Hs1 & Hi1).
  rewrite Hfetch. specialize (Hi1 Hai).
  assert (audio_queue_samples ms1
          = queued_samples h l1 + out_frame_remainder h ms1) as Hacc1
    by (rewrite Hs1, Hq1; exact Hacc).
  destruct (Z.eqb_spec (audio_out_frame ms1) NULL) as [E|E].
  { exists h, ms1, l1, stream, rv. auto. }
  pose proof Hok1 as (Hrep1 & Hall1 & Hout1).
  destruct (Hout1 E) as (_ & f & Hf & _). rewrite Hf.
  destruct (drain_out_frame_ok h ms1 l1 f len Hok1 E Hf ltac:(lia))
    as (h' & ms2 & bytes & count & Hdrain & Hok2 & _ & Hcount & _
        & Hprog & Hsize & Hq2 & Hr2 & Hal2).
  rewrite Hdrain.
  destruct (Hal2 Hal Hi1) as (Hcm & Hi2 & Hsum).
  assert (INT_MIN <= 0) as Hmin by (unfold INT_MIN; lia).
  assert (0 <= Z.quot count BPS) as Hquot
    by (apply Z.quot_pos; unfold BPS; lia).
  assert (0 <= queued_samples h' l1) as Hq'
    by (apply queued_samples_nonneg; apply Hok2).
  assert (audio_queue_samples ms2
          = queued_samples h' l1 + out_frame_remainder h' ms2) as Hacc2.
  { rewrite Hq2, int_wrap_small; lia. }
  rewrite (int_wrap_small (len - count)) by lia.
  destruct Hprog as [->|Hless].
  - rewrite Z.sub_diag, read_audio_loop_zero.
    eexists _, _, l1, _, _. auto.
  - apply (IH h' ms2 l1); try assumption; try lia.
    unfold BPS in *. Z.div_mod_to_equations. lia.
Qed.

(** Queue accounting survives a pull of whole samples. *)
Lemma media_read_audio_keeps_accounting h ms l len :
  ready ms = true -> 0 <= len <= INT_MAX -> len mod BPS = 0 ->
  pcm_ok h ms l -> audio_out_index ms mod BPS = 0 ->
  audio_queue_samples ms = queued_samples h l + out_frame_remainder h ms ->
  audio_queue_samples ms <= INT_MAX ->
  exists h' ms' stream rv evs,
    media_read_audio h ms len = Returns (h', ms', stream, rv, evs) /\
    queue_accounting h' ms' /\ audio_out_index ms' mod BPS = 0.
Proof.
  intros Hready Hlen Hal Hok Hai Hacc Hmax.
  unfold media_read_audio. rewrite Hready, clamp_to_duration_dead. cbn [negb].
  destruct (read_audio_loop_accounting (S (size h)) h (set_audio_duration 0 ms)
              l [] len 0)
    as (h' & ms' & l' & stream & rv & Hloop & (Hrep' & _) & Hacc' & Hai');
    try assumption; try lia.
  rewrite Hloop.
  destruct (negb (rv =? 0)); eexists _, _, _, _, _;
    (split; [reflexivity|]); (split; [|exact Hai']);
    exists l'; (split; [exact Hrep'|exact Hacc']).
Qed.

End Accounting.

(** ** Duration inference on durations that fit *)

Lemma llong_wrap_small z : - 2 ^ 63 <= z < 2 ^ 63 -> llong_wrap z = z.
Proof. unfold llong_wrap. intros Hz. rewrite Z.mod_small; lia. Qed.

(** As long as the sample count fits an [unsigned int], lines 583-590 keep
    it when it lies in (0, 3600 * rate] and store 0 otherwise. *)
Lemma infer_audio_duration_in_range (audio_sample_rate : Z) (ms : MediaState) :
  duration_estimation_method (ctx ms) <> AVFMT_DURATION_FROM_BITRATE ->
  0 <= 3600 * audio_sample_rate <= INT_MAX ->
  - 2 ^ 63 <= duration (ctx ms) * audio_sample_rate < 2 ^ 63 ->
  0 <= Z.quot (duration (ctx ms) * audio_sample_rate) AV_TIME_BASE < 2 ^ 32 ->
  audio_duration (infer_audio_duration audio_sample_rate ms)
  = if Z.quot (duration (ctx ms) * audio_sample_rate) AV_TIME_BASE
       <=? 3600 * audio_sample_rate
    then Z.quot (duration (ctx ms) * audio_sample_rate) AV_TIME_BASE
    else 0.
Proof.
  intros Hm Hrate Hll Hconv. unfold infer_audio_duration.
  rewrite llong_wrap_small by exact Hll.
  set (converted := Z.quot (duration (ctx ms) * audio_sample_rate) AV_TIME_BASE)
    in *.
  assert (uint_wrap converted = converted) as Hu
    by (unfold uint_wrap; apply Z.mod_small; lia).
  assert (uint_wrap (int_wrap (3600 * audio_sample_rate))
          = 3600 * audio_sample_rate) as Hb.
  { rewrite int_wrap_small by (unfold INT_MIN; lia).
    unfold uint_wrap, INT_MAX in *. apply Z.mod_small. lia. }
  destruct (duration_estimation_method (ctx ms)); try contradiction;
    cbn [audio_duration set_audio_duration]; rewrite Hu, Hb;
    (destruct (Z.ltb_spec converted 0); [lia|]); cbn [orb];
    destruct (Z.gtb_spec converted (3600 * audio_sample_rate));
    destruct (Z.leb_spec converted (3600 * audio_sample_rate));
    cbn; lia.
Qed.

Lemma infer_audio_duration_in_range_witness :
  audio_duration (infer_audio_duration 44100 example_state) = 88200.
Proof.
  rewrite (infer_audio_duration_in_range 44100 example_state).
  - reflexivity.
  - discriminate.
  - unfold INT_MAX. lia.
  - vm_compute. split; [discriminate|reflexivity].
  - vm_compute. split; [discriminate|reflexivity].
Defined.

Lemma skip_policy_keeps_accounting_witness :
  exists h' ms',
    decode_audio_skip_policy 44100 one_frame example_playing 0 1%float 4096
    = Some (h', ms') /\
    queue_accounting h' ms'.
Proof.
  apply (skip_policy_keeps_accounting 44100 one_frame example_playing [] 0
           1%float 4096 (pcm_frame 1024)).
  - reflexivity.
  - discriminate.
  - apply not_elem_of_nil.
  - vm_compute. discriminate.
  - apply fq_rep_empty.
  - vm_compute. reflexivity.
  - vm_compute. split; discriminate.
  - left. vm_compute. reflexivity.
Defined.

Lemma media_read_audio_keeps_accounting_witness :
  exists h' ms' stream rv evs,
    media_read_audio queued_heap queued_state 6000
    = Returns (h', ms', stream, rv, evs) /\
    queue_accounting h' ms' /\ audio_out_index ms' mod BPS = 0.
Proof.
  apply (media_read_audio_keeps_accounting queued_heap queued_state
           [4096; 8192] 6000).
  - reflexivity.
  - unfold INT_MAX. lia.
  - reflexivity.
  - exact queued_pcm_ok.
  - reflexivity.
  - vm_compute. reflexivity.
  - vm_compute. discriminate.
Defined.

Lemma decode_thread_setup_streams_witness :
  audio_stream example_playing <> video_stream example_playing \/
  (audio_context example_playing = NULL /\ video_context example_playing = NULL).
Proof.
  apply (decode_thread_setup_streams 44100 example_oracle example_state).
  vm_compute. reflexivity.
Defined.

(** * Properties of the rest of the pipeline *)

(** ** What [read_packet] keeps *)

Section ReadPacketKeeps.

Implicit Types (ms : MediaState) (pq : packet_queue_ref) (pkt p : AVPacket).

Lemma outside_demux_audio ms ms' :
  outside_demux ms' = outside_demux ms ->
  outside_decode_audio ms' = outside_decode_audio ms.
Proof.
  unfold outside_demux, outside_decode_audio. intros H.
  injection H. intros. congruence.
Qed.

Lemma outside_demux_video ms ms' :
  outside_demux ms' = outside_demux ms ->
  outside_decode_video ms' = outside_decode_video ms.
Proof.
  unfold outside_demux, outside_decode_video. intros H.
  injection H. intros. congruence.
Qed.

Lemma outside_demux_streams ms ms' :
  outside_demux ms' = outside_demux ms ->
  audio_stream ms' = audio_stream ms /\ video_stream ms' = video_stream ms.
Proof. unfold outside_demux. intros H. injection H. intros. auto. Qed.

Lemma route_packet_outside p ms :
  outside_demux (route_packet p ms) = outside_demux ms.
Proof.
  unfold route_packet.
  destruct (stream_index p =? video_stream ms); [reflexivity|].
  destruct (stream_index p =? audio_stream ms); reflexivity.
Qed.

Lemma route_packet_pure p ms : queues_pure ms -> queues_pure (route_packet p ms).
Proof.
  intros (Ha & Hv). unfold route_packet, queues_pure, enqueue_packet.
  destruct (Z.eqb_spec (stream_index p) (video_stream ms)) as [Ev|Ev].
  - split; [exact Ha|]. cbn. apply Forall_app. auto.
  - destruct (Z.eqb_spec (stream_index p) (audio_stream ms)) as [Ea|Ea].
    + split; [|exact Hv]. cbn. apply Forall_app. auto.
    + split; assumption.
Qed.

(** Routing adds at the back of a queue, if at all. *)
Lemma route_packet_grows p ms pq :
  exists extra,
    packet_queue_at pq (route_packet p ms) = packet_queue_at pq ms ++ extra.
Proof.
  unfold route_packet, enqueue_packet.
  destruct (stream_index p =? video_stream ms).
  - destruct pq; [exists []|exists [p]]; cbn; rewrite ?app_nil_r; reflexivity.
  - destruct (stream_index p =? audio_stream ms).
    + destruct pq; [exists [p]|exists []]; cbn; rewrite ?app_nil_r; reflexivity.
    + exists []. rewrite app_nil_r. reflexivity.
Qed.

Lemma read_packet_loop_keeps pending : forall ms pq pkt,
  queues_pure ms ->
  let '(rv, ms', pkt') := read_packet_loop pending ms pq pkt in
  queues_pure ms' /\ outside_demux ms' = outside_demux ms /\
  (exists extra,
     packet_queue_at (other_queue pq) ms'
     = packet_queue_at (other_queue pq) ms ++ extra) /\
  (rv = 1 /\ stream_index pkt' = target_stream pq ms \/
   rv = 0 /\ packet_queue_at pq ms' = [] /\ pkt' = empty_packet pkt).
Proof.
  induction pending as [|r rest IH]; intros ms pq pkt Hpure.
  - cbn [read_packet_loop].
    destruct (packet_queue_at pq ms) as [|p q] eqn:Hq; cbn.
    + split; [exact Hpure|]. split; [reflexivity|].
      split; [exists []; rewrite app_nil_r; reflexivity|]. right. auto.
    + destruct Hpure as (Ha & Hv).
      split; [|split; [destruct pq; reflexivity|split]].
      * destruct pq; cbn in *; rewrite Hq in *; split;
          try assumption; eapply Forall_inv_tail; eassumption.
      * exists []. rewrite app_nil_r. destruct pq; reflexivity.
      * left. split; [reflexivity|].
        destruct pq; cbn in *; rewrite Hq in *;
          eapply (Forall_inv (P := fun p => stream_index p = _)); eassumption.
  - cbn [read_packet_loop].
    destruct (packet_queue_at pq ms) as [|p q] eqn:Hq; cbn.
    + destruct r as [scratch|].
      * set (ms0 := route_packet scratch (set_ctx (set_input rest (ctx ms)) ms)).
        assert (queues_pure ms0) as Hpure0
          by (apply route_packet_pure; exact Hpure).
        assert (outside_demux ms0 = outside_demux ms) as Hout0
          by (subst ms0; rewrite route_packet_outside; reflexivity).
        specialize (IH ms0 pq pkt Hpure0).
        destruct (read_packet_loop rest ms0 pq pkt) as [[rv ms'] pkt'].
        destruct IH as (Hp' & Hout' & (extra & Hex) & Hres).
        destruct (outside_demux_streams _ _ Hout0) as (Eas & Evs).
        split; [exact Hp'|]. split; [congruence|]. split.
        -- destruct (route_packet_grows scratch
                       (set_ctx (set_input rest (ctx ms)) ms) (other_queue pq))
             as (extra0 & Hex0).
           exists (extra0 ++ extra). rewrite Hex. fold ms0 in Hex0.
           rewrite Hex0, <- app_assoc. destruct pq; reflexivity.
        -- destruct Hres as [(-> & Hs)|Hres]; [left|right; exact Hres].
           split; [reflexivity|]. rewrite Hs.
           destruct pq; cbn; assumption.
      * split; [exact Hpure|]. split; [reflexivity|].
        split; [exists []; rewrite app_nil_r; destruct pq; reflexivity|].
        right. split; [reflexivity|]. split; [destruct pq; exact Hq|reflexivity].
    + destruct Hpure as (Ha & Hv).
      split; [|split; [destruct pq; reflexivity|split]].
      * destruct pq; cbn in *; rewrite Hq in *; split;
          try assumption; eapply Forall_inv_tail; eassumption.
      * exists []. rewrite app_nil_r. destruct pq; reflexivity.
      * left. split; [reflexivity|].
        destruct pq; cbn in *; rewrite Hq in *;
          eapply (Forall_inv (P := fun p => stream_index p = _)); eassumption.
Qed.

End ReadPacketKeeps.

(** Whatever the streams selected, [read_packet] keeps each packet queue
    to packets of its own stream; it assigns nothing but [ctx] and the two
    packet queues; the queue it was not asked for keeps its packets, in
    order, with any new ones behind them; and it returns either 1 with a
    packet of the stream asked for, or 0 with the empty packet, leaving the
    queue asked for empty. *)
Theorem read_packet_keeps_queues_pure (ms : MediaState)
    (pq : packet_queue_ref) (pkt : AVPacket) :
  queues_pure ms ->
  let '(rv, ms', pkt') := read_packet ms pq pkt in
  queues_pure ms' /\ outside_demux ms' = outside_demux ms /\
  (exists extra,
     packet_queue_at (other_queue pq) ms'
     = packet_queue_at (other_queue pq) ms ++ extra) /\
  (rv = 1 /\ stream_index pkt' = target_stream pq ms \/
   rv = 0 /\ packet_queue_at pq ms' = [] /\
   pkt_data pkt' = NULL /\ pkt_size pkt' = 0).
Proof.
  intros Hpure. unfold read_packet.
  pose proof (read_packet_loop_keeps (input (ctx ms)) ms pq pkt Hpure) as H.
  destruct (read_packet_loop (input (ctx ms)) ms pq pkt) as [[rv ms'] pkt'].
  destruct H as (Hp & Ho & He & [Hr|(Hr & Hq & ->)]).
  - auto.
  - split; [exact Hp|]. split; [exact Ho|]. split; [exact He|].
    right. auto.
Qed.

Lemma read_packet_keeps_queues_pure_witness :
  let '(rv, ms', pkt') :=
    read_packet example_playing AUDIO_PACKET_QUEUE zero_packet in
  queues_pure ms' /\ outside_demux ms' = outside_demux example_playing /\
  (exists extra,
     packet_queue_at (other_queue AUDIO_PACKET_QUEUE) ms'
     = packet_queue_at (other_queue AUDIO_PACKET_QUEUE) example_playing
       ++ extra) /\
  (rv = 1 /\
   stream_index pkt' = target_stream AUDIO_PACKET_QUEUE example_playing \/
   rv = 0 /\ packet_queue_at AUDIO_PACKET_QUEUE ms' = [] /\
   pkt_data pkt' = NULL /\ pkt_size pkt' = 0).
Proof.
  apply (read_packet_keeps_queues_pure example_playing AUDIO_PACKET_QUEUE
           zero_packet).
  split; constructor.
Defined.

(** ** The video decoder *)

Section DecodeVideo.

Implicit Types (ms : MediaState) (rs : list video_decode_result).

Lemma video_step_keeps_refl ms : video_step_keeps ms ms.
Proof.
  split; [auto|]. split; [reflexivity|]. exists []. rewrite app_nil_r. reflexivity.
Qed.

Lemma video_step_keeps_trans ms1 ms2 ms3 :
  video_step_keeps ms1 ms2 -> video_step_keeps ms2 ms3 ->
  video_step_keeps ms1 ms3.
Proof.
  intros (Hp1 & Ho1 & e1 & He1) (Hp2 & Ho2 & e2 & He2).
  split; [auto|]. split; [congruence|].
  exists (e1 ++ e2). rewrite He2, He1, app_assoc. reflexivity.
Qed.

Lemma refill_video_packet_keeps ms :
  queues_pure ms -> video_step_keeps ms (refill_video_packet ms).
Proof.
  intros Hpure. unfold refill_video_packet.
  destruct (pkt_size (video_pkt_tmp ms) =? 0); [|apply video_step_keeps_refl].
  unfold read_packet.
  pose proof (read_packet_loop_keeps (input (ctx ms)) ms VIDEO_PACKET_QUEUE
                (av_free_packet (video_pkt ms)) Hpure) as H.
  destruct (read_packet_loop _ _ _ _) as [[rv ms1] pkt1].
  destruct H as (Hp & Ho & (extra & He) & _).
  split; [intros _; exact Hp|]. split.
  - apply outside_demux_video in Ho. exact Ho.
  - exists extra. exact He.
Qed.

Lemma decode_video_frame_keeps rs : forall ms ms' rs',
  queues_pure ms ->
  decode_video_frame rs ms = Returns (ms', rs') ->
  video_step_keeps ms ms' /\ queues_pure ms' /\
  (length rs' < length rs)%nat.
Proof.
  induction rs as [|r rs IH]; intros ms ms' rs' Hpure H; [discriminate|].
  cbn [decode_video_frame] in H.
  pose proof (refill_video_packet_keeps ms Hpure) as Hk1.
  set (ms1 := refill_video_packet ms) in *.
  assert (queues_pure ms1) as Hpure1 by (apply Hk1; exact Hpure).
  destruct (vdr_read_size r <? 0).
  { injection H as <- <-. split; [|split; [exact Hpure1|cbn; lia]].
    eapply video_step_keeps_trans; [exact Hk1|].
    split; [auto|]. split; [reflexivity|].
    exists []. rewrite app_nil_r. reflexivity. }
  set (ms2 := set_video_pkt_tmp _ ms1) in *.
  assert (video_step_keeps ms1 ms2) as Hk2.
  { split; [auto|]. split; [reflexivity|].
    exists []. rewrite app_nil_r. reflexivity. }
  assert (queues_pure ms2) as Hpure2 by exact Hpure1.
  destruct (vdr_got_frame r).
  { injection H as <- <-. split; [|split; [exact Hpure2|cbn; lia]].
    eapply video_step_keeps_trans; [exact Hk1|exact Hk2]. }
  destruct (pkt_size (video_pkt ms2) =? 0).
  { injection H as <- <-. split; [|split; [exact Hpure2|cbn; lia]].
    eapply video_step_keeps_trans; [exact Hk1|].
    eapply video_step_keeps_trans; [exact Hk2|].
    split; [auto|]. split; [reflexivity|].
    exists []. rewrite app_nil_r. reflexivity. }
  destruct (IH ms2 ms' rs' Hpure2 H) as (Hk3 & Hp3 & Hlen).
  split; [|split; [exact Hp3|cbn; lia]].
  eapply video_step_keeps_trans; [exact Hk1|].
  eapply video_step_keeps_trans; [exact Hk2|exact Hk3].
Qed.

Lemma decode_video_loop_keeps fuel : forall rs ms ms',
  queues_pure ms ->
  decode_video_loop fuel rs ms = Returns ms' ->
  video_finished ms' = true /\ video_step_keeps ms ms'.
Proof.
  induction fuel as [|fuel IH]; intros rs ms ms' Hpure H;
    cbn [decode_video_loop] in H;
    destruct (video_finished ms) eqn:Hfin;
    try (injection H as <-; split; [exact Hfin|apply video_step_keeps_refl]);
    try discriminate.
  destruct (decode_video_frame rs ms) as [[ms1 rs1]| | |] eqn:Hframe;
    try discriminate.
  destruct (decode_video_frame_keeps rs ms ms1 rs1 Hpure Hframe)
    as (Hk1 & Hp1 & _).
  destruct (IH rs1 ms1 ms' Hp1 H) as (Hfin' & Hk2).
  split; [exact Hfin'|]. eapply video_step_keeps_trans; eassumption.
Qed.

(** As many turns as there are codec answers are enough: the loop only
    stops short when the answers themselves run out. *)
Lemma decode_video_loop_fuel fuel : forall rs ms,
  (length rs <= fuel)%nat -> queues_pure ms ->
  decode_video_loop fuel rs ms = OutOfFuel ->
  exists rs1 ms1, decode_video_frame rs1 ms1 = OutOfFuel.
Proof.
  induction fuel as [|fuel IH]; intros rs ms Hlen Hpure H;
    cbn [decode_video_loop] in H; destruct (video_finished ms);
    try discriminate.
  - destruct rs; [|cbn in Hlen; lia]. exists [], ms. reflexivity.
  - destruct (decode_video_frame rs ms) as [[ms1 rs1]| | |] eqn:Hframe;
      try discriminate.
    + destruct (decode_video_frame_keeps rs ms ms1 rs1 Hpure Hframe)
        as (_ & Hp1 & Hl).
      apply (IH rs1 ms1); [lia|exact Hp1|exact H].
    + eauto.
Qed.

End DecodeVideo.

(** [decode_video] returns only with [video_finished] set: one call decodes
    the video stream to its end (or to the first decoder error).  It assigns
    nothing outside [ctx], the packet queues, [video_finished],
    [video_decode_frame] and the two video packets, keeps every frame of the
    heap, and leaves the audio packets that were queued where they are, any
    new ones behind them. *)
Theorem decode_video_finishes (decode_frame : addr)
    (rs : list video_decode_result) (h h' : heap) (ms ms' : MediaState) :
  queues_pure ms ->
  decode_video decode_frame rs h ms = Returns (h', ms') ->
  video_finished ms' = true /\
  outside_decode_video ms' = outside_decode_video ms /\
  queues_pure ms' /\
  (exists extra, audio_packet_queue ms' = audio_packet_queue ms ++ extra) /\
  frames_kept h h'.
Proof.
  intros Hpure. unfold decode_video.
  destruct (video_context ms =? NULL).
  { intros H. injection H as <- <-.
    split; [reflexivity|]. split; [reflexivity|]. split; [exact Hpure|].
    split; [exists []; rewrite app_nil_r; reflexivity|].
    intros a f Hf. eauto. }
  assert (forall h1 ms1,
             queues_pure ms1 ->
             video_step_keeps ms ms1 -> frames_kept h h1 ->
             match decode_video_loop (length rs) rs ms1 with
             | Returns ms2 => Returns (h1, ms2)
             | Undefined => Undefined
             | Blocked => Blocked
             | OutOfFuel => OutOfFuel
             end = Returns (h', ms') ->
             video_finished ms' = true /\
             outside_decode_video ms' = outside_decode_video ms /\
             queues_pure ms' /\
             (exists extra,
                 audio_packet_queue ms' = audio_packet_queue ms ++ extra) /\
             frames_kept h h') as Hrun.
  { intros h1 ms1 Hp1 Hk1 Hkept H.
    destruct (decode_video_loop (length rs) rs ms1) as [ms2| | |] eqn:Hloop;
      try discriminate.
    injection H as <- <-.
    destruct (decode_video_loop_keeps _ _ _ _ Hp1 Hloop) as (Hfin & Hk2).
    destruct (video_step_keeps_trans _ _ _ Hk1 Hk2) as (Hp & Ho & He).
    auto. }
  destruct (video_decode_frame ms =? NULL).
  - destruct (decode_frame =? NULL); cbn [orb]; [discriminate|].
    destruct (bool_decide (is_Some (h !! decode_frame))) eqn:Hlive;
      [discriminate|].
    apply Hrun.
    + exact Hpure.
    + split; [auto|]. split; [reflexivity|].
      exists []. rewrite app_nil_r. reflexivity.
    + intros a f Hf. exists f. split; [|auto].
      rewrite lookup_insert_ne; [exact Hf|].
      intros ->. apply bool_decide_eq_false in Hlive. apply Hlive.
      rewrite Hf. eauto.
  - apply Hrun; [exact Hpure|apply video_step_keeps_refl|].
    intros a f Hf. eauto.
Qed.
